(** * pybtc script functions: a shallow embedding of [pybtc/functions/script.py]

    The Python functions are translated one by one.  Python integers are [Z],
    a [bytes] object is a list of [byte]s, indexing and slicing follow the
    Python rules (negative indices count from the end, an index out of range
    raises [IndexError], a slice is clamped and never raises).  Exceptions are
    carried by the [result] type; a [while] loop becomes a fuel-driven
    [Fixpoint] together with a proof that the fuel passed by the caller is
    never exhausted. *)

From Stdlib Require Import ZArith Lia.
From Stdlib.Strings Require Import Byte.
From stdpp Require Import base list strings pretty.

Local Open Scope Z_scope.

(** ** Python values *)

Abbreviation bytes := (list byte).

(** [b[i]] for a bytes object yields an int in [0, 256). *)
Definition byte_val (b : byte) : Z := Z.of_N (Byte.to_N b).

(** [len(b)] *)
Definition len (b : bytes) : Z := Z.of_nat (length b).

Inductive exn : Type :=
| IndexError
| StructError
| TypeError
| ValueError (msg : string).

(** Outcome of a Python call: a value, a raised exception, or (for the
    fuel-driven loops only) exhaustion of the fuel. *)
Inductive result (A : Type) : Type :=
| Ok (a : A)
| Raise (e : exn)
| OutOfFuel.
Arguments Ok {A} a.
Arguments Raise {A} e.
Arguments OutOfFuel {A}.

Definition bind {A B} (r : result A) (k : A -> result B) : result B :=
  match r with
  | Ok a => k a
  | Raise e => Raise e
  | OutOfFuel => OutOfFuel
  end.

Notation "'let*' x ':=' r 'in' k" := (bind r (fun x => k))
  (at level 10, x pattern, r at level 100, k at level 200).

(** [b[i]]: negative indices count from the end; out of range raises. *)
Definition getitem (b : bytes) (i : Z) : result Z :=
  let j := if i <? 0 then i + len b else i in
  if (0 <=? j) && (j <? len b) then
    match b !! Z.to_nat j with
    | Some x => Ok (byte_val x)
    | None => Raise IndexError
    end
  else Raise IndexError.

(** Clamping of a slice bound, as Python does it. *)
Definition clamp (b : bytes) (i : Z) : Z :=
  if i <? 0 then Z.max 0 (i + len b) else Z.min i (len b).

(** [b[lo:hi]] *)
Definition slice (b : bytes) (lo hi : Z) : bytes :=
  let lo' := clamp b lo in
  let hi' := clamp b hi in
  take (Z.to_nat (hi' - lo')) (drop (Z.to_nat lo') b).

(** [b[lo:]] *)
Definition slice_from (b : bytes) (lo : Z) : bytes :=
  drop (Z.to_nat (clamp b lo)) b.

(** [b[:hi]] *)
Definition slice_to (b : bytes) (hi : Z) : bytes :=
  take (Z.to_nat (clamp b hi)) b.

(** Truth value of a Python int. *)
Definition truthy (z : Z) : bool := negb (z =? 0).

(** Short-circuit [a and b] where evaluating [b] may raise. *)
Definition and_then (a : bool) (b : result bool) : result bool :=
  if a then b else Ok false.

(** ** Signature validator and decoder (lines 421-555) *)

Definition invalid_signature : exn := ValueError "invalid signature".

Definition is_valid_signature_encoding (sig : bytes) : result bool :=
  let length := len sig in
  if (length <? 9) || (length >? 73) then Ok false else
  let* b0 := getitem sig 0 in
  if negb (b0 =? 0x30) then Ok false else
  let* b1 := getitem sig 1 in
  if negb (b1 =? length - 3) then Ok false else
  let* len_r := getitem sig 3 in
  if 5 + len_r >=? length then Ok false else
  let* len_s := getitem sig (5 + len_r) in
  if negb (len_r + len_s + 7 =? length) then Ok false else
  let* b2 := getitem sig 2 in
  if negb (b2 =? 0x02) then Ok false else
  if len_r =? 0 then Ok false else
  let* b4 := getitem sig 4 in
  if truthy (Z.land b4 0x80) then Ok false else
  let* c := and_then (len_r >? 1)
              (let* x := getitem sig 4 in
               and_then (x =? 0)
                 (let* y := getitem sig 5 in
                  Ok (negb (truthy (Z.land y 0x80))))) in
  if c then Ok false else
  let* t := getitem sig (len_r + 4) in
  if negb (t =? 0x02) then Ok false else
  if len_s =? 0 then Ok false else
  let* u := getitem sig (len_r + 6) in
  if truthy (Z.land u 0x80) then Ok false else
  let* c := and_then (len_s >? 1)
              (let* x := getitem sig (len_r + 6) in
               and_then (x =? 0)
                 (let* y := getitem sig (len_r + 7) in
                  Ok (negb (truthy (Z.land y 0x80))))) in
  if c then Ok false else
  Ok true.

Definition parse_signature (sig : bytes) : result (bytes * bytes) :=
  let length := len sig in
  if (length <? 9) || (length >? 73) then Raise invalid_signature else
  let* b0 := getitem sig 0 in
  if negb (b0 =? 0x30) then Raise invalid_signature else
  let* b1 := getitem sig 1 in
  if negb (b1 =? length - 3) then Raise invalid_signature else
  let* len_r := getitem sig 3 in
  if 5 + len_r >=? length then Raise invalid_signature else
  let r := slice sig 5 (4 + len_r) in
  let* len_s := getitem sig (5 + len_r) in
  if negb (len_r + len_s + 7 =? length) then Raise invalid_signature else
  let s := slice sig (len_r + 6) (-1) in
  let* b2 := getitem sig 2 in
  if negb (b2 =? 0x02) then Raise invalid_signature else
  if len_r =? 0 then Raise invalid_signature else
  let* b4 := getitem sig 4 in
  if truthy (Z.land b4 0x80) then Raise invalid_signature else
  let* c := and_then (len_r >? 1)
              (let* x := getitem sig 4 in
               and_then (x =? 0)
                 (let* y := getitem sig 5 in
                  Ok (negb (truthy (Z.land y 0x80))))) in
  if c then Raise invalid_signature else
  let* t := getitem sig (len_r + 4) in
  if negb (t =? 0x02) then Raise invalid_signature else
  if len_s =? 0 then Raise invalid_signature else
  let* u := getitem sig (len_r + 6) in
  if truthy (Z.land u 0x80) then Raise invalid_signature else
  let* c := and_then (len_s >? 1)
              (let* x := getitem sig (len_r + 6) in
               and_then (x =? 0)
                 (let* y := getitem sig (len_r + 7) in
                  Ok (negb (truthy (Z.land y 0x80))))) in
  if c then Raise invalid_signature else
  Ok (r, s).

(** The envelope written out the way the format comment of the validator
    (and section 4.6 of the specification) words it:
    [0x30 total-length 0x02 R-length R 0x02 S-length S sighash], every
    length being that of the element that follows.  The bytes are given as
    ints so that the comparison with the input needs no conversion. *)
Definition encode_signature_spec (r s : bytes) (sighash : Z) : list Z :=
  [0x30; len r + len s + 4; 0x02; len r] ++ (byte_val <$> r) ++
  [0x02; len s] ++ (byte_val <$> s) ++ [sighash].

(** The smallest signature the validator accepts: r = 1, s = 1, sighash 1. *)
Definition sig_min : bytes := [x30; x06; x02; x01; x01; x02; x01; x01; x01].

(** ** Opcode constants

    The module [pybtc.opcodes] is not part of the sources at hand; the
    entries of its dictionary [OPCODE] that the functions below look up are
    taken from the table in section 6 of the specification. *)
Module OPCODE.
(** Modelled from the spec: [OPCODE["OP_PUSHDATA1"]], absent from the sources;
    value of section 6. *)
Definition OP_PUSHDATA1 : Z := 0x4c.
(** Modelled from the spec: [OPCODE["OP_PUSHDATA2"]], absent from the sources;
    value of section 6. *)
Definition OP_PUSHDATA2 : Z := 0x4d.
(** Modelled from the spec: [OPCODE["OP_PUSHDATA4"]], absent from the sources;
    value of section 6. *)
Definition OP_PUSHDATA4 : Z := 0x4e.
(** Modelled from the spec: [OPCODE["OP_RETURN"]], absent from the sources;
    value of section 6. *)
Definition OP_RETURN : Z := 0x6a.
(** Modelled from the spec: [OPCODE["OP_CHECKSIG"]], absent from the sources;
    value of section 6. *)
Definition OP_CHECKSIG : Z := 0xac.
(** Modelled from the spec: [OPCODE["OP_CHECKSIGVERIFY"]], absent from the sources;
    value of section 6. *)
Definition OP_CHECKSIGVERIFY : Z := 0xad.
(** Modelled from the spec: [OPCODE["OP_CHECKMULTISIG"]], absent from the sources;
    value of section 6. *)
Definition OP_CHECKMULTISIG : Z := 0xae.
(** Modelled from the spec: [OPCODE["OP_CHECKMULTISIGVERIFY"]], absent from the sources;
    value of section 6. *)
Definition OP_CHECKMULTISIGVERIFY : Z := 0xaf.
End OPCODE.

#[global] Instance byte_eq_decision : EqDecision byte := Byte.byte_eq_dec.

(** Little-endian value of a byte string. *)
Fixpoint le_value (b : bytes) : Z :=
  match b with
  | [] => 0
  | x :: b' => byte_val x + 256 * le_value b'
  end.

(** [unpack('<H', b)[0]] and [unpack('<L', b)[0]]: [struct.error] unless the
    buffer has exactly [width] bytes. *)
Definition unpack (width : Z) (b : bytes) : result Z :=
  if len b =? width then Ok (le_value b) else Raise StructError.

(** [try: e except: break], as far as the value of [e] is concerned: any
    exception is caught. *)
Definition try_or_break {A} (r : result A) : result (option A) :=
  match r with
  | Ok a => Ok (Some a)
  | Raise _ => Ok None
  | OutOfFuel => OutOfFuel
  end.

(** ** Script classifier: [parse_script] (lines 19-129) *)

(** The dictionary returned by [parse_script]; a key that is absent from the
    dictionary is [None], except [reqSigs], which is always present and whose
    [None] is Python's. *)
Record script_info : Type := {
  nType : Z;
  type : string;
  reqSigs : option Z;
  addressHash : option bytes;
  script : option bytes;
  data : option bytes;
  pubKeys : option Z
}.

Definition info (nt : Z) (ty : string) (rs : option Z) : script_info :=
  {| nType := nt; type := ty; reqSigs := rs; addressHash := None;
     script := None; data := None; pubKeys := None |}.

Definition with_addressHash (d : script_info) (h : bytes) : script_info :=
  {| nType := nType d; type := type d; reqSigs := reqSigs d;
     addressHash := Some h; script := script d; data := data d;
     pubKeys := pubKeys d |}.

Definition with_script (d : script_info) (b : bytes) : script_info :=
  {| nType := nType d; type := type d; reqSigs := reqSigs d;
     addressHash := addressHash d; script := Some b; data := data d;
     pubKeys := pubKeys d |}.

Definition with_data (d : script_info) (b : bytes) : script_info :=
  {| nType := nType d; type := type d; reqSigs := reqSigs d;
     addressHash := addressHash d; script := script d; data := Some b;
     pubKeys := pubKeys d |}.

Definition with_pubKeys (d : script_info) (c : Z) : script_info :=
  {| nType := nType d; type := type d; reqSigs := reqSigs d;
     addressHash := addressHash d; script := script d; data := data d;
     pubKeys := Some c |}.

(** The interior walk of the bare multisig template (lines 70-78): returns
    the final value of [c]. *)
Fixpoint multisig_walk (fuel : nat) (scr : bytes) (c s : Z) : result Z :=
  if len scr - 2 - s >? 0 then
    match fuel with
    | O => OutOfFuel
    | S fuel' =>
        let* b := getitem scr s in
        if b <? 0x4c then multisig_walk fuel' scr (c + 1) (s + b + 1)
        else Ok 0
    end
  else Ok c.

(** The variables of the generic walk (line 83). *)
Record walk_state : Type := {
  w_s : Z;
  w_m : Z;
  w_n : Z;
  w_last : Z;
  w_req_sigs : Z
}.

Definition walk_init : walk_state :=
  {| w_s := 0; w_m := 0; w_n := 0; w_last := 0; w_req_sigs := 0 |}.

Definition set_s (st : walk_state) (v : Z) : walk_state :=
  {| w_s := v; w_m := w_m st; w_n := w_n st; w_last := w_last st;
     w_req_sigs := w_req_sigs st |}.

Definition set_nm (st : walk_state) (vn vm : Z) : walk_state :=
  {| w_s := w_s st; w_m := vm; w_n := vn; w_last := w_last st;
     w_req_sigs := w_req_sigs st |}.

Definition set_last (st : walk_state) (v : Z) : walk_state :=
  {| w_s := w_s st; w_m := w_m st; w_n := w_n st; w_last := v;
     w_req_sigs := w_req_sigs st |}.

Definition set_req_sigs (st : walk_state) (v : Z) : walk_state :=
  {| w_s := w_s st; w_m := w_m st; w_n := w_n st; w_last := w_last st;
     w_req_sigs := v |}.

(** What one turn of the loop does to the control flow. *)
Inductive step_result : Type :=
| Continue (st : walk_state)
| Break (st : walk_state).

(** The [if]/[elif] chain of one turn (lines 86-125); [None] is [break]. *)
Definition walk_branch (scr : bytes) (st : walk_state)
  : result (option walk_state) :=
  let* b := getitem scr (w_s st) in
  if (b >=? 81) && (b <=? 96) then
    (* OP_1 -> OP_16 *)
    if negb (truthy (w_n st)) then
      Ok (Some (set_nm st (b - 80) (w_m st)))
    else if negb (truthy (w_m st)) then
      Ok (Some (set_nm st (b - 80) 0))
    else if w_n st >? w_m st then
      Ok (Some (set_nm st (b - 80) 0))
    else if w_m st =? b - 80 then
      Ok (Some (set_last st (if truthy (w_last st) then 0 else 2)))
    else Ok (Some st)
  else if b <? 0x4c then
    let st1 := set_s st (w_s st + b) in
    let st2 := set_nm st1 (w_n st1) (w_m st1 + 1) in
    if w_m st2 >? 16 then Ok (Some (set_nm st2 0 0)) else Ok (Some st2)
  else if b =? OPCODE.OP_PUSHDATA1 then
    let* r := try_or_break (getitem scr (w_s st + 1)) in
    match r with
    | Some ld => Ok (Some (set_s st (w_s st + (1 + ld))))
    | None => Ok None
    end
  else if b =? OPCODE.OP_PUSHDATA2 then
    let* r := try_or_break
                (unpack 2 (slice scr (w_s st + 1) (w_s st + 3))) in
    match r with
    | Some ld => Ok (Some (set_s st (w_s st + (2 + ld))))
    | None => Ok None
    end
  else if b =? OPCODE.OP_PUSHDATA4 then
    let* r := try_or_break
                (unpack 4 (slice scr (w_s st + 1) (w_s st + 5))) in
    match r with
    | Some ld => Ok (Some (set_s st (w_s st + (4 + ld))))
    | None => Ok None
    end
  else
    let st1 :=
      if b =? OPCODE.OP_CHECKSIG then
        set_req_sigs st (w_req_sigs st + 1)
      else if b =? OPCODE.OP_CHECKSIGVERIFY then
        set_req_sigs st (w_req_sigs st + 1)
      else if (b =? OPCODE.OP_CHECKMULTISIG)
              || (b =? OPCODE.OP_CHECKMULTISIGVERIFY) then
        if truthy (w_last st) then set_req_sigs st (w_req_sigs st + w_n st)
        else set_req_sigs st (w_req_sigs st + 20)
      else st in
    Ok (Some (set_nm st1 0 0)).

(** Lines 126-128, the end of a turn that did not break. *)
Definition walk_finish (st : walk_state) : walk_state :=
  let st' :=
    if truthy (w_last st) then set_last st (w_last st - 1) else st in
  set_s st' (w_s st' + 1).

(** One turn of the loop of line 84: the branch, then lines 126-128. *)
Definition walk_step (scr : bytes) (st : walk_state) : result step_result :=
  let* r := walk_branch scr st in
  match r with
  | None => Ok (Break st)
  | Some st1 => Ok (Continue (walk_finish st1))
  end.

(** The loop of lines 84-128; returns the final [req_sigs]. *)
Fixpoint generic_walk (fuel : nat) (scr : bytes) (st : walk_state)
  : result Z :=
  if len scr - w_s st >? 0 then
    match fuel with
    | O => OutOfFuel
    | S fuel' =>
        let* r := walk_step scr st in
        match r with
        | Continue st' => generic_walk fuel' scr st'
        | Break st' => Ok (w_req_sigs st')
        end
    end
  else Ok (w_req_sigs st).

(** The bare multisig template (lines 66-81); [None] when the script falls
    through to the generic walk. *)
Definition multisig_template (scr : bytes) : result (option script_info) :=
  let* b0 := getitem scr 0 in
  if (b0 >=? 81) && (b0 <=? 96) then
    let* e1 := getitem scr (-1) in
    if e1 =? 174 then
      let* e2 := getitem scr (-2) in
      if (e2 >=? 81) && (e2 <=? 96) then
        if e2 >=? b0 then
          let* c := multisig_walk (length scr) scr 0 1 in
          if c =? e2 - 80 then
            Ok (Some (with_script
                        (with_pubKeys (info 4 "MULTISIG" (Some (b0 - 80))) c)
                        scr))
          else Ok None
        else Ok None
      else Ok None
    else Ok None
  else Ok None.

(** The [OP_RETURN] templates (lines 56-65). *)
Definition null_data_template (scr : bytes) : result script_info :=
  let l := len scr in
  let non_standard :=
    with_script (info 8 "NULL_DATA_NON_STANDARD" (Some 0)) scr in
  if l =? 1 then Ok (with_data (info 3 "NULL_DATA" (Some 0)) [])
  else
    let* b1 := getitem scr 1 in
    if b1 <? OPCODE.OP_PUSHDATA1 then
      if b1 =? l - 2 then
        Ok (with_data (info 3 "NULL_DATA" (Some 0)) (slice_from scr 2))
      else Ok non_standard
    else if b1 =? OPCODE.OP_PUSHDATA1 then
      if l >? 2 then
        let* b2 := getitem scr 2 in
        if (b2 =? l - 3) && (b2 <=? 80) then
          Ok (with_data (info 3 "NULL_DATA" (Some 0)) (slice_from scr 3))
        else Ok non_standard
      else Ok non_standard
    else Ok non_standard.

(** Lines 55-129: what [parse_script] does once the fixed-length templates
    have been ruled out (OP_RETURN templates, bare multisig, generic walk). *)
Definition parse_script_tail (scr : bytes) : result script_info :=
  let* b0 := getitem scr 0 in
  if b0 =? OPCODE.OP_RETURN then null_data_template scr
  else
    let* ms := multisig_template scr in
    match ms with
    | Some d => Ok d
    | None =>
        let* req_sigs := generic_walk (length scr) scr walk_init in
        Ok (with_script (info 7 "NON_STANDARD" (Some req_sigs)) scr)
    end.

Section Classifier.

(** [pybtc.functions.hash.hash160] is an external collaborator. *)
Variable hash160 : bytes -> bytes.

Definition parse_script (scr : bytes) (segwit : bool) : result script_info :=
  match scr with
  | [] => Ok (with_script (info 7 "NON_STANDARD" (Some 0)) [])
  | _ :: _ =>
  let l := len scr in
  let* w1 := and_then (segwit && (l =? 22))
               (let* b := getitem scr 0 in Ok (b =? 0)) in
  if w1 then
    Ok (with_addressHash (info 5 "P2WPKH" (Some 1)) (slice_from scr 2))
  else
  let* w2 := and_then (segwit && (l =? 34))
               (let* b := getitem scr 0 in Ok (b =? 0)) in
  if w2 then
    Ok (with_addressHash (info 6 "P2WSH" None) (slice_from scr 2))
  else
  if (l =? 25) && bool_decide (slice_to scr 2 = [x76; xa9])
     && bool_decide (slice_from scr (-2) = [x88; xac]) then
    Ok (with_addressHash (info 0 "P2PKH" (Some 1)) (slice scr 3 (-2)))
  else
  let* c := and_then (l =? 23)
              (let* b := getitem scr 0 in
               and_then (b =? 169)
                 (let* e := getitem scr (-1) in Ok (e =? 135))) in
  if c then
    Ok (with_addressHash (info 1 "P2SH" None) (slice scr 2 (-1)))
  else
  let* c := and_then (l =? 67)
              (let* e := getitem scr (-1) in Ok (e =? 172)) in
  if c then
    Ok (with_addressHash (info 2 "PUBKEY" (Some 1))
          (hash160 (slice scr 1 (-1))))
  else
  let* c := and_then (l =? 35)
              (let* e := getitem scr (-1) in Ok (e =? 172)) in
  if c then
    Ok (with_addressHash (info 2 "PUBKEY" (Some 1))
          (hash160 (slice scr 1 (-1))))
  else
  parse_script_tail scr
  end.

End Classifier.

(** The P2PKH template as the specification words it:
    [OP_DUP OP_HASH160 <push-20 opcode 0x14> <20 bytes> OP_EQUALVERIFY
    OP_CHECKSIG]. *)
Definition p2pkh_template_spec (scr : bytes) : Prop :=
  exists h : bytes,
    length h = 20%nat /\ scr = [x76; xa9; x14] ++ h ++ [x88; xac].

(** What line 43-45 tests on a 25-byte script: the two leading and the two
    trailing bytes; the third byte is free. *)
Definition p2pkh_shape (scr : bytes) : Prop :=
  exists (x : byte) (h : bytes), scr = [x76; xa9; x] ++ h ++ [x88; xac].

(** A 25-byte script whose third byte is not the push-20 opcode. *)
Definition p2pkh_odd : bytes :=
  [x76; xa9; x00] ++ replicate 20 xff ++ [x88; xac].

(** The push unit that starts at cursor [s] does not fit in the buffer:
    its payload runs past the end, or (PUSHDATA1/2/4) its length field is
    itself cut short. *)
Definition truncated_push (scr : bytes) (s : Z) : bool :=
  match getitem scr s with
  | Ok b =>
      if b <? 0x4c then len scr <? s + 1 + b
      else if b =? OPCODE.OP_PUSHDATA1 then
        match getitem scr (s + 1) with
        | Ok ld => len scr <? s + 2 + ld
        | _ => true
        end
      else if b =? OPCODE.OP_PUSHDATA2 then
        match unpack 2 (slice scr (s + 1) (s + 3)) with
        | Ok ld => len scr <? s + 3 + ld
        | _ => true
        end
      else if b =? OPCODE.OP_PUSHDATA4 then
        match unpack 4 (slice scr (s + 1) (s + 5)) with
        | Ok ld => len scr <? s + 5 + ld
        | _ => true
        end
      else false
  | _ => false
  end.

(** The states the generic walk goes through at the top of its loop. *)
Inductive walk_reaches (scr : bytes) : walk_state -> Prop :=
| reaches_init : walk_reaches scr walk_init
| reaches_step (st st' : walk_state) :
    walk_reaches scr st ->
    len scr - w_s st > 0 ->
    walk_step scr st = Ok (Continue st') ->
    walk_reaches scr st'.

(** ** The bare multisig template, stated independently of the loop *)

(** [interior_pushes scr s c]: walking from cursor [s] the way lines 71-78
    do, only bytes below 0x4c are met as opcodes, [c] of them, before the
    cursor reaches the last two bytes.  Nothing requires the last push to
    end exactly there, nor a push to be non-empty. *)
Inductive interior_pushes (scr : bytes) : Z -> Z -> Prop :=
| interior_end (s : Z) :
    len scr - 2 - s <= 0 -> interior_pushes scr s 0
| interior_push (s b c : Z) :
    len scr - 2 - s > 0 ->
    getitem scr s = Ok b -> b < 0x4c ->
    interior_pushes scr (s + b + 1) c ->
    interior_pushes scr s (c + 1).

(** The conditions of lines 66-79 for an [m]-of-[n] classification. *)
Definition multisig_shape (scr : bytes) (m n : Z) : Prop :=
  getitem scr 0 = Ok (80 + m) /\ 1 <= m <= 16 /\
  getitem scr (-1) = Ok 174 /\
  getitem scr (-2) = Ok (80 + n) /\ m <= n <= 16 /\
  interior_pushes scr 1 n.

(** [bytes([z])] for [z] in range; used to build scripts, never by the
    functions under study. *)
Definition byte_of_Z (z : Z) : byte :=
  match Byte.of_N (Z.to_N z) with
  | Some b => b
  | None => x00
  end.

(** A raw push of [p]: the length byte, then the payload. *)
Definition raw_push (p : bytes) : bytes := byte_of_Z (len p) :: p.

(** The script [OP_m <key_1> ... <key_n> OP_n OP_CHECKMULTISIG]. *)
Definition bare_multisig (m : Z) (keys : list bytes) : bytes :=
  byte_of_Z (80 + m) :: concat (raw_push <$> keys)
    ++ [byte_of_Z (80 + Z.of_nat (length keys)); xae].

(** The bare multisig template as the specification words it: the interior
    is exactly [n] raw pushes, none of them empty. *)
Definition multisig_template_spec (scr : bytes) (m n : Z) : Prop :=
  exists keys : list bytes,
    scr = bare_multisig m keys /\ Z.of_nat (length keys) = n /\
    1 <= m <= 16 /\ m <= n <= 16 /\
    Forall (fun k => 1 <= len k <= 75) keys.

(** [OP_1 OP_0 OP_1 OP_CHECKMULTISIG]: the only interior unit is the
    zero-length push [0x00]. *)
Definition multisig_zero_push : bytes := [x51; x00; x51; xae].

(** [OP_2 <pub1> <pub2> <pub3> OP_3 OP_CHECKMULTISIG] with three compressed
    public keys of 33 bytes. *)
Definition keys_2_of_3 : list bytes :=
  [x02 :: replicate 32 x11; x03 :: replicate 32 x22; x02 :: replicate 32 x33].

Definition multisig_2_of_3 : bytes := bare_multisig 2 keys_2_of_3.

(** The dictionary of an [m]-of-[n] bare multisig classification. *)
Definition multisig_info (scr : bytes) (m n : Z) : script_info :=
  {| nType := 4; type := "MULTISIG"; reqSigs := Some m; addressHash := None;
     script := Some scr; data := None; pubKeys := Some n |}.

(** ** Script disassembler: [decode_script] (lines 148-208) *)

(** ['%s' % n] for an int. *)
Definition dec (n : Z) : string := pretty n.

Definition hex_digit (n : Z) : string :=
  match n with
  | 0 => "0" | 1 => "1" | 2 => "2" | 3 => "3" | 4 => "4" | 5 => "5"
  | 6 => "6" | 7 => "7" | 8 => "8" | 9 => "9" | 10 => "a" | 11 => "b"
  | 12 => "c" | 13 => "d" | 14 => "e" | _ => "f"
  end.

(** [b.hex()] *)
Fixpoint hex (b : bytes) : string :=
  match b with
  | [] => ""
  | x :: b' =>
      hex_digit (byte_val x / 16) +:+ hex_digit (byte_val x mod 16) +:+ hex b'
  end.

Definition SCRIPT_DECODE_FAILED : string := "[SCRIPT_DECODE_FAILED]".

(** What one turn of the loop of line 163 leaves behind: the next cursor and
    the token list, or, when an exception was raised, the token list as it
    was at that moment ([append] mutates [result] in place, so tokens
    appended before the exception stay). *)
Inductive decode_turn_result : Type :=
| Next (s : Z) (tokens : list string)
| Failed (tokens : list string).

Section Disassembler.

(** [RAW_OPCODE], the opcode-value-to-name dictionary of [pybtc.opcodes]
    (not part of the sources at hand); [None] is a missing key. *)
Variable RAW_OPCODE : Z -> option string.

Definition decode_turn (scr : bytes) (asm : bool) (s : Z)
    (tokens : list string) : decode_turn_result :=
  match getitem scr s with
  | Ok b =>
      if (b <? 0x4c) && truthy b then
        if asm then
          Next (s + (b + 1))
            (tokens ++ ["OP_PUSHBYTES[" +:+ dec b +:+ "]";
                        hex (slice scr (s + 1) (s + 1 + b))])
        else Next (s + (b + 1)) (tokens ++ ["[" +:+ dec b +:+ "]"])
      else if b =? OPCODE.OP_PUSHDATA1 then
        if asm then
          match getitem scr (s + 1) with
          | Ok ld =>
              Next (s + (1 + ld + 1))
                (tokens ++ ["OP_PUSHDATA1[" +:+ dec ld +:+ "]";
                            hex (slice scr (s + 2) (s + 2 + ld))])
          | _ => Failed tokens
          end
        else
          match RAW_OPCODE b with
          | Some name =>
              match getitem scr (s + 1) with
              | Ok ld =>
                  Next (s + (1 + ld + 1))
                    (tokens ++ [name; "[" +:+ dec ld +:+ "]"])
              | _ => Failed (tokens ++ [name])
              end
          | None => Failed tokens
          end
      else if b =? OPCODE.OP_PUSHDATA2 then
        match unpack 2 (slice scr (s + 1) (s + 3)) with
        | Ok ld =>
            if asm then
              Next (s + (2 + 1 + ld))
                (tokens ++ ["OP_PUSHDATA2[" +:+ dec ld +:+ "]";
                            hex (slice scr (s + 3) (s + 3 + ld))])
            else
              match RAW_OPCODE b with
              | Some name =>
                  Next (s + (2 + 1 + ld))
                    (tokens ++ [name; "[" +:+ dec ld +:+ "]"])
              | None => Failed tokens
              end
        | _ => Failed tokens
        end
      else if b =? OPCODE.OP_PUSHDATA4 then
        match unpack 4 (slice scr (s + 1) (s + 5)) with
        | Ok ld =>
            if asm then
              Next (s + (5 + 1 + ld))
                (tokens ++ ["OP_PUSHDATA4[" +:+ dec ld +:+ "]";
                            hex (slice scr (s + 5) (s + 5 + ld))])
            else
              match RAW_OPCODE b with
              | Some name =>
                  Next (s + (5 + 1 + ld))
                    (tokens ++ [name; "[" +:+ dec ld +:+ "]"])
              | None => Failed tokens
              end
        | _ => Failed tokens
        end
      else
        match RAW_OPCODE b with
        | Some name => Next (s + 1) (tokens ++ [name])
        | None => Failed tokens
        end
  | _ => Failed tokens
  end.

(** The [try: while ...] of lines 162-205: the final cursor, the token
    list, and whether the loop was left by an exception. *)
Fixpoint decode_loop (fuel : nat) (scr : bytes) (asm : bool) (s : Z)
    (tokens : list string) : result (Z * list string * bool) :=
  if len scr - s >? 0 then
    match fuel with
    | O => OutOfFuel
    | S fuel' =>
        match decode_turn scr asm s tokens with
        | Next s' tokens' => decode_loop fuel' scr asm s' tokens'
        | Failed tokens' => Ok (s, tokens', true)
        end
    end
  else Ok (s, tokens, false).

Definition decode_script (scr : bytes) (asm : bool) : result string :=
  let* r := decode_loop (length scr) scr asm 0 [] in
  match r with
  | (_, tokens, failed) =>
      Ok (String.concat " "
            (if failed : bool then tokens ++ [SCRIPT_DECODE_FAILED]
             else tokens))
  end.

(** The loop is left by the [except] clause. *)
Definition decode_fails (scr : bytes) (asm : bool) : Prop :=
  exists s tokens, decode_loop (length scr) scr asm 0 [] = Ok (s, tokens, true).

End Disassembler.

(** The cursors and token lists the disassembler goes through at the top
    of its loop. *)
Inductive decode_reaches (RAW_OPCODE : Z -> option string) (scr : bytes)
    (asm : bool) : Z -> list string -> Prop :=
| decode_reaches_init : decode_reaches RAW_OPCODE scr asm 0 []
| decode_reaches_step (s s' : Z) (tokens tokens' : list string) :
    decode_reaches RAW_OPCODE scr asm s tokens ->
    len scr - s > 0 ->
    decode_turn RAW_OPCODE scr asm s tokens = Next s' tokens' ->
    decode_reaches RAW_OPCODE scr asm s' tokens'.

(** A one-byte push followed by a PUSHDATA1 opcode without its length. *)
Definition script_cut_pushdata1 : bytes := [x01; xaa; x4c].

(** ** Push-data codec: [op_push_data] and [read_opcode] (lines 291-328) *)

(** The byte-string opcode constants [OP_PUSHDATA1], [OP_PUSHDATA2] and
    [OP_PUSHDATA4] come from [pybtc.opcodes], which is not part of the
    sources at hand.  They are [bytes] objects: [op_push_data] hands them to
    [b''.join], and line 15 formats [OP_CHECKSIG] with [%s] into a bytes
    literal. *)

(** Modelled from the spec: the constant [OP_PUSHDATA1] of [pybtc.opcodes],
    absent from the sources; the one byte of section 6. *)
Definition OP_PUSHDATA1 : bytes := [x4c].

(** Modelled from the spec: the constant [OP_PUSHDATA2] of [pybtc.opcodes],
    absent from the sources; the one byte of section 6. *)
Definition OP_PUSHDATA2 : bytes := [x4d].

(** Modelled from the spec: the constant [OP_PUSHDATA4] of [pybtc.opcodes],
    absent from the sources; the one byte of section 6. *)
Definition OP_PUSHDATA4 : bytes := [x4e].

(** The two kinds of Python values that meet in the comparisons of
    [read_opcode]. *)
Inductive pyval : Type :=
| PyInt (n : Z)
| PyBytes (b : bytes).

(** [x == y]: an int and a bytes object are never equal. *)
Definition py_eq (x y : pyval) : bool :=
  match x, y with
  | PyInt a, PyInt b => a =? b
  | PyBytes a, PyBytes b => bool_decide (a = b)
  | _, _ => false
  end.

(** [bytes([n])] *)
Definition bytes1 (n : Z) : result bytes :=
  if (0 <=? n) && (n <? 256) then Ok [byte_of_Z n]
  else Raise (ValueError "bytes must be in range(0, 256)").

(** [stream.read(n)] on an in-memory stream, given as the bytes that are
    still unread: the bytes read and the stream that is left. *)
Definition read (n : Z) (stream : bytes) : bytes * bytes :=
  (take (Z.to_nat n) stream, drop (Z.to_nat n) stream).

Section PushData.

(** [int_to_bytes(n, byteorder="little")] of [pybtc.functions.tools], which
    is not part of the sources at hand. *)
Variable int_to_bytes_little : Z -> bytes.

Definition op_push_data (data : bytes) : result bytes :=
  if len data <=? 0x4b then
    let* l := bytes1 (len data) in Ok (l ++ data)
  else if len data <=? 0xff then
    let* l := bytes1 (len data) in Ok (OP_PUSHDATA1 ++ l ++ data)
  else if len data <=? 0xffff then
    Ok (OP_PUSHDATA2 ++ int_to_bytes_little (len data) ++ data)
  else
    Ok (OP_PUSHDATA4 ++ int_to_bytes_little (len data) ++ data).

End PushData.

(** [read_opcode(stream)]: the pair returned, and the stream that is left.
    [unpack] applied to the int [read(2)[0]] raises [TypeError]. *)
Definition read_opcode (stream : bytes)
  : result (option bytes * option bytes * bytes) :=
  let '(b, stream) := read 1 stream in
  if len b =? 0 then Ok (None, None, stream)
  else
    let* b0 := getitem b 0 in
    if b0 <=? 0x4b then
      let '(d, stream) := read b0 stream in Ok (Some b, Some d, stream)
    else if py_eq (PyInt b0) (PyBytes OP_PUSHDATA1) then
      let '(x, stream) := read 1 stream in
      let* n := getitem x 0 in
      let '(d, stream) := read n stream in Ok (Some b, Some d, stream)
    else if py_eq (PyInt b0) (PyBytes OP_PUSHDATA2) then
      let '(x, stream) := read 2 stream in
      let* x0 := getitem x 0 in
      Raise TypeError
    else if py_eq (PyInt b0) (PyBytes OP_PUSHDATA4) then
      let '(x, stream) := read 4 stream in
      let* x0 := getitem x 0 in
      Raise TypeError
    else Ok (Some b, None, stream).

(** A payload of 76 bytes, the shortest that needs PUSHDATA1. *)
Definition payload_76 : bytes := replicate 76 x00.

(** ** Subscript remover: [delete_from_script] (lines 211-270) *)

(** The variables of the loop of line 233. *)
Record delete_state : Type := {
  d_s : Z;
  d_k : Z;
  d_stack : list Z;
  d_result : list bytes
}.

(** Lines 253-255: [t = 0; while t != s - k: t += stack.pop(0)]; popping
    from the empty list raises [IndexError]. *)
Fixpoint pop_until (target t : Z) (stack : list Z) : result (list Z) :=
  if negb (t =? target) then
    match stack with
    | [] => Raise IndexError
    | x :: stack' => pop_until target (t + x) stack'
    end
  else Ok stack.

(** The size the [if]/[elif] chain of lines 234-248 pushes on [stack] and
    adds to [s]. *)
Definition unit_size (scr : bytes) (s : Z) : result Z :=
  let* b := getitem scr s in
  if (b <? 0x4c) && truthy b then Ok (b + 1)
  else if b =? OPCODE.OP_PUSHDATA1 then
    let* x := getitem scr (s + 1) in Ok (1 + x)
  else if b =? OPCODE.OP_PUSHDATA2 then
    let* x := unpack 2 (slice scr s (s + 2)) in Ok (2 + x)
  else if b =? OPCODE.OP_PUSHDATA4 then
    let* x := unpack 4 (slice scr s (s + 4)) in Ok (4 + x)
  else Ok 1.

(** One turn of the loop of line 233. *)
Definition delete_turn (scr sub_script : bytes) (st : delete_state)
  : result delete_state :=
  let ls := len sub_script in
  let* size := unit_size scr (d_s st) in
  let stack := d_stack st ++ [size] in
  let s := d_s st + size in
  let k := d_k st in
  if s - k >=? ls then
    if bool_decide (slice_to (slice scr k s) ls = sub_script) then
      let result :=
        if s - k >? ls then d_result st ++ [slice scr (k + ls) s]
        else d_result st in
      let* stack' := pop_until (s - k) 0 stack in
      Ok {| d_s := s; d_k := s; d_stack := stack'; d_result := result |}
    else
      match stack with
      | [] => Raise IndexError
      | t :: stack' =>
          Ok {| d_s := s; d_k := k + t; d_stack := stack';
                d_result := d_result st ++ [slice scr k (k + t)] |}
      end
  else Ok {| d_s := s; d_k := k; d_stack := stack; d_result := d_result st |}.

Fixpoint delete_loop (fuel : nat) (scr sub_script : bytes)
    (st : delete_state) : result delete_state :=
  if len scr - d_s st >? 0 then
    match fuel with
    | O => OutOfFuel
    | S fuel' =>
        let* st' := delete_turn scr sub_script st in
        delete_loop fuel' scr sub_script st'
    end
  else Ok st.

(** [delete_from_script] on byte strings (the hex-string form only converts
    the arguments and the result). *)
Definition delete_from_script (scr sub_script : bytes) : result bytes :=
  match sub_script with
  | [] => Ok scr
  | _ :: _ =>
      let ls := len sub_script in
      let* st := delete_loop (length scr) scr sub_script
                   {| d_s := 0; d_k := 0; d_stack := []; d_result := [] |} in
      let s := d_s st in
      let k := d_k st in
      let result :=
        if bool_decide (slice_to (slice scr k s) ls = sub_script) then
          if s - k >? ls then d_result st ++ [slice scr (k + ls) s]
          else d_result st
        else d_result st ++ [slice scr k (k + ls)] in
      Ok (concat result)
  end.

(** Three one-byte opcodes [OP_1 OP_2 OP_3] followed by a push of the two
    bytes [aa bb]; the subscript [OP_1 OP_2] occurs once, at offset 0. *)
Definition script_with_prefix : bytes := [x51; x52; x53; x02; xaa; xbb].
Definition prefix_OP_1_OP_2 : bytes := [x51; x52].

(** [sub] occurs in [scr] at byte offset [i]. *)
Definition occurs_at (sub scr : bytes) (i : nat) : Prop :=
  take (length sub) (drop i scr) = sub.

(** ** The signature envelope, written out *)

(** The shortest big-endian encoding of a non-negative integer, as the
    format comment of the validator words it: at least one byte, the high
    bit of the first byte clear, and no null byte at the start unless the
    next byte has its high bit set. *)
Definition minimal_positive (x : bytes) : Prop :=
  match x with
  | [] => False
  | a :: rest =>
      byte_val a < 128 /\
      (byte_val a = 0 ->
       match rest with
       | [] => True
       | b :: _ => 128 <= byte_val b
       end)
  end.

(** [0x30 total-length 0x02 R-length R 0x02 S-length S sighash] *)
Definition signature_envelope (R S : bytes) (sighash : byte) : bytes :=
  [x30; byte_of_Z (len R + len S + 4); x02; byte_of_Z (len R)] ++ R ++
  [x02; byte_of_Z (len S)] ++ S ++ [sighash].

(** The checks of the validator, read off byte by byte. *)
Definition valid_fields (sig : bytes) (len_r len_s : Z) : Prop :=
  len sig = len_r + len_s + 7 /\ len sig <= 73 /\ 1 <= len_r /\ 1 <= len_s /\
  getitem sig 0 = Ok 0x30 /\ getitem sig 1 = Ok (len sig - 3) /\
  getitem sig 2 = Ok 0x02 /\ getitem sig 3 = Ok len_r /\
  (exists r0, getitem sig 4 = Ok r0 /\ r0 < 128 /\
     (1 < len_r -> r0 = 0 ->
      exists r1, getitem sig 5 = Ok r1 /\ 128 <= r1)) /\
  getitem sig (len_r + 4) = Ok 0x02 /\
  getitem sig (5 + len_r) = Ok len_s /\
  (exists s0, getitem sig (len_r + 6) = Ok s0 /\ s0 < 128 /\
     (1 < len_s -> s0 = 0 ->
      exists s1, getitem sig (len_r + 7) = Ok s1 /\ 128 <= s1)).

(** ** The tags of the classifier *)

(** The [type] string that goes with each [nType] in the dictionaries built
    by [parse_script]. *)
Definition nType_name (n : Z) : string :=
  match n with
  | 0 => "P2PKH"
  | 1 => "P2SH"
  | 2 => "PUBKEY"
  | 3 => "NULL_DATA"
  | 4 => "MULTISIG"
  | 5 => "P2WPKH"
  | 6 => "P2WSH"
  | 7 => "NON_STANDARD"
  | _ => "NULL_DATA_NON_STANDARD"
  end.

(** The dictionaries of the fixed-length templates. *)
Definition address_info (nt : Z) (rs : option Z) (h : bytes) : script_info :=
  {| nType := nt; type := nType_name nt; reqSigs := rs;
     addressHash := Some h; script := None; data := None; pubKeys := None |}.

(** The script [OP_m <key_1> ... <key_n> OP_n OP_CHECKMULTISIGVERIFY], which
    misses the bare multisig template by its last byte. *)
Definition multisig_verify (m : Z) (keys : list bytes) : bytes :=
  byte_of_Z (80 + m) :: concat (raw_push <$> keys)
    ++ [byte_of_Z (80 + Z.of_nat (length keys)); xaf].

(** ** The remaining script helpers *)

(** Modelled from the spec: the constant [OP_CHECKSIG] of [pybtc.opcodes],
    absent from the sources; the one byte of section 6 (a [bytes] object,
    line 15 formats it with [%s] into a bytes literal). *)
Definition OP_CHECKSIG : bytes := [xac].

(** [public_key_to_pubkey_script(key, hex)] (lines 13-16) for a key given
    as bytes: a hex string or a byte string, as [hex] says. *)
Definition public_key_to_pubkey_script (key : bytes) (as_hex : bool)
  : result (string + bytes) :=
  let* l := bytes1 (len key) in
  let s := l ++ key ++ OP_CHECKSIG in
  Ok (if as_hex then inl (hex s) else inr s).

(** Truth value of an optional bytes object ([None] and [b''] are false). *)
Definition bytes_truthy (o : option bytes) : bool :=
  match o with
  | Some (_ :: _) => true
  | _ => false
  end.

(** The loop of lines 307-310 of [get_multisig_public_keys]. *)
Fixpoint read_keys (fuel : nat) (stream : bytes) (o : option bytes)
    (pub_keys : list bytes) : result (list bytes) :=
  if bytes_truthy o then
    match fuel with
    | O => OutOfFuel
    | S fuel' =>
        let* r := read_opcode stream in
        match r with
        | (o', d, stream') =>
            read_keys fuel' stream' o'
              (match d with
               | Some (x :: k) => pub_keys ++ [x :: k]
               | _ => pub_keys
               end)
        end
    end
  else Ok pub_keys.

(** [get_multisig_public_keys(script)] (lines 303-311) on a byte string;
    the stream is the script itself. *)
Definition get_multisig_public_keys (scr : bytes) : result (list bytes) :=
  let* r := read_opcode scr in
  match r with
  | (o, _, stream) => read_keys (length scr) stream o []
  end.

Section Address.

(** [hash160] and [hash_to_address(hash, testnet, script_hash,
    witness_version)] are external collaborators. *)
Variable hash160 : bytes -> bytes.
Variable hash_to_address : bytes -> bool -> bool -> option Z -> string.

(** [script_to_address(script, testnet)] (lines 132-146). *)
Definition script_to_address (scr : bytes) (testnet : bool)
  : result (option string) :=
  let* d := parse_script hash160 scr true in
  match addressHash d with
  | Some h =>
      let witness_version :=
        if (nType d =? 5) || (nType d =? 6) then Some 0 else None in
      let script_hash := (nType d =? 1) || (nType d =? 6) in
      Ok (Some (hash_to_address h testnet script_hash witness_version))
  | None => Ok None
  end.

End Address.

(** ** Scripts made of one-byte opcodes *)

(** The byte is a unit of its own for the disassembler and for the
    subscript remover: not a raw push (1..75) and not PUSHDATA1/2/4. *)
Definition plain_opcode (x : byte) : Prop :=
  byte_val x = 0 \/ 0x4e < byte_val x.

(** Reference for the subscript remover: reading [scr] from the left,
    every occurrence of [sub] found at the cursor is skipped whole and the
    search goes on after it; any other byte is kept.  [skip] counts the
    bytes of an occurrence still to be skipped. *)
Fixpoint remove_skip (sub : bytes) (skip : nat) (scr : bytes) : bytes :=
  match scr with
  | [] => []
  | x :: rest =>
      match skip with
      | S n => remove_skip sub n rest
      | O =>
          if bool_decide (take (length sub) scr = sub)
          then remove_skip sub (length sub - 1) rest
          else x :: remove_skip sub 0 rest
      end
  end.

(** Removing the empty subscript changes nothing. *)
Definition remove_occurrences (sub scr : bytes) : bytes :=
  match sub with
  | [] => scr
  | _ :: _ => remove_skip sub 0 scr
  end.

(** What holds at the top of the loop of line 233 while the cursor is
    inside a run of one-byte opcodes: the window [script[k:s]] is shorter
    than the subscript, the stack holds one [1] per byte of the window, and
    the output so far, followed by what is left to do from [k], is the
    answer. *)
Definition delete_inv (scr sub : bytes) (st : delete_state) : Prop :=
  0 <= d_k st <= d_s st /\
  d_s st - d_k st < len sub /\
  d_stack st = replicate (Z.to_nat (d_s st - d_k st)) 1 /\
  concat (d_result st) ++ remove_skip sub 0 (drop (Z.to_nat (d_k st)) scr)
    = remove_skip sub 0 scr.

(** * Proofs *)

(** ** Arithmetic on the boolean tests *)

Ltac zbool :=
  repeat match goal with
  | H : (_ || _)%bool = false |- _ => apply orb_false_elim in H; destruct H
  | H : (_ && _)%bool = true |- _ => apply andb_true_iff in H; destruct H
  | H : negb _ = false |- _ => apply negb_false_iff in H
  | H : negb _ = true |- _ => apply negb_true_iff in H
  | H : (_ <? _) = true |- _ => apply Z.ltb_lt in H
  | H : (_ <? _) = false |- _ => apply Z.ltb_ge in H
  | H : (_ <=? _) = true |- _ => apply Z.leb_le in H
  | H : (_ <=? _) = false |- _ => apply Z.leb_gt in H
  | H : (_ >? _) = _ |- _ => rewrite Z.gtb_ltb in H
  | H : (_ >=? _) = _ |- _ => rewrite Z.geb_leb in H
  | H : (_ =? _) = true |- _ => apply Z.eqb_eq in H
  | H : (_ =? _) = false |- _ => apply Z.eqb_neq in H
  end.

Lemma byte_val_range (b : byte) : 0 <= byte_val b < 256.
Proof.
  unfold byte_val. pose proof (Byte.to_N_bounded b). lia.
Qed.

Lemma len_nonneg (b : bytes) : 0 <= len b.
Proof. unfold len. lia. Qed.

Lemma getitem_range (b : bytes) (i x : Z) :
  getitem b i = Ok x -> 0 <= x < 256.
Proof.
  unfold getitem. destruct (_ && _); [|discriminate].
  destruct (b !! _); [|discriminate].
  intros [= <-]. apply byte_val_range.
Qed.

Lemma getitem_nonneg (b : bytes) (i : Z) :
  0 <= i < len b ->
  exists x, b !! Z.to_nat i = Some x /\ getitem b i = Ok (byte_val x).
Proof.
  intros Hi. unfold getitem.
  destruct (i <? 0) eqn:E; zbool; [lia|].
  destruct ((0 <=? i) && (i <? len b))%bool eqn:E2.
  - destruct (b !! Z.to_nat i) as [x|] eqn:Hx; [eauto|].
    apply lookup_ge_None in Hx. unfold len in Hi. lia.
  - apply andb_false_iff in E2. destruct E2; zbool; lia.
Qed.

Lemma getitem_ok (b : bytes) (i : Z) :
  0 <= i < len b -> exists x, getitem b i = Ok x /\ 0 <= x < 256.
Proof.
  intros Hi. destruct (getitem_nonneg b i Hi) as (x & _ & Hx).
  exists (byte_val x). split; [exact Hx | apply byte_val_range].
Qed.

(** ** The signature validator and the decoder run the same checks *)

Ltac sig_step :=
  match goal with
  | |- context [getitem ?s ?i] =>
      let x := fresh "x" in
      let Hx := fresh "Hx" in
      let Hr := fresh "Hr" in
      destruct (getitem_ok s i) as (x & Hx & Hr);
      [zbool; lia | rewrite !Hx; cbn [bind and_then]]
  | |- context [if ?c then _ else _] =>
      destruct c eqn:?; cbn [bind and_then];
      try (left; split; reflexivity)
  end.

(** Both functions walk through the same guards: either the validator says
    [False] and the decoder raises, or the validator says [True] and the
    decoder returns the two slices taken with the R-length byte [sig[3]]. *)
Lemma parse_signature_agrees (sig : bytes) :
  (is_valid_signature_encoding sig = Ok false /\
   parse_signature sig = Raise invalid_signature) \/
  (is_valid_signature_encoding sig = Ok true /\
   exists len_r,
     getitem sig 3 = Ok len_r /\ 1 <= len_r /\ 5 + len_r < len sig /\
     parse_signature sig =
       Ok (slice sig 5 (4 + len_r), slice sig (len_r + 6) (-1))).
Proof.
  unfold is_valid_signature_encoding, parse_signature, and_then. cbv zeta.
  repeat sig_step.
  all: right; split; [reflexivity|]; eexists; split; [reflexivity|];
       zbool; repeat split; try lia; reflexivity.
Qed.

(** C9: the decoder raises its malformed-signature error exactly when the
    validator returns [False], and returns a pair exactly when the validator
    returns [True]; neither of them can fail in any other way. *)
Theorem parse_signature_iff_valid (sig : bytes) :
  (parse_signature sig = Raise invalid_signature <->
   is_valid_signature_encoding sig = Ok false) /\
  ((exists r s, parse_signature sig = Ok (r, s)) <->
   is_valid_signature_encoding sig = Ok true) /\
  (exists b, is_valid_signature_encoding sig = Ok b).
Proof.
  destruct (parse_signature_agrees sig)
    as [[Hv Hp] | [Hv (len_r & _ & _ & _ & Hp)]];
    rewrite Hv, Hp; repeat split; eauto; try discriminate.
  intros (r & s & [=]).
Qed.

Lemma getitem_lookup (b : bytes) (i v : Z) :
  0 <= i -> getitem b i = Ok v -> (byte_val <$> b) !! Z.to_nat i = Some v.
Proof.
  intros Hi. unfold getitem.
  replace (i <? 0) with false by (symmetry; apply Z.ltb_ge; lia).
  cbv zeta iota.
  destruct (_ && _); [|discriminate].
  rewrite list_lookup_fmap.
  destruct (b !! Z.to_nat i); [|discriminate].
  intros [= <-]. reflexivity.
Qed.

Lemma len_slice (b : bytes) (lo hi : Z) :
  0 <= lo <= hi -> hi <= len b -> len (slice b lo hi) = hi - lo.
Proof.
  intros H1 H2. unfold slice, clamp, len in *.
  destruct (lo <? 0) eqn:E1, (hi <? 0) eqn:E2; zbool; try lia.
  rewrite length_take, length_drop. lia.
Qed.

(** The decoder's first slice starts one byte too late: whatever signature
    the validator accepts, the returned [r] is one byte shorter than the
    R-length byte says, so the envelope rebuilt from [(r, s)] differs from
    the input at offset 3 already. *)
Lemma parse_signature_r_short (sig r s : bytes) (sighash : Z) :
  is_valid_signature_encoding sig = Ok true ->
  parse_signature sig = Ok (r, s) ->
  getitem sig 3 = Ok (len r + 1) /\
  encode_signature_spec r s sighash <> (byte_val <$> sig).
Proof.
  intros Hv Hp.
  destruct (parse_signature_agrees sig)
    as [[Hv' _] | [_ (len_r & H3 & Hge & Hlt & Hp')]]; [congruence|].
  rewrite Hp in Hp'. injection Hp' as -> ->.
  assert (Hr : len (slice sig 5 (4 + len_r)) = len_r - 1)
    by (rewrite len_slice; lia).
  split.
  - rewrite Hr, H3. f_equal. lia.
  - intros Heq.
    apply (getitem_lookup sig 3 len_r) in H3; [|lia].
    rewrite <- Heq in H3. cbn in H3. injection H3 as H3. lia.
Qed.

(** C1: on the smallest well-formed signature (accepted by the validator)
    the decoder returns an empty [r] and [s = 01]; the envelope rebuilt from
    that pair and the original sighash byte is one byte short and is not the
    input, so the round trip fails. *)
Theorem parse_signature_roundtrip_fails :
  is_valid_signature_encoding sig_min = Ok true /\
  parse_signature sig_min = Ok ([], [x01]) /\
  encode_signature_spec [] [x01] 1 = [0x30; 5; 0x02; 0; 0x02; 1; 1; 1] /\
  encode_signature_spec [] [x01] 1 <> (byte_val <$> sig_min).
Proof.
  repeat split; try reflexivity. discriminate.
Qed.

(** ** Indexing and unpacking never run out of fuel *)

Lemma getitem_cases (b : bytes) (i : Z) :
  (exists x, getitem b i = Ok x /\ 0 <= x < 256) \/
  getitem b i = Raise IndexError.
Proof.
  unfold getitem. destruct (_ && _); [|now right].
  destruct (b !! _) as [x|]; [left|now right].
  exists (byte_val x). split; [reflexivity | apply byte_val_range].
Qed.

Lemma getitem_neg (b : bytes) (i : Z) :
  - len b <= i < 0 -> exists x, getitem b i = Ok x /\ 0 <= x < 256.
Proof.
  intros Hi. destruct (getitem_cases b i) as [H|H]; [exact H|].
  exfalso. revert H. unfold getitem.
  replace (i <? 0) with true by (symmetry; apply Z.ltb_lt; lia).
  cbv zeta iota.
  replace ((0 <=? i + len b) && (i + len b <? len b))%bool with true.
  2:{ symmetry. apply andb_true_iff. split; [apply Z.leb_le | apply Z.ltb_lt]; lia. }
  destruct (b !! Z.to_nat (i + len b)) eqn:E; [discriminate|].
  apply lookup_ge_None in E. unfold len in *. lia.
Qed.

Lemma getitem_neg_eq (b : bytes) (i : Z) :
  - len b <= i < 0 -> getitem b i = getitem b (i + len b).
Proof.
  intros Hi. unfold getitem.
  replace (i <? 0) with true by (symmetry; apply Z.ltb_lt; lia).
  replace (i + len b <? 0) with false by (symmetry; apply Z.ltb_ge; lia).
  reflexivity.
Qed.

Lemma le_value_nonneg (b : bytes) : 0 <= le_value b.
Proof.
  induction b as [|x b IH]; cbn [le_value]; [lia|].
  pose proof (byte_val_range x). lia.
Qed.

Lemma unpack_cases (w : Z) (b : bytes) :
  (exists x, unpack w b = Ok x /\ 0 <= x) \/ unpack w b = Raise StructError.
Proof.
  unfold unpack. destruct (len b =? w); [left|now right].
  eexists. split; [reflexivity | apply le_value_nonneg].
Qed.

(** ** The generic walk: every turn succeeds and moves the cursor forward *)

Ltac split_ifs :=
  repeat match goal with
  | |- context [if ?c then _ else _] => destruct c eqn:?
  end.

Lemma walk_branch_ok (scr : bytes) (st : walk_state) :
  0 <= w_s st < len scr ->
  exists r, walk_branch scr st = Ok r /\
            forall st', r = Some st' -> w_s st <= w_s st'.
Proof.
  intros Hs. unfold walk_branch.
  destruct (getitem_ok scr (w_s st) Hs) as (b & -> & Hb). cbn [bind].
  destruct ((b >=? 81) && (b <=? 96))%bool.
  { split_ifs; eexists; (split; [reflexivity|]); intros ? [= <-]; cbn; lia. }
  destruct (b <? 76).
  { cbv zeta. split_ifs; eexists; (split; [reflexivity|]);
      intros ? [= <-]; cbn; lia. }
  destruct (b =? OPCODE.OP_PUSHDATA1).
  { destruct (getitem_cases scr (w_s st + 1)) as [(x & -> & Hx) | ->];
      cbn; eexists; (split; [reflexivity|]); intros ? [= <-]; cbn; lia. }
  destruct (b =? OPCODE.OP_PUSHDATA2).
  { destruct (unpack_cases 2 (slice scr (w_s st + 1) (w_s st + 3)))
      as [(x & -> & Hx) | ->];
      cbn; eexists; (split; [reflexivity|]); intros ? [= <-]; cbn; lia. }
  destruct (b =? OPCODE.OP_PUSHDATA4).
  { destruct (unpack_cases 4 (slice scr (w_s st + 1) (w_s st + 5)))
      as [(x & -> & Hx) | ->];
      cbn; eexists; (split; [reflexivity|]); intros ? [= <-]; cbn; lia. }
  eexists. split; [reflexivity|]. intros ? [= <-].
  split_ifs; cbn; lia.
Qed.

Lemma walk_finish_fields (st : walk_state) :
  w_s (walk_finish st) = w_s st + 1 /\
  w_m (walk_finish st) = w_m st /\
  w_n (walk_finish st) = w_n st /\
  w_req_sigs (walk_finish st) = w_req_sigs st.
Proof.
  unfold walk_finish. destruct (truthy (w_last st)); cbn; auto.
Qed.

Lemma walk_step_ok (scr : bytes) (st : walk_state) :
  0 <= w_s st < len scr ->
  exists r, walk_step scr st = Ok r /\
            match r with
            | Continue st' => w_s st < w_s st'
            | Break st' => st' = st
            end.
Proof.
  intros Hs. unfold walk_step.
  destruct (walk_branch_ok scr st Hs) as ([st1|] & -> & Hmono); cbn [bind].
  - specialize (Hmono st1 eq_refl).
    eexists. split; [reflexivity|].
    destruct (walk_finish_fields st1) as (-> & _). lia.
  - eexists. split; reflexivity.
Qed.

(** The loop returns a tally whenever the fuel covers the bytes that are
    left; [parse_script] passes the length of the script. *)
Lemma generic_walk_ok (scr : bytes) (fuel : nat) (st : walk_state) :
  0 <= w_s st -> len scr - w_s st <= Z.of_nat fuel ->
  exists r, generic_walk fuel scr st = Ok r.
Proof.
  revert st. induction fuel as [|fuel IH]; intros st Hs Hf; cbn [generic_walk].
  - destruct (len scr - w_s st >? 0) eqn:E; zbool; [lia|eauto].
  - destruct (len scr - w_s st >? 0) eqn:E; zbool; [|eauto].
    destruct (walk_step_ok scr st) as ([st'|st'] & -> & H); [lia| |];
      cbn [bind]; [|eauto].
    apply IH; lia.
Qed.

(** ** The templates of the classifier never raise *)

Lemma multisig_walk_ok (scr : bytes) (fuel : nat) (c s : Z) :
  0 <= s -> len scr - 2 - s <= Z.of_nat fuel ->
  exists r, multisig_walk fuel scr c s = Ok r.
Proof.
  revert c s. induction fuel as [|fuel IH]; intros c s Hs Hf;
    cbn [multisig_walk].
  - destruct (len scr - 2 - s >? 0) eqn:E; zbool; [lia|eauto].
  - destruct (len scr - 2 - s >? 0) eqn:E; zbool; [|eauto].
    destruct (getitem_ok scr s) as (b & -> & Hb); [lia|]. cbn [bind].
    destruct (b <? 76); [|eauto]. apply IH; lia.
Qed.

Lemma getitem_last_first (scr : bytes) :
  len scr = 1 -> getitem scr (-1) = getitem scr 0.
Proof.
  intros H. rewrite getitem_neg_eq by lia. f_equal. lia.
Qed.

Lemma multisig_template_ok (scr : bytes) :
  1 <= len scr ->
  exists r, multisig_template scr = Ok r /\
            forall d, r = Some d -> type d = "MULTISIG".
Proof.
  intros Hl. unfold multisig_template.
  destruct (getitem_ok scr 0) as (b0 & H0 & Hb0); [lia|].
  rewrite H0. cbn [bind].
  destruct ((b0 >=? 81) && (b0 <=? 96))%bool eqn:E0; [|eexists; split; [reflexivity|discriminate]].
  destruct (getitem_neg scr (-1)) as (e1 & H1 & He1); [lia|].
  rewrite H1. cbn [bind].
  destruct (e1 =? 174) eqn:E1; [|eexists; split; [reflexivity|discriminate]].
  assert (2 <= len scr).
  { destruct (Z.eq_dec (len scr) 1) as [Hone|]; [|lia].
    rewrite getitem_last_first in H1 by exact Hone. zbool. 
    rewrite H0 in H1. injection H1 as ->. lia. }
  destruct (getitem_neg scr (-2)) as (e2 & H2 & He2); [lia|].
  rewrite H2. cbn [bind].
  destruct ((e2 >=? 81) && (e2 <=? 96))%bool; [|eexists; split; [reflexivity|discriminate]].
  destruct (e2 >=? b0); [|eexists; split; [reflexivity|discriminate]].
  destruct (multisig_walk_ok scr (length scr) 0 1) as (c & ->);
    [lia | unfold len; lia |]. cbn [bind].
  destruct (c =? e2 - 80); eexists; (split; [reflexivity|]);
    [|discriminate]. now intros d [= <-].
Qed.

Lemma null_data_template_ok (scr : bytes) :
  1 <= len scr ->
  exists d, null_data_template scr = Ok d /\
            (type d = "NULL_DATA" \/ type d = "NULL_DATA_NON_STANDARD").
Proof.
  intros Hl. unfold null_data_template. cbv zeta.
  destruct (len scr =? 1) eqn:E; zbool; [eexists; split; [reflexivity|now left]|].
  destruct (getitem_ok scr 1) as (b1 & -> & Hb1); [lia|]. cbn [bind].
  destruct (b1 <? OPCODE.OP_PUSHDATA1).
  { destruct (b1 =? len scr - 2); eexists; (split; [reflexivity|]);
      [now left | now right]. }
  destruct (b1 =? OPCODE.OP_PUSHDATA1);
    [|eexists; split; [reflexivity|now right]].
  destruct (len scr >? 2) eqn:E2; zbool;
    [|eexists; split; [reflexivity|now right]].
  destruct (getitem_ok scr 2) as (b2 & -> & Hb2); [lia|]. cbn [bind].
  destruct (_ && _); eexists; (split; [reflexivity|]);
    [now left | now right].
Qed.

(** Result of the part of [parse_script] that follows the fixed-length
    templates: it never raises and yields one of four tags. *)
Lemma parse_script_tail_ok (scr : bytes) :
  1 <= len scr ->
  exists d, parse_script_tail scr = Ok d /\
            (type d = "NULL_DATA" \/ type d = "NULL_DATA_NON_STANDARD" \/
             type d = "MULTISIG" \/ type d = "NON_STANDARD").
Proof.
  intros Hl. unfold parse_script_tail.
  destruct (getitem_ok scr 0) as (b0 & -> & Hb0); [lia|]. cbn [bind].
  destruct (b0 =? OPCODE.OP_RETURN).
  { destruct (null_data_template_ok scr Hl) as (d & -> & [H|H]); eauto. }
  destruct (multisig_template_ok scr Hl) as ([d|] & -> & Hd); cbn [bind].
  { specialize (Hd d eq_refl). eauto 6. }
  destruct (generic_walk_ok scr (length scr) walk_init) as (r & ->);
    [cbn; lia | cbn; unfold len; lia |]. cbn [bind].
  eexists. split; [reflexivity|]. do 3 right. reflexivity.
Qed.

(** ** [parse_script] as a decision list *)

Section ClassifierFacts.

Variable hash160 : bytes -> bytes.

(** Once the first and the last byte are known to exist, the template
    tests of lines 38-54 are plain boolean tests. *)
Lemma parse_script_unfold (scr : bytes) (segwit : bool) (b0 e1 : Z) :
  getitem scr 0 = Ok b0 -> getitem scr (-1) = Ok e1 ->
  parse_script hash160 scr segwit =
    let l := len scr in
    if segwit && (l =? 22) && (b0 =? 0) then
      Ok (with_addressHash (info 5 "P2WPKH" (Some 1)) (slice_from scr 2))
    else if segwit && (l =? 34) && (b0 =? 0) then
      Ok (with_addressHash (info 6 "P2WSH" None) (slice_from scr 2))
    else if (l =? 25) && bool_decide (slice_to scr 2 = [x76; xa9])
            && bool_decide (slice_from scr (-2) = [x88; xac]) then
      Ok (with_addressHash (info 0 "P2PKH" (Some 1)) (slice scr 3 (-2)))
    else if (l =? 23) && (b0 =? 169) && (e1 =? 135) then
      Ok (with_addressHash (info 1 "P2SH" None) (slice scr 2 (-1)))
    else if ((l =? 67) || (l =? 35)) && (e1 =? 172) then
      Ok (with_addressHash (info 2 "PUBKEY" (Some 1))
            (hash160 (slice scr 1 (-1))))
    else parse_script_tail scr.
Proof.
  intros H0 H1. unfold parse_script.
  destruct scr as [|x scr']; [discriminate|].
  remember (x :: scr') as scr eqn:Hscr. clear Hscr.
  cbv zeta. rewrite H0, H1. unfold and_then. cbn [bind].
  destruct segwit; cbn [andb bind].
  1: destruct (len scr =? 22); cbn [andb bind];
    [destruct (b0 =? 0); [reflexivity|] |].
  1,2: destruct (len scr =? 34); cbn [andb bind];
    try (destruct (b0 =? 0); [reflexivity|]).
  all: destruct (len scr =? 25); cbn [andb];
    try (destruct (bool_decide (slice_to scr 2 = [x76; xa9])); cbn [andb];
         [destruct (bool_decide (slice_from scr (-2) = [x88; xac]));
          [reflexivity|] |]).
  all: destruct (len scr =? 23); cbn [andb bind];
    try (destruct (b0 =? 169); cbn [andb bind];
         [destruct (e1 =? 135); [reflexivity|] |]).
  all: destruct (len scr =? 67), (len scr =? 35); cbn [andb orb bind];
    try (destruct (e1 =? 172)); reflexivity.
Qed.

Lemma parse_script_ok (scr : bytes) (segwit : bool) :
  exists d, parse_script hash160 scr segwit = Ok d.
Proof.
  destruct scr as [|x scr']; [cbn; eauto|].
  remember (x :: scr') as scr eqn:Hscr.
  assert (Hl : 1 <= len scr) by (subst scr; unfold len; cbn; lia).
  clear Hscr.
  destruct (getitem_ok scr 0) as (b0 & H0 & _); [lia|].
  destruct (getitem_neg scr (-1)) as (e1 & H1 & _); [lia|].
  rewrite (parse_script_unfold scr segwit b0 e1 H0 H1). cbv zeta.
  split_ifs; eauto.
  destruct (parse_script_tail_ok scr Hl) as (d & -> & _). eauto.
Qed.

End ClassifierFacts.

(** ** Empty input and the P2PKH template *)

(** C7, the claim as stated fails: on the empty input the tag is
    [NON_STANDARD], the tag of the generic walk, and no [EMPTY] tag exists. *)
Lemma empty_script_not_EMPTY :
  exists d : script_info,
    (forall hash160 segwit, parse_script hash160 [] segwit = Ok d) /\
    type d = "NON_STANDARD" /\ type d <> "EMPTY".
Proof.
  eexists. split; [reflexivity|]. split; [reflexivity|discriminate].
Qed.

(** C7 (amended): on the empty input [parse_script] returns the
    [NON_STANDARD] classification (nType 7) with zero required signatures and
    an empty script echo. *)
Theorem empty_script_classification (hash160 : bytes -> bytes) (segwit : bool) :
  parse_script hash160 [] segwit =
    Ok {| nType := 7; type := "NON_STANDARD"; reqSigs := Some 0;
          addressHash := None; script := Some []; data := None;
          pubKeys := None |}.
Proof. reflexivity. Qed.

Tactic Notation "explode" ident(scr) integer(n) :=
  do n (destruct scr as [|? scr]; [discriminate|]);
  destruct scr; [|discriminate].

Lemma p2pkh_shape_iff (scr : bytes) :
  length scr = 25%nat ->
  (slice_to scr 2 = [x76; xa9] /\ slice_from scr (-2) = [x88; xac]) <->
  p2pkh_shape scr.
Proof.
  intros Hl. split.
  - explode scr 25. cbn. intros [[= -> ->] [= -> ->]].
    eexists _, [_; _; _; _; _; _; _; _; _; _; _; _; _; _; _; _; _; _; _; _].
    reflexivity.
  - intros (x & h & ->). rewrite !length_app in Hl. cbn in Hl.
    assert (Hh : length h = 20%nat) by lia. clear Hl.
    explode h 20. split; reflexivity.
Qed.

Lemma p2pkh_hash (x : byte) (h : bytes) :
  length h = 20%nat ->
  slice ([x76; xa9; x] ++ h ++ [x88; xac]) 3 (-2) = h.
Proof.
  intros Hh. explode h 20. reflexivity.
Qed.

(** C8, the claim as stated fails: a 25-byte script whose third byte is
    [0x00] instead of the push-20 opcode [0x14] is classified P2PKH all the
    same. *)
Lemma p2pkh_third_byte_unchecked :
  length p2pkh_odd = 25%nat /\
  ~ p2pkh_template_spec p2pkh_odd /\
  forall hash160 segwit,
    parse_script hash160 p2pkh_odd segwit =
      Ok {| nType := 0; type := "P2PKH"; reqSigs := Some 1;
            addressHash := Some (replicate 20 xff); script := None;
            data := None; pubKeys := None |}.
Proof.
  split; [reflexivity|]. split.
  - intros (h & _ & H). discriminate H.
  - intros hash160 [|]; reflexivity.
Qed.

(** C8 (amended): a 25-byte script is classified P2PKH exactly when its
    first two bytes are [OP_DUP OP_HASH160] and its last two bytes are
    [OP_EQUALVERIFY OP_CHECKSIG]; the third byte is not looked at.  The
    result then carries the 20 bytes at offsets 3..22 as address hash and one
    required signature. *)
Theorem p2pkh_classification (hash160 : bytes -> bytes) (scr : bytes)
    (segwit : bool) :
  length scr = 25%nat ->
  exists d, parse_script hash160 scr segwit = Ok d /\
    (type d = "P2PKH" <-> p2pkh_shape scr) /\
    (forall x h, scr = [x76; xa9; x] ++ h ++ [x88; xac] ->
       length h = 20%nat /\
       d = {| nType := 0; type := "P2PKH"; reqSigs := Some 1;
              addressHash := Some h; script := None; data := None;
              pubKeys := None |}).
Proof.
  intros Hlen.
  assert (Hl : len scr = 25) by (unfold len; lia).
  destruct (getitem_ok scr 0) as (b0 & H0 & _); [lia|].
  destruct (getitem_neg scr (-1)) as (e1 & H1 & _); [lia|].
  rewrite (parse_script_unfold hash160 scr segwit b0 e1 H0 H1).
  cbv zeta. rewrite Hl. cbn [Z.eqb Pos.eqb andb orb].
  rewrite !andb_false_r. cbn [andb].
  pose proof (p2pkh_shape_iff scr Hlen) as Hshape.
  destruct (bool_decide_reflect (slice_to scr 2 = [x76; xa9])) as [Ha|Ha];
    [destruct (bool_decide_reflect (slice_from scr (-2) = [x88; xac]))
       as [Hb|Hb] |]; cbn [andb].
  - eexists. split; [reflexivity|]. split; [tauto|].
    intros x h ->. rewrite !length_app in Hlen. cbn in Hlen.
    assert (Hh : length h = 20%nat) by lia.
    split; [exact Hh|]. rewrite p2pkh_hash by exact Hh. reflexivity.
  - destruct (parse_script_tail_ok scr) as (d & -> & Hty); [lia|].
    exists d. split; [reflexivity|].
    assert (Hns : ~ p2pkh_shape scr) by tauto.
    split; [|intros x h Hs; exfalso; apply Hns; do 2 eexists; exact Hs].
    split; [|tauto]. intros Hp. rewrite Hp in Hty.
    destruct Hty as [H|[H|[H|H]]]; discriminate H.
  - destruct (parse_script_tail_ok scr) as (d & -> & Hty); [lia|].
    exists d. split; [reflexivity|].
    assert (Hns : ~ p2pkh_shape scr) by tauto.
    split; [|intros x h Hs; exfalso; apply Hns; do 2 eexists; exact Hs].
    split; [|tauto]. intros Hp. rewrite Hp in Hty.
    destruct Hty as [H|[H|[H|H]]]; discriminate H.
Qed.

(** The P2PKH classification on a script that follows the template. *)
Lemma p2pkh_classification_witness :
  length ([x76; xa9; x14] ++ replicate 20 x07 ++ [x88; xac]) = 25%nat /\
  exists d,
    parse_script (fun b => b)
      ([x76; xa9; x14] ++ replicate 20 x07 ++ [x88; xac]) true = Ok d /\
    (type d = "P2PKH" <->
     p2pkh_shape ([x76; xa9; x14] ++ replicate 20 x07 ++ [x88; xac])) /\
    (forall x h,
       [x76; xa9; x14] ++ replicate 20 x07 ++ [x88; xac]
         = [x76; xa9; x] ++ h ++ [x88; xac] ->
       length h = 20%nat /\
       d = {| nType := 0; type := "P2PKH"; reqSigs := Some 1;
              addressHash := Some h; script := None; data := None;
              pubKeys := None |}).
Proof.
  split; [reflexivity|].
  apply (p2pkh_classification (fun b => b)
           ([x76; xa9; x14] ++ replicate 20 x07 ++ [x88; xac]) true).
  reflexivity.
Defined.

(** ** The generic walk: pushes *)

(** C6, the claim as stated fails: a PUSHDATA1 unit with a complete length
    field is stepped over, but the push count [m] stays what it was. *)
Lemma pushdata1_keeps_push_count :
  exists st',
    getitem [x4c; x01; xaa] (w_s walk_init + 1) = Ok 1 /\
    walk_step [x4c; x01; xaa] walk_init = Ok (Continue st') /\
    w_s st' = 3 /\
    w_m st' = w_m walk_init /\
    w_m st' <> w_m walk_init + 1.
Proof.
  eexists. split; [reflexivity|]. split; [reflexivity|].
  split; [reflexivity|]. split; [reflexivity|]. discriminate.
Qed.

(** C6 (amended): in the generic walk a raw push (opcode byte below 0x4c)
    increments [m] and is skipped as data, and when [m] then exceeds 16 the
    pair [(n, m)] is reset to [(0, 0)]; a PUSHDATA1/2/4 unit with a complete
    length field is skipped as data and leaves [n] and [m] untouched. *)
Theorem generic_walk_push_step (scr : bytes) (st : walk_state) (b : Z) :
  getitem scr (w_s st) = Ok b ->
  let last' :=
    if truthy (w_last st) then w_last st - 1 else w_last st in
  (b < 0x4c ->
   walk_step scr st =
     Ok (Continue
           {| w_s := w_s st + b + 1;
              w_m := if w_m st + 1 >? 16 then 0 else w_m st + 1;
              w_n := if w_m st + 1 >? 16 then 0 else w_n st;
              w_last := last';
              w_req_sigs := w_req_sigs st |})) /\
  (forall ld,
     b = 0x4c -> getitem scr (w_s st + 1) = Ok ld ->
     walk_step scr st =
       Ok (Continue
             {| w_s := w_s st + (1 + ld) + 1; w_m := w_m st; w_n := w_n st;
                w_last := last'; w_req_sigs := w_req_sigs st |})) /\
  (forall ld,
     b = 0x4d -> unpack 2 (slice scr (w_s st + 1) (w_s st + 3)) = Ok ld ->
     walk_step scr st =
       Ok (Continue
             {| w_s := w_s st + (2 + ld) + 1; w_m := w_m st; w_n := w_n st;
                w_last := last'; w_req_sigs := w_req_sigs st |})) /\
  (forall ld,
     b = 0x4e -> unpack 4 (slice scr (w_s st + 1) (w_s st + 5)) = Ok ld ->
     walk_step scr st =
       Ok (Continue
             {| w_s := w_s st + (4 + ld) + 1; w_m := w_m st; w_n := w_n st;
                w_last := last'; w_req_sigs := w_req_sigs st |})).
Proof.
  intros Hb last'. subst last'. unfold walk_step, walk_finish, walk_branch.
  rewrite Hb. cbn [bind]. repeat split.
  - intros Hlt.
    replace ((b >=? 81) && (b <=? 96))%bool with false
      by (symmetry; apply andb_false_iff; left; rewrite Z.geb_leb;
          apply Z.leb_gt; lia).
    replace (b <? 76) with true by (symmetry; apply Z.ltb_lt; lia).
    cbv zeta. cbn [w_m w_s w_n w_last w_req_sigs set_s set_nm].
    destruct (w_m st + 1 >? 16); cbn;
      destruct (truthy (w_last st)); cbn; do 2 f_equal; f_equal; lia.
  - intros ld -> Hld. cbn. rewrite Hld. cbn.
    destruct (truthy (w_last st)); reflexivity.
  - intros ld -> Hld. cbn. rewrite Hld. cbn.
    destruct (truthy (w_last st)); reflexivity.
  - intros ld -> Hld. cbn. rewrite Hld. cbn.
    destruct (truthy (w_last st)); reflexivity.
Qed.

(** A raw push of two bytes at the start of the walk, and a PUSHDATA1 unit
    with one byte of payload. *)
Lemma generic_walk_push_step_witness :
  walk_step [x02; xaa; xbb] walk_init =
    Ok (Continue {| w_s := 3; w_m := 1; w_n := 0; w_last := 0;
                    w_req_sigs := 0 |}) /\
  walk_step [x4c; x01; xaa] walk_init =
    Ok (Continue {| w_s := 3; w_m := 0; w_n := 0; w_last := 0;
                    w_req_sigs := 0 |}).
Proof.
  split.
  - apply (proj1 (generic_walk_push_step [x02; xaa; xbb] walk_init 2 eq_refl)).
    lia.
  - apply (proj1 (proj2
             (generic_walk_push_step [x4c; x01; xaa] walk_init 0x4c eq_refl)) 1);
      reflexivity.
Defined.

(** ** The generic walk: truncated pushes *)

Lemma generic_walk_done (scr : bytes) (fuel : nat) (st : walk_state) :
  len scr - w_s st <= 0 -> generic_walk fuel scr st = Ok (w_req_sigs st).
Proof.
  intros H. destruct fuel; cbn [generic_walk];
    (destruct (len scr - w_s st >? 0) eqn:E; zbool; [lia|reflexivity]).
Qed.

Lemma getitem_in_range (b : bytes) (i x : Z) :
  0 <= i -> getitem b i = Ok x -> i < len b.
Proof.
  intros Hi. unfold getitem.
  replace (i <? 0) with false by (symmetry; apply Z.ltb_ge; lia).
  cbv zeta iota.
  destruct ((0 <=? i) && (i <? len b))%bool eqn:E; [|discriminate].
  zbool. lia.
Qed.

(** A push that does not fit ends the walk at once, and the tally is the
    one accumulated so far. *)
Lemma generic_walk_truncated (scr : bytes) (fuel : nat) (st : walk_state) :
  0 <= w_s st ->
  truncated_push scr (w_s st) = true ->
  len scr - w_s st <= Z.of_nat fuel ->
  generic_walk fuel scr st = Ok (w_req_sigs st).
Proof.
  intros Hs Ht Hf. unfold truncated_push in Ht.
  destruct (getitem scr (w_s st)) as [b| |] eqn:Hb; try discriminate.
  pose proof (getitem_in_range _ _ _ Hs Hb) as Hin.
  pose proof (getitem_range _ _ _ Hb) as Hrange.
  destruct fuel as [|fuel]; [lia|]. cbn [generic_walk].
  replace (len scr - w_s st >? 0) with true
    by (symmetry; rewrite Z.gtb_ltb; apply Z.ltb_lt; lia).
  assert (Hend : forall st1,
            w_req_sigs st1 = w_req_sigs st -> len scr <= w_s st1 + 1 ->
            generic_walk fuel scr (walk_finish st1) = Ok (w_req_sigs st)).
  { intros st1 Hr Hl. destruct (walk_finish_fields st1) as (H1 & _ & _ & H4).
    rewrite generic_walk_done by lia. congruence. }
  unfold walk_step, walk_branch. rewrite Hb. cbn [bind].
  destruct (b <? 76) eqn:E1; zbool.
  { replace ((b >=? 81) && (b <=? 96))%bool with false
      by (symmetry; apply andb_false_iff; left; rewrite Z.geb_leb;
          apply Z.leb_gt; lia).
    cbv zeta. split_ifs; cbn [bind]; apply Hend; cbn; lia. }
  destruct (b =? OPCODE.OP_PUSHDATA1) eqn:E2; zbool.
  { subst b. cbn [Z.geb Z.leb Z.compare Pos.compare Pos.compare_cont andb].
    destruct (getitem scr (w_s st + 1)) as [ld| |] eqn:Hld;
      cbn [try_or_break bind]; try reflexivity.
    - zbool. apply Hend; cbn; lia.
    - destruct (getitem_cases scr (w_s st + 1)) as [(x & Hx & _)|Hx];
        congruence. }
  destruct (b =? OPCODE.OP_PUSHDATA2) eqn:E3; zbool.
  { subst b. cbn [Z.geb Z.leb Z.compare Pos.compare Pos.compare_cont andb].
    destruct (unpack 2 _) as [ld| |] eqn:Hld;
      cbn [try_or_break bind]; try reflexivity.
    - zbool. apply Hend; cbn; lia.
    - destruct (unpack_cases 2 (slice scr (w_s st + 1) (w_s st + 3)))
        as [(x & Hx & _)|Hx]; congruence. }
  destruct (b =? OPCODE.OP_PUSHDATA4) eqn:E4; zbool; [|discriminate].
  subst b. cbn [Z.geb Z.leb Z.compare Pos.compare Pos.compare_cont andb].
  destruct (unpack 4 _) as [ld| |] eqn:Hld;
    cbn [try_or_break bind]; try reflexivity.
  - zbool. apply Hend; cbn; lia.
  - destruct (unpack_cases 4 (slice scr (w_s st + 1) (w_s st + 5)))
      as [(x & Hx & _)|Hx]; congruence.
Qed.

(** The result of the loop does not depend on the fuel, as long as it covers
    the bytes that are left. *)
Lemma generic_walk_fuel (scr : bytes) (f1 f2 : nat) (st : walk_state) :
  0 <= w_s st ->
  len scr - w_s st <= Z.of_nat f1 -> len scr - w_s st <= Z.of_nat f2 ->
  generic_walk f1 scr st = generic_walk f2 scr st.
Proof.
  revert f2 st. induction f1 as [|f1 IH]; intros f2 st Hs H1 H2.
  - rewrite !generic_walk_done by lia. reflexivity.
  - destruct f2 as [|f2]; [rewrite !generic_walk_done by lia; reflexivity|].
    cbn [generic_walk].
    destruct (len scr - w_s st >? 0) eqn:E; zbool; [|reflexivity].
    destruct (walk_step_ok scr st) as ([st'|st'] & -> & H); [lia| |];
      cbn [bind]; [|reflexivity].
    apply IH; lia.
Qed.

Lemma generic_walk_step (scr : bytes) (fuel : nat) (st st' : walk_state) :
  len scr - w_s st > 0 -> walk_step scr st = Ok (Continue st') ->
  generic_walk (S fuel) scr st = generic_walk fuel scr st'.
Proof.
  intros Hmore Hstep. cbn [generic_walk].
  replace (len scr - w_s st >? 0) with true
    by (symmetry; rewrite Z.gtb_ltb; apply Z.ltb_lt; lia).
  rewrite Hstep. reflexivity.
Qed.

Lemma walk_reaches_run (scr : bytes) (st : walk_state) :
  walk_reaches scr st ->
  0 <= w_s st /\
  generic_walk (length scr) scr walk_init = generic_walk (length scr) scr st.
Proof.
  induction 1 as [|st st' Hreach [IHs IHrun] Hmore Hstep].
  - split; [cbn; lia | reflexivity].
  - destruct (walk_step_ok scr st) as (r & Hr & Hmono); [lia|].
    rewrite Hstep in Hr. injection Hr as <-.
    split; [lia|]. rewrite IHrun.
    rewrite (generic_walk_fuel scr (length scr) (S (length scr)) st)
      by (unfold len in *; lia).
    rewrite (generic_walk_step scr (length scr) st st' Hmore Hstep).
    reflexivity.
Qed.

Lemma parse_script_tail_non_standard (scr : bytes) (d : script_info) :
  1 <= len scr ->
  parse_script_tail scr = Ok d -> type d = "NON_STANDARD" ->
  exists r, generic_walk (length scr) scr walk_init = Ok r /\
            d = with_script (info 7 "NON_STANDARD" (Some r)) scr.
Proof.
  intros Hl. unfold parse_script_tail.
  destruct (getitem scr 0) as [b0| |]; cbn [bind]; try discriminate.
  destruct (b0 =? OPCODE.OP_RETURN).
  { destruct (null_data_template_ok scr Hl) as (d' & -> & [H|H]);
      intros [= <-] Hty; rewrite Hty in H; discriminate H. }
  destruct (multisig_template_ok scr Hl) as ([d'|] & -> & Hd); cbn [bind].
  { intros [= <-] Hty. rewrite (Hd d' eq_refl) in Hty. discriminate Hty. }
  destruct (generic_walk _ _ _) as [r| |]; cbn [bind]; try discriminate.
  intros [= <-] _. eauto.
Qed.

Section GenericPath.

Variable hash160 : bytes -> bytes.

(** A [NON_STANDARD] result on a non-empty script is the tally of the
    generic walk. *)
Lemma parse_script_non_standard (scr : bytes) (segwit : bool)
    (d : script_info) :
  1 <= len scr ->
  parse_script hash160 scr segwit = Ok d -> type d = "NON_STANDARD" ->
  exists r, generic_walk (length scr) scr walk_init = Ok r /\
            d = with_script (info 7 "NON_STANDARD" (Some r)) scr.
Proof.
  intros Hl.
  destruct (getitem_ok scr 0) as (b0 & H0 & _); [lia|].
  destruct (getitem_neg scr (-1)) as (e1 & H1 & _); [lia|].
  rewrite (parse_script_unfold hash160 scr segwit b0 e1 H0 H1). cbv zeta.
  split_ifs; try (intros [= <-] Hty; discriminate Hty).
  apply parse_script_tail_non_standard; exact Hl.
Qed.

(** C10: [parse_script] returns a classification for every input and
    never raises; in the generic walk a push that does not fit in the
    buffer (payload past the end, or PUSHDATA length field cut short) ends
    the loop and the tally accumulated so far is what the [NON_STANDARD]
    result carries. *)
Theorem parse_script_never_raises :
  (forall scr segwit, exists d, parse_script hash160 scr segwit = Ok d) /\
  (forall scr st (fuel : nat),
     0 <= w_s st -> truncated_push scr (w_s st) = true ->
     len scr - w_s st <= Z.of_nat fuel ->
     generic_walk fuel scr st = Ok (w_req_sigs st)) /\
  (forall scr segwit st d,
     walk_reaches scr st -> truncated_push scr (w_s st) = true ->
     parse_script hash160 scr segwit = Ok d ->
     type d = "NON_STANDARD" ->
     d = {| nType := 7; type := "NON_STANDARD";
            reqSigs := Some (w_req_sigs st); addressHash := None;
            script := Some scr; data := None; pubKeys := None |}).
Proof.
  split; [apply parse_script_ok|].
  split; [intros; now apply generic_walk_truncated|].
  intros scr segwit st d Hreach Ht Hp Hty.
  destruct (walk_reaches_run scr st Hreach) as [Hs Hrun].
  assert (Hl : 1 <= len scr).
  { unfold truncated_push in Ht.
    destruct (getitem scr (w_s st)) as [b| |] eqn:Hb; try discriminate.
    pose proof (getitem_in_range _ _ _ Hs Hb). lia. }
  destruct (parse_script_non_standard scr segwit d Hl Hp Hty)
    as (r & Hr & ->).
  rewrite Hrun, generic_walk_truncated in Hr;
    [| exact Hs | exact Ht | unfold len; lia].
  injection Hr as <-. reflexivity.
Qed.

End GenericPath.

(** [OP_CHECKSIG] followed by a push of five bytes of which one is there,
    and [OP_CHECKSIG] followed by a PUSHDATA2 whose length field is cut. *)
Lemma parse_script_never_raises_witness :
  generic_walk 2 [xac; x05; xaa]
    {| w_s := 1; w_m := 0; w_n := 0; w_last := 0; w_req_sigs := 1 |} = Ok 1 /\
  parse_script (fun b => b) [xac; x4d; x01] true =
    Ok {| nType := 7; type := "NON_STANDARD"; reqSigs := Some 1;
          addressHash := None; script := Some [xac; x4d; x01];
          data := None; pubKeys := None |}.
Proof.
  pose proof (parse_script_never_raises (fun b => b)) as (Htot & Hwalk & Hps).
  split.
  - apply (Hwalk [xac; x05; xaa]
             {| w_s := 1; w_m := 0; w_n := 0; w_last := 0;
                w_req_sigs := 1 |} 2%nat);
      [simpl; lia | reflexivity | unfold len; simpl; lia].
  - destruct (Htot [xac; x4d; x01] true) as (d & Hd).
    rewrite Hd. f_equal.
    apply (Hps [xac; x4d; x01] true
             {| w_s := 1; w_m := 0; w_n := 0; w_last := 0;
                w_req_sigs := 1 |} d).
    + apply (reaches_step _ walk_init);
        [constructor | unfold len; simpl; lia | reflexivity].
    + reflexivity.
    + exact Hd.
    + revert Hd. vm_compute. now intros [= <-].
Defined.

(** ** The bare multisig template *)

Lemma interior_pushes_det (scr : bytes) (s c1 c2 : Z) :
  interior_pushes scr s c1 -> interior_pushes scr s c2 -> c1 = c2.
Proof.
  intros H1. revert c2.
  induction H1 as [s Hs | s b c Hs Hb Hlt _ IH]; intros c2 H2.
  - inversion H2; [reflexivity | lia].
  - inversion H2 as [|s' b' c' Hs' Hb' Hlt' Hrest]; subst; [lia|].
    rewrite Hb in Hb'. injection Hb' as <-.
    f_equal. now apply IH.
Qed.

Lemma interior_pushes_nonneg (scr : bytes) (s c : Z) :
  interior_pushes scr s c -> 0 <= c.
Proof. induction 1; lia. Qed.

(** The loop computes the count of the relation, or 0 when a byte that is
    not a raw push is met. *)
Lemma multisig_walk_spec (scr : bytes) (fuel : nat) (c s : Z) :
  0 <= s -> len scr - 2 - s <= Z.of_nat fuel ->
  (exists k, interior_pushes scr s k /\
             multisig_walk fuel scr c s = Ok (c + k)) \/
  ((forall k, ~ interior_pushes scr s k) /\
   multisig_walk fuel scr c s = Ok 0).
Proof.
  revert c s. induction fuel as [|fuel IH]; intros c s Hs Hf;
    cbn [multisig_walk].
  - destruct (len scr - 2 - s >? 0) eqn:E; zbool; [lia|].
    left. exists 0. split; [now constructor | f_equal; lia].
  - destruct (len scr - 2 - s >? 0) eqn:E; zbool.
    2:{ left. exists 0. split; [now constructor | f_equal; lia]. }
    destruct (getitem_ok scr s) as (b & Hb & Hr); [lia|].
    rewrite Hb. cbn [bind].
    destruct (b <? 76) eqn:Eb; zbool.
    + destruct (IH (c + 1) (s + b + 1)) as [(k & Hk & Hw) | (Hno & Hw)];
        [lia | lia | |].
      * left. exists (k + 1). split; [econstructor; eauto; lia|].
        rewrite Hw. f_equal. lia.
      * right. split; [|exact Hw].
        intros k Hk. inversion Hk as [|s' b' c' Hs' Hb' Hlt' Hrest]; subst;
          [lia|].
        rewrite Hb in Hb'. injection Hb' as <-. now apply (Hno c').
    + right. split; [|reflexivity].
      intros k Hk. inversion Hk as [|s' b' c' Hs' Hb' Hlt' Hrest]; subst;
        [lia|].
      rewrite Hb in Hb'. injection Hb' as <-. lia.
Qed.

Lemma multisig_template_complete (scr : bytes) (m n : Z) :
  multisig_shape scr m n ->
  multisig_template scr = Ok (Some (multisig_info scr m n)).
Proof.
  intros (H0 & Hm & H1 & H2 & Hn & Hwalk). unfold multisig_template.
  rewrite H0. cbn [bind].
  replace ((80 + m >=? 81) && (80 + m <=? 96))%bool with true
    by (symmetry; apply andb_true_iff; rewrite Z.geb_leb;
        split; apply Z.leb_le; lia).
  rewrite H1. cbn [bind]. cbn [Z.eqb Pos.eqb].
  rewrite H2. cbn [bind].
  replace ((80 + n >=? 81) && (80 + n <=? 96))%bool with true
    by (symmetry; apply andb_true_iff; rewrite Z.geb_leb;
        split; apply Z.leb_le; lia).
  replace (80 + n >=? 80 + m) with true
    by (symmetry; rewrite Z.geb_leb; apply Z.leb_le; lia).
  destruct (multisig_walk_spec scr (length scr) 0 1)
    as [(k & Hk & ->) | (Hno & _)];
    [lia | unfold len; lia | | now destruct (Hno n)].
  rewrite (interior_pushes_det _ _ _ _ Hk Hwalk). cbn [bind].
  replace (0 + n =? 80 + n - 80) with true
    by (symmetry; apply Z.eqb_eq; lia).
  unfold multisig_info, with_script, with_pubKeys, info. cbn.
  do 3 f_equal; f_equal; lia.
Qed.

Lemma multisig_template_sound (scr : bytes) (d : script_info) :
  multisig_template scr = Ok (Some d) ->
  exists m n, multisig_shape scr m n /\ d = multisig_info scr m n.
Proof.
  unfold multisig_template.
  destruct (getitem scr 0) as [b0| |] eqn:H0; cbn [bind]; try discriminate.
  destruct ((b0 >=? 81) && (b0 <=? 96))%bool eqn:E0; [|discriminate].
  destruct (getitem scr (-1)) as [e1| |] eqn:H1; cbn [bind];
    try discriminate.
  destruct (e1 =? 174) eqn:E1; [|discriminate].
  destruct (getitem scr (-2)) as [e2| |] eqn:H2; cbn [bind];
    try discriminate.
  destruct ((e2 >=? 81) && (e2 <=? 96))%bool eqn:E2; [|discriminate].
  destruct (e2 >=? b0) eqn:E3; [|discriminate].
  zbool.
  destruct (multisig_walk_spec scr (length scr) 0 1)
    as [(k & Hk & ->) | (Hno & ->)]; [lia | unfold len; lia | |];
    cbn [bind].
  - destruct (0 + k =? e2 - 80) eqn:E4; [|discriminate]. zbool.
    intros [= <-]. exists (b0 - 80), (e2 - 80).
    split.
    + unfold multisig_shape.
      replace (80 + (b0 - 80)) with b0 by lia.
      replace (80 + (e2 - 80)) with e2 by lia.
      replace (e2 - 80) with k by lia. subst e1.
      repeat split; try assumption; lia.
    + unfold multisig_info, with_script, with_pubKeys, info. cbn.
      do 3 f_equal; f_equal; lia.
  - destruct (0 =? e2 - 80) eqn:E4; [|discriminate]. zbool. lia.
Qed.

Lemma slice_to_nonneg (b : bytes) (hi : Z) :
  0 <= hi -> slice_to b hi = take (Z.to_nat hi) b.
Proof.
  intros H. unfold slice_to, clamp.
  replace (hi <? 0) with false by (symmetry; apply Z.ltb_ge; lia).
  destruct (Z.le_gt_cases hi (len b)).
  - now rewrite Z.min_l.
  - rewrite Z.min_r by lia. unfold len in *.
    rewrite !take_ge by lia. reflexivity.
Qed.

Lemma getitem_head (x : byte) (l : bytes) :
  getitem (x :: l) 0 = Ok (byte_val x).
Proof.
  destruct (getitem_nonneg (x :: l) 0) as (y & Hy & ->).
  - unfold len. cbn [length]. lia.
  - now injection Hy as ->.
Qed.

Lemma p2pkh_prefix_first (scr : bytes) (b0 : Z) :
  slice_to scr 2 = [x76; xa9] -> getitem scr 0 = Ok b0 -> b0 = 118.
Proof.
  rewrite slice_to_nonneg by lia.
  destruct scr as [|x scr]; [discriminate|].
  rewrite getitem_head. intros [= -> _] [= <-]. reflexivity.
Qed.

Section MultisigClassification.

Variable hash160 : bytes -> bytes.

Lemma parse_script_multisig_complete (scr : bytes) (segwit : bool)
    (m n : Z) :
  multisig_shape scr m n ->
  parse_script hash160 scr segwit = Ok (multisig_info scr m n).
Proof.
  intros Hshape. pose proof Hshape as (H0 & Hm & H1 & _).
  rewrite (parse_script_unfold hash160 scr segwit _ _ H0 H1). cbv zeta.
  replace (80 + m =? 0) with false by (symmetry; apply Z.eqb_neq; lia).
  replace (80 + m =? 169) with false by (symmetry; apply Z.eqb_neq; lia).
  cbn [Z.eqb Pos.eqb]. rewrite !andb_false_r.
  destruct (bool_decide_reflect (slice_to scr 2 = [x76; xa9])) as [Ha|Ha].
  { pose proof (p2pkh_prefix_first scr _ Ha H0). lia. }
  rewrite !andb_false_r. cbn [andb].
  unfold parse_script_tail. rewrite H0. cbn [bind].
  replace (80 + m =? OPCODE.OP_RETURN) with false
    by (symmetry; apply Z.eqb_neq; unfold OPCODE.OP_RETURN; lia).
  rewrite (multisig_template_complete scr m n Hshape). reflexivity.
Qed.

Lemma parse_script_multisig_sound (scr : bytes) (segwit : bool)
    (d : script_info) :
  parse_script hash160 scr segwit = Ok d -> type d = "MULTISIG" ->
  exists m n, multisig_shape scr m n /\ d = multisig_info scr m n.
Proof.
  destruct scr as [|x scr']; [intros [= <-]; discriminate|].
  remember (x :: scr') as scr eqn:Hscr.
  assert (Hl : 1 <= len scr) by (subst scr; unfold len; cbn; lia).
  clear Hscr.
  destruct (getitem_ok scr 0) as (b0 & H0 & _); [lia|].
  destruct (getitem_neg scr (-1)) as (e1 & H1 & _); [lia|].
  rewrite (parse_script_unfold hash160 scr segwit b0 e1 H0 H1). cbv zeta.
  split_ifs; try (intros [= <-] Hty; discriminate Hty).
  unfold parse_script_tail. rewrite H0. cbn [bind].
  destruct (b0 =? OPCODE.OP_RETURN).
  { destruct (null_data_template_ok scr Hl) as (d' & -> & [H|H]);
      intros [= <-] Hty; rewrite Hty in H; discriminate H. }
  destruct (multisig_template scr) as [[d'|]| |] eqn:Hms; cbn [bind];
    try discriminate.
  - intros [= <-] _. now apply multisig_template_sound.
  - destruct (generic_walk _ _ _); cbn [bind]; try discriminate.
    intros [= <-] Hty. discriminate Hty.
Qed.

(** A script whose first byte is a small integer but which misses the
    template is handed to the generic walk. *)
Lemma parse_script_tail_fallthrough (scr : bytes) (b0 : Z) :
  getitem scr 0 = Ok b0 -> 81 <= b0 <= 96 ->
  (forall m n, ~ multisig_shape scr m n) ->
  exists r, generic_walk (length scr) scr walk_init = Ok r /\
    parse_script_tail scr =
      Ok {| nType := 7; type := "NON_STANDARD"; reqSigs := Some r;
            addressHash := None; script := Some scr; data := None;
            pubKeys := None |}.
Proof.
  intros H0 Hb0 Hno.
  assert (Hl : 1 <= len scr)
    by (pose proof (getitem_in_range scr 0 b0 ltac:(lia) H0); lia).
  unfold parse_script_tail. rewrite H0. cbn [bind].
  replace (b0 =? OPCODE.OP_RETURN) with false
    by (symmetry; apply Z.eqb_neq; unfold OPCODE.OP_RETURN; lia).
  destruct (multisig_template_ok scr Hl) as ([d|] & Hms & _).
  { destruct (multisig_template_sound scr d Hms) as (m & n & Hs & _).
    now destruct (Hno m n). }
  rewrite Hms. cbn [bind].
  destruct (generic_walk_ok scr (length scr) walk_init) as (r & Hr);
    [cbn; lia | cbn; unfold len; lia |].
  exists r. rewrite Hr. split; reflexivity.
Qed.

(** On a script whose first byte is a small integer, the tests of lines
    38-50 all fail; the PUBKEY test of lines 51-54 is the only one left in
    front of the templates of lines 55-129. *)
Lemma parse_script_small_integer (scr : bytes) (segwit : bool) (b0 e1 : Z) :
  getitem scr 0 = Ok b0 -> getitem scr (-1) = Ok e1 -> 81 <= b0 <= 96 ->
  parse_script hash160 scr segwit =
    if ((len scr =? 67) || (len scr =? 35)) && (e1 =? 172) then
      Ok (with_addressHash (info 2 "PUBKEY" (Some 1))
            (hash160 (slice scr 1 (-1))))
    else parse_script_tail scr.
Proof.
  intros H0 H1 Hb0.
  rewrite (parse_script_unfold hash160 scr segwit b0 e1 H0 H1). cbv zeta.
  replace (b0 =? 0) with false by (symmetry; apply Z.eqb_neq; lia).
  replace (b0 =? 169) with false by (symmetry; apply Z.eqb_neq; lia).
  rewrite !andb_false_r.
  destruct (bool_decide_reflect (slice_to scr 2 = [x76; xa9])) as [Ha|Ha].
  { pose proof (p2pkh_prefix_first scr _ Ha H0). lia. }
  rewrite !andb_false_r. cbn [andb]. reflexivity.
Qed.

End MultisigClassification.

(** ** Scripts built from raw pushes match the template *)

Lemma byte_val_of_Z (z : Z) : 0 <= z < 256 -> byte_val (byte_of_Z z) = z.
Proof.
  intros Hz. unfold byte_of_Z, byte_val.
  destruct (Byte.of_N (Z.to_N z)) as [b|] eqn:E.
  - apply Byte.to_of_N in E. lia.
  - apply Byte.of_N_None_iff in E. lia.
Qed.

Lemma len_app (a b : bytes) : len (a ++ b) = len a + len b.
Proof. unfold len. rewrite length_app. lia. Qed.

Lemma getitem_middle (pre post : bytes) (x : byte) :
  getitem (pre ++ x :: post) (len pre) = Ok (byte_val x).
Proof.
  destruct (getitem_nonneg (pre ++ x :: post) (len pre)) as (y & Hy & ->).
  - rewrite len_app. unfold len. cbn [length]. lia.
  - unfold len in Hy. rewrite Nat2Z.id, list_lookup_middle in Hy by done.
    now injection Hy as ->.
Qed.

Lemma getitem_last (l : bytes) (a b : byte) :
  getitem (l ++ [a; b]) (-1) = Ok (byte_val b) /\
  getitem (l ++ [a; b]) (-2) = Ok (byte_val a).
Proof.
  assert (Hlen : len (l ++ [a; b]) = len l + 2)
    by (rewrite len_app; reflexivity).
  pose proof (len_nonneg l) as Hl.
  split; rewrite getitem_neg_eq by lia; rewrite Hlen.
  - replace (-1 + (len l + 2)) with (len (l ++ [a])).
    + change (l ++ [a; b]) with (l ++ [a] ++ [b]). rewrite app_assoc.
      apply getitem_middle.
    + rewrite len_app. unfold len. cbn [length]. lia.
  - replace (-2 + (len l + 2)) with (len l) by lia.
    apply getitem_middle.
Qed.

Lemma interior_pushes_keys (pre : bytes) (keys : list bytes) (a b : byte) :
  Forall (fun k => len k <= 75) keys ->
  interior_pushes (pre ++ concat (raw_push <$> keys) ++ [a; b])
    (len pre) (Z.of_nat (length keys)).
Proof.
  intros Hkeys. revert pre.
  induction Hkeys as [|k keys Hk _ IH]; intros pre.
  - apply interior_end. rewrite len_app. cbn. unfold len. cbn. lia.
  - cbn [fmap list_fmap concat length].
    replace (Z.of_nat (S (length keys))) with (Z.of_nat (length keys) + 1)
      by lia.
    pose proof (len_nonneg k) as Hk0.
    apply (interior_push _ _ (len k)).
    + rewrite !len_app. unfold raw_push.
      pose proof (len_nonneg (concat (raw_push <$> keys))).
      unfold len in *. cbn [length]. lia.
    + unfold raw_push. cbn [app].
      rewrite getitem_middle, byte_val_of_Z by lia. reflexivity.
    + lia.
    + specialize (IH (pre ++ raw_push k)).
      rewrite <- !app_assoc in IH.
      replace (len (pre ++ raw_push k)) with (len pre + len k + 1) in IH.
      * rewrite <- app_assoc. exact IH.
      * rewrite len_app. unfold raw_push, len. cbn [length]. lia.
Qed.

Lemma bare_multisig_shape (m : Z) (keys : list bytes) :
  1 <= m <= Z.of_nat (length keys) -> Z.of_nat (length keys) <= 16 ->
  Forall (fun k => len k <= 75) keys ->
  multisig_shape (bare_multisig m keys) m (Z.of_nat (length keys)).
Proof.
  intros Hm Hn Hkeys. unfold multisig_shape, bare_multisig.
  split; [rewrite getitem_head, byte_val_of_Z by lia; reflexivity|].
  split; [lia|].
  rewrite app_comm_cons.
  destruct (getitem_last (byte_of_Z (80 + m) :: concat (raw_push <$> keys))
              (byte_of_Z (80 + Z.of_nat (length keys))) xae) as [-> ->].
  split; [reflexivity|].
  split; [rewrite byte_val_of_Z by lia; reflexivity|].
  split; [lia|].
  apply (interior_pushes_keys [byte_of_Z (80 + m)] keys). exact Hkeys.
Qed.

(** C4, the claim as stated fails: [OP_1 OP_0 OP_1 OP_CHECKMULTISIG] is
    classified 1-of-1 MULTISIG although its only interior unit is a
    zero-length push, which the template of the claim excludes. *)
Lemma zero_length_push_counts_as_key :
  (forall hash160 segwit,
     parse_script hash160 multisig_zero_push segwit =
       Ok {| nType := 4; type := "MULTISIG"; reqSigs := Some 1;
             addressHash := None; script := Some multisig_zero_push;
             data := None; pubKeys := Some 1 |}) /\
  ~ (exists m n, multisig_template_spec multisig_zero_push m n).
Proof.
  split; [intros hash160 [|]; reflexivity|].
  intros (m & n & keys & Hscr & Hn & Hm & Hmn & Hkeys).
  destruct keys as [|k keys]; [cbn in Hn; lia|].
  apply Forall_cons in Hkeys as [Hk _].
  apply (f_equal (@length byte)) in Hscr.
  unfold bare_multisig, raw_push in Hscr.
  cbn [fmap list_fmap concat length app] in Hscr.
  rewrite !length_app in Hscr. cbn [length] in Hscr.
  unfold len in Hk. unfold multisig_zero_push in Hscr. cbn [length] in Hscr.
  lia.
Qed.

(** C4 (amended): [parse_script] classifies a script as MULTISIG with
    [reqSigs = m] and [pubKeys = n] exactly when the first byte is the
    small-integer opcode of [m], the last byte is OP_CHECKMULTISIG, the byte
    before it is the small-integer opcode of [n >= m], and the interior walk
    from offset 1 meets only opcode bytes below 0x4c and counts [n] of them
    before reaching the last two bytes (a zero byte counts as a push, and
    the last push may run over the two trailing bytes).  Every script
    [OP_m <n non-empty raw pushes> OP_n OP_CHECKMULTISIG] with
    [1 <= m <= n <= 16], the 2-of-3 script among them, is so classified.  A
    script starting with a small integer that misses the template is
    answered PUBKEY when it has 35 or 67 bytes and ends with OP_CHECKSIG
    (0xac), the test of lines 51-54 coming first; otherwise [parse_script]
    hands it to the generic walk and answers NON_STANDARD with the tally of
    that walk. *)
Theorem multisig_classification (hash160 : bytes -> bytes) (scr : bytes)
    (segwit : bool) :
  exists d, parse_script hash160 scr segwit = Ok d /\
    (type d = "MULTISIG" <-> exists m n, multisig_shape scr m n) /\
    (forall m n, multisig_shape scr m n ->
       d = {| nType := 4; type := "MULTISIG"; reqSigs := Some m;
              addressHash := None; script := Some scr; data := None;
              pubKeys := Some n |}) /\
    (forall m keys,
       scr = bare_multisig m keys ->
       1 <= m <= Z.of_nat (length keys) -> Z.of_nat (length keys) <= 16 ->
       Forall (fun k => 1 <= len k <= 75) keys ->
       d = {| nType := 4; type := "MULTISIG"; reqSigs := Some m;
              addressHash := None; script := Some scr; data := None;
              pubKeys := Some (Z.of_nat (length keys)) |}) /\
    (forall b0,
       getitem scr 0 = Ok b0 -> 81 <= b0 <= 96 ->
       (forall m n, ~ multisig_shape scr m n) ->
       ~ ((len scr = 35 \/ len scr = 67) /\ getitem scr (-1) = Ok 172) ->
       exists r, generic_walk (length scr) scr walk_init = Ok r /\
         d = {| nType := 7; type := "NON_STANDARD"; reqSigs := Some r;
                addressHash := None; script := Some scr; data := None;
                pubKeys := None |}) /\
    (forall b0,
       getitem scr 0 = Ok b0 -> 81 <= b0 <= 96 ->
       len scr = 35 \/ len scr = 67 -> getitem scr (-1) = Ok 172 ->
       d = {| nType := 2; type := "PUBKEY"; reqSigs := Some 1;
              addressHash := Some (hash160 (slice scr 1 (-1)));
              script := None; data := None; pubKeys := None |}).
Proof.
  destruct (parse_script_ok hash160 scr segwit) as (d & Hd).
  exists d. split; [exact Hd|].
  assert (Hshape : forall m n, multisig_shape scr m n ->
                                d = multisig_info scr m n).
  { intros m n Hs.
    rewrite (parse_script_multisig_complete hash160 scr segwit m n Hs) in Hd.
    now injection Hd. }
  split; [split|split; [exact Hshape|split; [|split]]].
  - intros Hty.
    destruct (parse_script_multisig_sound hash160 scr segwit d Hd Hty)
      as (m & n & Hs & _). eauto.
  - intros (m & n & Hs). now rewrite (Hshape m n Hs).
  - intros m keys -> Hm Hn Hkeys. apply Hshape.
    apply bare_multisig_shape; [exact Hm | exact Hn |].
    eapply Forall_impl; [exact Hkeys|]. cbn. intros k Hk. lia.
  - intros b0 H0 Hb0 Hno Hpub.
    assert (Hl : 1 <= len scr)
      by (pose proof (getitem_in_range scr 0 b0 ltac:(lia) H0); lia).
    destruct (getitem_neg scr (-1)) as (e1 & H1 & _); [lia|].
    rewrite (parse_script_small_integer hash160 scr segwit b0 e1 H0 H1 Hb0)
      in Hd.
    destruct (((len scr =? 67) || (len scr =? 35)) && (e1 =? 172))%bool
      eqn:E.
    { exfalso. apply Hpub. apply andb_true_iff in E as [E1 E2].
      apply orb_true_iff in E1. apply Z.eqb_eq in E2. subst e1.
      split; [|exact H1]. destruct E1 as [E1|E1]; apply Z.eqb_eq in E1; lia. }
    destruct (parse_script_tail_fallthrough scr b0 H0 Hb0 Hno)
      as (r & Hr & Htail).
    exists r. split; [exact Hr|]. rewrite Htail in Hd. now injection Hd.
  - intros b0 H0 Hb0 Hlen H1.
    rewrite (parse_script_small_integer hash160 scr segwit b0 172 H0 H1 Hb0)
      in Hd.
    replace ((len scr =? 67) || (len scr =? 35))%bool with true in Hd
      by (symmetry; apply orb_true_iff;
          destruct Hlen; [right | left]; apply Z.eqb_eq; lia).
    cbn in Hd. now injection Hd.
Qed.

(** The 2-of-3 script of the specification. *)
Lemma multisig_classification_witness :
  parse_script (fun b => b) multisig_2_of_3 true =
    Ok {| nType := 4; type := "MULTISIG"; reqSigs := Some 2;
          addressHash := None; script := Some multisig_2_of_3;
          data := None; pubKeys := Some 3 |}.
Proof.
  destruct (multisig_classification (fun b => b) multisig_2_of_3 true)
    as (d & Hd & _ & _ & Hkeys & _).
  rewrite Hd. f_equal.
  apply (Hkeys 2 keys_2_of_3 eq_refl); [simpl; lia | simpl; lia |].
  unfold keys_2_of_3.
  repeat (apply Forall_cons; split; [unfold len; simpl; lia|]).
  apply Forall_nil. exact I.
Defined.
(** ** The disassembler *)

Section DisassemblerFacts.

Variable RAW_OPCODE : Z -> option string.

Lemma decode_turn_next (scr : bytes) (asm : bool) (s s' : Z)
    (tokens tokens' : list string) :
  decode_turn RAW_OPCODE scr asm s tokens = Next s' tokens' -> s < s'.
Proof.
  unfold decode_turn.
  destruct (getitem_cases scr s) as [(b & -> & Hb) | ->]; [|discriminate].
  destruct ((b <? 76) && truthy b)%bool.
  { destruct asm; intros [= <- _]; lia. }
  destruct (b =? OPCODE.OP_PUSHDATA1).
  { destruct asm.
    - destruct (getitem_cases scr (s + 1)) as [(ld & -> & Hld) | ->];
        [intros [= <- _]; lia | discriminate].
    - destruct (RAW_OPCODE b); [|discriminate].
      destruct (getitem_cases scr (s + 1)) as [(ld & -> & Hld) | ->];
        [intros [= <- _]; lia | discriminate]. }
  destruct (b =? OPCODE.OP_PUSHDATA2).
  { destruct (unpack_cases 2 (slice scr (s + 1) (s + 3)))
      as [(ld & -> & Hld) | ->]; [|discriminate].
    destruct asm; [intros [= <- _]; lia|].
    destruct (RAW_OPCODE b); [intros [= <- _]; lia | discriminate]. }
  destruct (b =? OPCODE.OP_PUSHDATA4).
  { destruct (unpack_cases 4 (slice scr (s + 1) (s + 5)))
      as [(ld & -> & Hld) | ->]; [|discriminate].
    destruct asm; [intros [= <- _]; lia|].
    destruct (RAW_OPCODE b); [intros [= <- _]; lia | discriminate]. }
  destruct (RAW_OPCODE b); [intros [= <- _]; lia | discriminate].
Qed.

(** Tokens appended before an exception stay in the list. *)
Lemma decode_turn_failed (scr : bytes) (asm : bool) (s : Z)
    (tokens tokens' : list string) :
  decode_turn RAW_OPCODE scr asm s tokens = Failed tokens' ->
  exists partial, tokens' = tokens ++ partial.
Proof.
  unfold decode_turn.
  repeat match goal with
         | |- context [match ?x with _ => _ end] => destruct x
         end;
    try discriminate; intros [= <-];
    first [now exists [] ; rewrite app_nil_r | eauto].
Qed.

(** The loop never exhausts the fuel that [decode_script] gives it. *)
Lemma decode_loop_ok (scr : bytes) (asm : bool) (fuel : nat) (s : Z)
    (tokens : list string) :
  len scr - s <= Z.of_nat fuel ->
  exists r, decode_loop RAW_OPCODE fuel scr asm s tokens = Ok r.
Proof.
  revert s tokens. induction fuel as [|fuel IH]; intros s tokens Hf;
    cbn [decode_loop].
  - destruct (len scr - s >? 0) eqn:E; zbool; [lia|eauto].
  - destruct (len scr - s >? 0) eqn:E; zbool; [|eauto].
    destruct (decode_turn RAW_OPCODE scr asm s tokens) as [s' t'|t'] eqn:Ht;
      [|eauto].
    apply decode_turn_next in Ht. apply IH. lia.
Qed.

Lemma decode_script_ok (scr : bytes) (asm : bool) :
  exists out, decode_script RAW_OPCODE scr asm = Ok out.
Proof.
  unfold decode_script.
  destruct (decode_loop_ok scr asm (length scr) 0 [])
    as ([[s tokens] failed] & ->); [unfold len; lia|].
  cbn [bind]. eauto.
Qed.

Lemma decode_loop_failed (scr : bytes) (asm : bool) (fuel : nat)
    (s sf : Z) (tokens toks : list string) :
  decode_reaches RAW_OPCODE scr asm s tokens ->
  decode_loop RAW_OPCODE fuel scr asm s tokens = Ok (sf, toks, true) ->
  exists toks0,
    decode_reaches RAW_OPCODE scr asm sf toks0 /\ len scr - sf > 0 /\
    decode_turn RAW_OPCODE scr asm sf toks0 = Failed toks.
Proof.
  revert s tokens. induction fuel as [|fuel IH]; intros s tokens Hreach;
    cbn [decode_loop];
    (destruct (len scr - s >? 0) eqn:E; zbool; [|discriminate]);
    [discriminate|].
  destruct (decode_turn RAW_OPCODE scr asm s tokens) as [s' t'|t'] eqn:Ht.
  - apply IH. econstructor; eauto. lia.
  - intros [= <- <-]. exists tokens. repeat split; try assumption. lia.
Qed.

End DisassemblerFacts.

Lemma string_length_append (a b : string) :
  String.length (a +:+ b) = (String.length a + String.length b)%nat.
Proof.
  induction a as [|c a IH]; [reflexivity|].
  change (S (String.length (a +:+ b))
          = S (String.length a + String.length b)).
  now rewrite IH.
Qed.

Lemma concat_last_length (sep last : string) (toks : list string) :
  (String.length last + length toks * String.length sep
   <= String.length (String.concat sep (toks ++ [last])))%nat.
Proof.
  induction toks as [|t toks IH]; [cbn; lia|].
  cbn [app String.concat].
  destruct (toks ++ [last]) as [|u rest] eqn:E.
  { destruct toks; discriminate E. }
  rewrite !string_length_append. cbn [length]. lia.
Qed.

(** The joined string is the sentinel alone only for an empty token list. *)
Lemma concat_sentinel_only (toks : list string) :
  String.concat " " (toks ++ [SCRIPT_DECODE_FAILED]) = SCRIPT_DECODE_FAILED
  <-> toks = [].
Proof.
  split; [|now intros ->].
  intros H. pose proof (concat_last_length " " SCRIPT_DECODE_FAILED toks) as L.
  rewrite H in L. destruct toks; [reflexivity|]. cbn in L. lia.
Qed.

(** C2, the claim as stated fails: a script whose second unit is a
    PUSHDATA1 opcode without its length byte hits the failure after the
    first unit has been rendered, and the two tokens of that unit stay in
    front of the sentinel, whatever the opcode table. *)
Lemma decode_script_keeps_partial_tokens :
  exists out : string,
    (forall RAW_OPCODE,
       decode_fails RAW_OPCODE script_cut_pushdata1 true /\
       decode_script RAW_OPCODE script_cut_pushdata1 true = Ok out) /\
    out = "OP_PUSHBYTES[1] aa [SCRIPT_DECODE_FAILED]" /\
    out <> SCRIPT_DECODE_FAILED.
Proof.
  eexists. split; [|split; [reflexivity|discriminate]].
  intros RAW_OPCODE. split; [|reflexivity].
  exists 2, ["OP_PUSHBYTES[1]"; "aa"]. reflexivity.
Qed.

(** C2 (amended): [decode_script] always returns a string; when the walk
    is left by an exception (PUSHDATA length field cut short, or an opcode
    value absent from the opcode table) the string is the list of the tokens
    appended up to that moment, joined by single spaces, with the sentinel
    token appended as its last token.  Those tokens are the ones of the
    units decoded before the failing one, plus what the failing unit itself
    had appended; the result is the sentinel alone exactly when there is no
    such token. *)
Theorem decode_script_failure (RAW_OPCODE : Z -> option string)
    (scr : bytes) (asm : bool) :
  (exists out, decode_script RAW_OPCODE scr asm = Ok out) /\
  (decode_fails RAW_OPCODE scr asm ->
   exists s toks0 partial,
     decode_reaches RAW_OPCODE scr asm s toks0 /\ len scr - s > 0 /\
     decode_turn RAW_OPCODE scr asm s toks0 = Failed (toks0 ++ partial) /\
     decode_script RAW_OPCODE scr asm =
       Ok (String.concat " "
             (toks0 ++ partial ++ [SCRIPT_DECODE_FAILED])) /\
     (decode_script RAW_OPCODE scr asm = Ok SCRIPT_DECODE_FAILED <->
      toks0 ++ partial = [])).
Proof.
  split; [apply decode_script_ok|].
  intros (sf & toks & Hloop).
  destruct (decode_loop_failed RAW_OPCODE scr asm _ 0 sf [] toks
              (decode_reaches_init _ _ _) Hloop)
    as (toks0 & Hreach & Hmore & Hturn).
  destruct (decode_turn_failed RAW_OPCODE _ _ _ _ _ Hturn) as (partial & ->).
  exists sf, toks0, partial.
  repeat (split; [assumption|]).
  unfold decode_script. rewrite Hloop. cbn [bind].
  rewrite <- !app_assoc.
  split; [reflexivity|].
  rewrite (app_assoc toks0 partial).
  rewrite <- concat_sentinel_only.
  split; [now intros [= ->] | now intros ->].
Qed.

(** The failing script of the counterexample, and a script whose first byte
    is unknown to an empty opcode table: there the result is the sentinel
    alone. *)
Lemma decode_script_failure_witness :
  decode_script (fun _ => None) script_cut_pushdata1 true =
    Ok "OP_PUSHBYTES[1] aa [SCRIPT_DECODE_FAILED]" /\
  decode_script (fun _ => None) [xac] false = Ok "[SCRIPT_DECODE_FAILED]".
Proof.
  split.
  - destruct (proj2 (decode_script_failure (fun _ => None)
                       script_cut_pushdata1 true))
      as (s & toks0 & partial & _ & _ & _ & _ & _).
    + exists 2, ["OP_PUSHBYTES[1]"; "aa"]. reflexivity.
    + reflexivity.
  - destruct (proj2 (decode_script_failure (fun _ => None) [xac] false))
      as (s & toks0 & partial & _ & _ & _ & _ & _).
    + exists 0, []. reflexivity.
    + reflexivity.
Defined.

(** ** The push-data codec *)

Section PushDataFacts.

Variable int_to_bytes_little : Z -> bytes.

Lemma read_app (a b : bytes) : read (len a) (a ++ b) = (a, b).
Proof.
  unfold read, len. rewrite Nat2Z.id.
  now rewrite take_app_length, drop_app_length.
Qed.

(** Payloads of at most 75 bytes do make the round trip: the opcode part is
    the one-byte header and the payload comes back whole. *)
Lemma read_opcode_short_push (data : bytes) :
  len data <= 75 ->
  op_push_data int_to_bytes_little data
    = Ok (byte_of_Z (len data) :: data) /\
  read_opcode (byte_of_Z (len data) :: data)
    = Ok (Some [byte_of_Z (len data)], Some data, []).
Proof.
  intros Hl. pose proof (len_nonneg data) as H0.
  unfold op_push_data, bytes1.
  replace (len data <=? 75) with true by (symmetry; apply Z.leb_le; lia).
  replace ((0 <=? len data) && (len data <? 256))%bool with true.
  2:{ symmetry. apply andb_true_iff.
      split; [apply Z.leb_le | apply Z.ltb_lt]; lia. }
  split; [reflexivity|].
  unfold read_opcode.
  change (read 1 (byte_of_Z (len data) :: data))
    with ([byte_of_Z (len data)], data).
  cbn [len length Z.of_nat Z.eqb Pos.of_succ_nat].
  rewrite getitem_head, byte_val_of_Z by lia. cbn [bind].
  replace (len data <=? 75) with true by (symmetry; apply Z.leb_le; lia).
  pose proof (read_app data []) as Hr. rewrite app_nil_r in Hr.
  rewrite Hr. reflexivity.
Qed.

(** For a longer payload the first byte of the encoding is above 0x4b, the
    comparisons with the bytes constants all fail, and [read_opcode] returns
    that single byte with no payload. *)
Lemma read_opcode_no_payload (x : byte) (rest : bytes) :
  0x4b < byte_val x ->
  read_opcode (x :: rest) = Ok (Some [x], None, rest).
Proof.
  intros Hx. unfold read_opcode.
  change (read 1 (x :: rest)) with ([x], rest).
  cbn [len length Z.of_nat Z.eqb Pos.of_succ_nat].
  rewrite getitem_head. cbn [bind].
  replace (byte_val x <=? 75) with false by (symmetry; apply Z.leb_gt; lia).
  reflexivity.
Qed.

Lemma read_opcode_long_push (data out : bytes) :
  75 < len data ->
  op_push_data int_to_bytes_little data = Ok out ->
  exists x rest, out = x :: rest /\
                 read_opcode out = Ok (Some [x], None, rest).
Proof.
  intros Hl. unfold op_push_data, bytes1.
  replace (len data <=? 75) with false by (symmetry; apply Z.leb_gt; lia).
  destruct (len data <=? 255) eqn:E1; zbool.
  { replace ((0 <=? len data) && (len data <? 256))%bool with true.
    2:{ symmetry. apply andb_true_iff.
        split; [apply Z.leb_le | apply Z.ltb_lt]; lia. }
    cbn [bind]. intros [= <-]. do 2 eexists. split; [reflexivity|].
    apply read_opcode_no_payload. cbn. lia. }
  destruct (len data <=? 65535); intros [= <-]; do 2 eexists;
    (split; [reflexivity|]); apply read_opcode_no_payload; cbn; lia.
Qed.

(** The header is the shortest form: the opcode byte chosen depends on the
    length class only. *)
Lemma op_push_data_header (data out : bytes) :
  op_push_data int_to_bytes_little data = Ok out ->
  (len data <= 75 /\ out = byte_of_Z (len data) :: data) \/
  (75 < len data <= 255 /\ out = x4c :: byte_of_Z (len data) :: data) \/
  (255 < len data <= 65535 /\
   out = x4d :: int_to_bytes_little (len data) ++ data) \/
  (65535 < len data /\ out = x4e :: int_to_bytes_little (len data) ++ data).
Proof.
  pose proof (len_nonneg data) as H0.
  unfold op_push_data, bytes1.
  destruct (len data <=? 75) eqn:E0; zbool.
  { replace ((0 <=? len data) && (len data <? 256))%bool with true.
    2:{ symmetry. apply andb_true_iff.
        split; [apply Z.leb_le | apply Z.ltb_lt]; lia. }
    intros [= <-]. left. split; [lia|reflexivity]. }
  destruct (len data <=? 255) eqn:E1; zbool.
  { replace ((0 <=? len data) && (len data <? 256))%bool with true.
    2:{ symmetry. apply andb_true_iff.
        split; [apply Z.leb_le | apply Z.ltb_lt]; lia. }
    intros [= <-]. right. left. split; [lia|reflexivity]. }
  destruct (len data <=? 65535) eqn:E2; zbool; intros [= <-].
  - right. right. left. split; [lia|reflexivity].
  - right. right. right. split; [lia|reflexivity].
Qed.

End PushDataFacts.

(** C3: for the 76-byte payload [op_push_data] writes the PUSHDATA1 header
    [4c 4c], and [read_opcode] on that encoding returns the single byte [4c]
    as opcode part and no payload at all, leaving the length byte and the
    payload unread; the round trip of the claim fails. *)
Theorem read_opcode_pushdata1_no_roundtrip
    (int_to_bytes_little : Z -> bytes) :
  op_push_data int_to_bytes_little payload_76
    = Ok ([x4c; x4c] ++ payload_76) /\
  read_opcode ([x4c; x4c] ++ payload_76)
    = Ok (Some [x4c], None, x4c :: payload_76) /\
  read_opcode ([x4c; x4c] ++ payload_76)
    <> Ok (Some [x4c; x4c], Some payload_76, []).
Proof.
  split; [reflexivity|]. split; [reflexivity|]. discriminate.
Qed.

(** ** The subscript remover *)

Lemma unit_size_cases (scr : bytes) (s : Z) :
  (exists z, unit_size scr s = Ok z /\ 1 <= z) \/
  (exists e, unit_size scr s = Raise e).
Proof.
  unfold unit_size.
  destruct (getitem_cases scr s) as [(b & -> & Hb) | ->]; cbn [bind];
    [|eauto].
  destruct ((b <? 76) && truthy b)%bool; [left; eexists; split; eauto; lia|].
  destruct (b =? OPCODE.OP_PUSHDATA1).
  { destruct (getitem_cases scr (s + 1)) as [(x & -> & Hx) | ->];
      cbn [bind]; [left; eexists; split; eauto; lia | eauto]. }
  destruct (b =? OPCODE.OP_PUSHDATA2).
  { destruct (unpack_cases 2 (slice scr s (s + 2))) as [(x & -> & Hx) | ->];
      cbn [bind]; [left; eexists; split; eauto; lia | eauto]. }
  destruct (b =? OPCODE.OP_PUSHDATA4).
  { destruct (unpack_cases 4 (slice scr s (s + 4))) as [(x & -> & Hx) | ->];
      cbn [bind]; [left; eexists; split; eauto; lia | eauto]. }
  left. eexists. split; eauto. lia.
Qed.

Lemma pop_until_cases (target t : Z) (stack : list Z) :
  (exists r, pop_until target t stack = Ok r) \/
  pop_until target t stack = Raise IndexError.
Proof.
  revert t. induction stack as [|x stack IH]; intros t; cbn [pop_until];
    destruct (negb (t =? target)); eauto.
Qed.

Lemma delete_turn_cases (scr sub_script : bytes) (st : delete_state) :
  (exists st', delete_turn scr sub_script st = Ok st' /\ d_s st < d_s st') \/
  (exists e, delete_turn scr sub_script st = Raise e).
Proof.
  unfold delete_turn. cbv zeta.
  destruct (unit_size_cases scr (d_s st)) as [(z & -> & Hz) | (e & ->)];
    cbn [bind]; [|eauto].
  destruct (_ >=? _); [|left; eexists; split; eauto; cbn; lia].
  destruct (bool_decide _).
  - destruct (pop_until_cases (d_s st + z - d_k st) 0 (d_stack st ++ [z]))
      as [(r & ->) | ->]; cbn [bind]; [|eauto].
    left. eexists. split; eauto. cbn. lia.
  - destruct (d_stack st ++ [z]); [eauto|].
    left. eexists. split; eauto. cbn. lia.
Qed.

(** The loop never exhausts the fuel [delete_from_script] gives it: it
    returns or raises. *)
Lemma delete_loop_fuel (scr sub_script : bytes) (fuel : nat)
    (st : delete_state) :
  len scr - d_s st <= Z.of_nat fuel ->
  delete_loop fuel scr sub_script st <> OutOfFuel.
Proof.
  revert st. induction fuel as [|fuel IH]; intros st Hf; cbn [delete_loop];
    (destruct (len scr - d_s st >? 0) eqn:E; zbool; [|discriminate]);
    [lia|].
  destruct (delete_turn_cases scr sub_script st)
    as [(st' & -> & Hs) | (e & ->)]; cbn [bind]; [|discriminate].
  apply IH. lia.
Qed.

Lemma delete_from_script_fuel (scr sub_script : bytes) :
  delete_from_script scr sub_script <> OutOfFuel.
Proof.
  unfold delete_from_script. destruct sub_script; [discriminate|].
  cbv zeta.
  destruct (delete_loop _ _ _ _) eqn:E; cbn [bind]; try discriminate.
  exfalso. revert E. apply delete_loop_fuel. unfold len. cbn. lia.
Qed.

(** An empty subscript leaves the script as it is. *)
Lemma delete_from_script_empty (scr : bytes) :
  delete_from_script scr [] = Ok scr.
Proof. reflexivity. Qed.

(** A second occurrence that starts at a unit boundary is kept when the
    pending window holds more than the subscript. *)
Lemma delete_from_script_keeps_second_occurrence :
  delete_from_script [x51; x01; xaa; x01; xaa] [x01; xaa]
    = Ok [x51; x01; xaa].
Proof. reflexivity. Qed.

(** C5: [OP_1 OP_2] occurs in [OP_1 OP_2 OP_3 <push aa bb>] once, at offset
    0, which is a unit boundary; removing it should leave
    [OP_3 <push aa bb>], but the result lacks the last byte: the pending
    window left after the loop is cut to the length of the subscript. *)
Theorem delete_from_script_drops_tail :
  script_with_prefix = prefix_OP_1_OP_2 ++ [x53; x02; xaa; xbb] /\
  (forall i, occurs_at prefix_OP_1_OP_2 script_with_prefix i -> i = 0%nat) /\
  delete_from_script script_with_prefix prefix_OP_1_OP_2
    = Ok [x53; x02; xaa] /\
  delete_from_script script_with_prefix prefix_OP_1_OP_2
    <> Ok [x53; x02; xaa; xbb].
Proof.
  split; [reflexivity|]. split; [|split; [reflexivity|discriminate]].
  intros i. unfold occurs_at.
  do 7 (destruct i as [|i]; [first [reflexivity | discriminate]|]).
  cbn. discriminate.
Qed.

(** * Further properties of the code *)

(** ** What the signature validator accepts *)

Lemma land128_table :
  forallb (fun n => Bool.eqb (truthy (Z.land (Z.of_nat n) 128))
                             (128 <=? Z.of_nat n))
          (seq 0 256) = true.
Proof. vm_compute. reflexivity. Qed.

(** On a byte, [x & 0x80] is true exactly when [x >= 128]. *)
Lemma land128 (x : Z) :
  0 <= x < 256 -> truthy (Z.land x 128) = (128 <=? x).
Proof.
  intros Hx. pose proof land128_table as H.
  rewrite forallb_forall in H.
  specialize (H (Z.to_nat x)).
  rewrite Z2Nat.id in H by lia.
  apply Bool.eqb_prop, H, in_seq. lia.
Qed.

Lemma byte_val_inj (x y : byte) : byte_val x = byte_val y -> x = y.
Proof.
  unfold byte_val. intros H.
  assert (E : Byte.to_N x = Byte.to_N y) by lia.
  pose proof (Byte.of_to_N x) as Hx. rewrite E, Byte.of_to_N in Hx.
  now injection Hx.
Qed.

Lemma getitem_Some (b : bytes) (i v : Z) :
  0 <= i -> getitem b i = Ok v ->
  exists x, b !! Z.to_nat i = Some x /\ byte_val x = v.
Proof.
  intros Hi Hv. pose proof (getitem_in_range b i v Hi Hv) as Hlt.
  destruct (getitem_nonneg b i) as (x & Hx & Hg); [lia|].
  rewrite Hg in Hv. injection Hv as <-. eauto.
Qed.

Lemma getitem_at (pre post : bytes) (x : byte) (i : Z) :
  i = len pre -> getitem (pre ++ x :: post) i = Ok (byte_val x).
Proof. intros ->. apply getitem_middle. Qed.

Ltac land_bool :=
  repeat match goal with
  | H : context [truthy (Z.land ?x 128)] |- _ =>
      rewrite (land128 x) in H by lia
  end.

Lemma valid_signature_fields (sig : bytes) :
  is_valid_signature_encoding sig = Ok true ->
  exists len_r len_s, valid_fields sig len_r len_s.
Proof.
  unfold is_valid_signature_encoding, and_then. cbv zeta.
  repeat match goal with
  | |- context [getitem ?s ?i] =>
      let x := fresh "x" in
      let Hx := fresh "Hx" in
      let Hr := fresh "Hr" in
      destruct (getitem_ok s i) as (x & Hx & Hr);
      [zbool; lia | rewrite !Hx; cbn [bind]]
  | |- context [if ?c then _ else _] =>
      destruct c eqn:?; cbn [bind]; try discriminate
  end.
  all: intros _; land_bool; zbool; subst.
  all: eexists _, _; unfold valid_fields.
  all: repeat match goal with
       | |- _ /\ _ => split
       | |- exists _, _ => eexists
       | |- getitem _ _ = Ok _ => eassumption
       | |- _ -> _ => intros
       | |- _ => lia
       end.
  all: lia.
Qed.

Lemma fields_valid_signature (sig : bytes) (len_r len_s : Z) :
  valid_fields sig len_r len_s ->
  is_valid_signature_encoding sig = Ok true.
Proof.
  intros (Hlen & Hmax & Hr1 & Hs1 & H0 & H1 & H2 & H3 &
          (r0 & H4 & Hr0 & HR) & H5 & H6 & (s0 & H7 & Hs0 & HS)).
  pose proof (getitem_range _ _ _ H4) as Rr0.
  pose proof (getitem_range _ _ _ H7) as Rs0.
  unfold is_valid_signature_encoding, and_then. cbv zeta.
  repeat (first [rewrite H0 | rewrite H1 | rewrite H2 | rewrite H3
                | rewrite H4 | rewrite H5 | rewrite H6 | rewrite H7];
          cbn [bind]).
  rewrite !land128 by lia.
  replace ((len sig <? 9) || (len sig >? 73))%bool with false.
  2:{ symmetry. apply orb_false_iff. rewrite Z.gtb_ltb.
      split; apply Z.ltb_ge; lia. }
  rewrite !Z.eqb_refl. cbn [negb].
  replace (5 + len_r >=? len sig) with false
    by (symmetry; rewrite Z.geb_leb; apply Z.leb_gt; lia).
  replace (len_r + len_s + 7 =? len sig) with true
    by (symmetry; apply Z.eqb_eq; lia).
  replace (len_r =? 0) with false by (symmetry; apply Z.eqb_neq; lia).
  replace (len_s =? 0) with false by (symmetry; apply Z.eqb_neq; lia).
  replace (128 <=? r0) with false by (symmetry; apply Z.leb_gt; lia).
  replace (128 <=? s0) with false by (symmetry; apply Z.leb_gt; lia).
  cbn [negb].
  assert (HcR : (if len_r >? 1
                 then if r0 =? 0
                      then let* y := getitem sig 5 in
                           Ok (negb (truthy (Z.land y 128)))
                      else Ok false
                 else Ok false) = Ok false).
  { destruct (len_r >? 1) eqn:E1; [|reflexivity].
    destruct (r0 =? 0) eqn:E2; [|reflexivity]. zbool.
    destruct (HR E1 E2) as (r1 & Hg & Hr1'). rewrite Hg. cbn [bind].
    rewrite land128 by (apply (getitem_range sig 5); exact Hg).
    replace (128 <=? r1) with true by (symmetry; apply Z.leb_le; lia).
    reflexivity. }
  rewrite HcR. cbn [bind].
  assert (HcS : (if len_s >? 1
                 then if s0 =? 0
                      then let* y := getitem sig (len_r + 7) in
                           Ok (negb (truthy (Z.land y 128)))
                      else Ok false
                 else Ok false) = Ok false).
  { destruct (len_s >? 1) eqn:E1; [|reflexivity].
    destruct (s0 =? 0) eqn:E2; [|reflexivity]. zbool.
    destruct (HS E1 E2) as (s1 & Hg & Hs1'). rewrite Hg. cbn [bind].
    rewrite land128 by (apply (getitem_range sig (len_r + 7)); exact Hg).
    replace (128 <=? s1) with true by (symmetry; apply Z.leb_le; lia).
    reflexivity. }
  rewrite HcS. reflexivity.
Qed.

Lemma byte_of_val (x : byte) : byte_of_Z (byte_val x) = x.
Proof.
  apply byte_val_inj, byte_val_of_Z, byte_val_range.
Qed.

Lemma drop_getitem (b : bytes) (i v : Z) :
  0 <= i -> getitem b i = Ok v ->
  drop (Z.to_nat i) b = byte_of_Z v :: drop (S (Z.to_nat i)) b.
Proof.
  intros Hi Hv. destruct (getitem_Some b i v Hi Hv) as (x & Hx & <-).
  rewrite byte_of_val. now apply drop_S.
Qed.

Lemma minimal_take (b : bytes) (i n r0 : Z) :
  0 <= i -> 1 <= n ->
  getitem b i = Ok r0 -> r0 < 128 ->
  (1 < n -> r0 = 0 -> exists r1, getitem b (i + 1) = Ok r1 /\ 128 <= r1) ->
  minimal_positive (take (Z.to_nat n) (drop (Z.to_nat i) b)).
Proof.
  intros Hi Hn H0 Hlt Hnext.
  pose proof (getitem_range _ _ _ H0) as R0.
  rewrite (drop_getitem b i r0 Hi H0).
  destruct (Z.to_nat n) as [|n'] eqn:En; [lia|]. cbn [take minimal_positive].
  rewrite byte_val_of_Z by lia. split; [exact Hlt|].
  intros Hz. destruct n' as [|n'']; [exact I|].
  destruct (Hnext ltac:(lia) Hz) as (r1 & H1 & Hge).
  pose proof (getitem_range _ _ _ H1) as R1.
  pose proof (drop_getitem b (i + 1) r1 ltac:(lia) H1) as Hd.
  replace (Z.to_nat (i + 1)) with (S (Z.to_nat i)) in Hd by lia.
  rewrite Hd. cbn [take]. rewrite byte_val_of_Z by lia. exact Hge.
Qed.

(** A signature that passes the byte-by-byte checks is an envelope. *)
Lemma fields_envelope (sig : bytes) (len_r len_s : Z) :
  valid_fields sig len_r len_s ->
  exists R S h,
    sig = signature_envelope R S h /\ len R = len_r /\ len S = len_s /\
    minimal_positive R /\ minimal_positive S.
Proof.
  intros (Hlen & Hmax & Hr1 & Hs1 & H0 & H1 & H2 & H3 &
          (r0 & H4 & Hr0 & HR) & H5 & H6 & (s0 & H7 & Hs0 & HS)).
  set (Rb := take (Z.to_nat len_r) (drop 4 sig)).
  set (Sb := take (Z.to_nat len_s) (drop (Z.to_nat (len_r + 6)) sig)).
  assert (HlR : len Rb = len_r).
  { unfold Rb, len in *. rewrite length_take, length_drop. lia. }
  assert (HlS : len Sb = len_s).
  { unfold Sb, len in *. rewrite length_take, length_drop. lia. }
  assert (Hlast : exists h, drop (Z.to_nat (len sig - 1)) sig = [h]).
  { destruct (drop (Z.to_nat (len sig - 1)) sig) as [|h [|h' t]] eqn:E;
      apply (f_equal (@length byte)) in E; rewrite length_drop in E;
      unfold len in *; cbn [length] in E; [lia | eauto | lia]. }
  destruct Hlast as (h & Hh).
  exists Rb, Sb, h. split; [|split; [exact HlR|split; [exact HlS|split]]].
  - unfold signature_envelope. rewrite HlR, HlS.
    transitivity (drop (Z.to_nat 0) sig); [reflexivity|].
    rewrite (drop_getitem sig 0 _ ltac:(lia) H0).
    change (S (Z.to_nat 0)) with (Z.to_nat 1).
    rewrite (drop_getitem sig 1 _ ltac:(lia) H1).
    change (S (Z.to_nat 1)) with (Z.to_nat 2).
    rewrite (drop_getitem sig 2 _ ltac:(lia) H2).
    change (S (Z.to_nat 2)) with (Z.to_nat 3).
    rewrite (drop_getitem sig 3 _ ltac:(lia) H3).
    change (S (Z.to_nat 3)) with 4%nat.
    change (byte_of_Z 48) with x30. change (byte_of_Z 2) with x02.
    replace (len sig - 3) with (len_r + len_s + 4) by lia.
    cbn [app]. do 4 f_equal.
    rewrite <- (take_drop (Z.to_nat len_r) (drop 4 sig)) at 1.
    fold Rb. f_equal. rewrite drop_drop.
    replace (4 + Z.to_nat len_r)%nat with (Z.to_nat (len_r + 4)) by lia.
    rewrite (drop_getitem sig (len_r + 4) _ ltac:(lia) H5).
    replace (S (Z.to_nat (len_r + 4))) with (Z.to_nat (5 + len_r)) by lia.
    rewrite (drop_getitem sig (5 + len_r) _ ltac:(lia) H6).
    replace (S (Z.to_nat (5 + len_r))) with (Z.to_nat (len_r + 6)) by lia.
    change (byte_of_Z 2) with x02. do 2 f_equal.
    rewrite <- (take_drop (Z.to_nat len_s) (drop (Z.to_nat (len_r + 6)) sig))
      at 1.
    fold Sb. f_equal. rewrite drop_drop.
    replace (Z.to_nat (len_r + 6) + Z.to_nat len_s)%nat
      with (Z.to_nat (len sig - 1)) by lia.
    exact Hh.
  - unfold Rb. change 4%nat with (Z.to_nat 4).
    apply (minimal_take sig 4 len_r r0); try assumption; lia.
  - unfold Sb.
    apply (minimal_take sig (len_r + 6) len_s s0); try assumption; [lia|].
    replace (len_r + 6 + 1) with (len_r + 7) by lia. exact HS.
Qed.

Lemma minimal_positive_len (x : bytes) : minimal_positive x -> 1 <= len x.
Proof. destruct x; [intros []|]. intros _. unfold len. cbn. lia. Qed.

(** An envelope around two shortest encodings passes every check. *)
Lemma envelope_fields (R S : bytes) (h : byte) :
  minimal_positive R -> minimal_positive S -> len R + len S + 7 <= 73 ->
  valid_fields (signature_envelope R S h) (len R) (len S).
Proof.
  intros HR HS Hmax.
  pose proof (minimal_positive_len R HR) as HlR.
  pose proof (minimal_positive_len S HS) as HlS.
  set (t := byte_of_Z (len R + len S + 4)).
  set (lr := byte_of_Z (len R)). set (ls := byte_of_Z (len S)).
  assert (Hsig : signature_envelope R S h
                 = x30 :: t :: x02 :: lr :: R ++ x02 :: ls :: S ++ [h])
    by reflexivity.
  assert (Hlen : len (signature_envelope R S h) = len R + len S + 7).
  { rewrite Hsig. unfold len. cbn [length].
    rewrite !length_app. cbn [length]. rewrite length_app. cbn [length].
    lia. }
  unfold valid_fields. rewrite Hlen.
  split; [reflexivity|]. split; [exact Hmax|].
  split; [exact HlR|]. split; [exact HlS|].
  split; [reflexivity|].
  split.
  { rewrite Hsig.
    transitivity (Ok (byte_val t));
      [apply (getitem_at [x30] _ t 1 eq_refl)|].
    unfold t. rewrite byte_val_of_Z by lia. f_equal. lia. }
  split; [rewrite Hsig; apply (getitem_at [x30; t] _ x02 2 eq_refl)|].
  split.
  { rewrite Hsig.
    transitivity (Ok (byte_val lr));
      [apply (getitem_at [x30; t; x02] _ lr 3 eq_refl)|].
    unfold lr. now rewrite byte_val_of_Z by lia. }
  split.
  { destruct R as [|a R']; [destruct HR|]. destruct HR as [Ha Hnext].
    exists (byte_val a). split; [|split; [exact Ha|]].
    - rewrite Hsig. apply (getitem_at [x30; t; x02; lr] _ a 4 eq_refl).
    - intros Hgt Hz. destruct R' as [|b R''].
      + unfold len in Hgt. cbn in Hgt. lia.
      + exists (byte_val b). split; [|exact (Hnext Hz)].
        rewrite Hsig.
        apply (getitem_at [x30; t; x02; lr; a] _ b 5 eq_refl). }
  split.
  { rewrite Hsig.
    apply (getitem_at (x30 :: t :: x02 :: lr :: R) _ x02).
    unfold len. cbn [length]. lia. }
  split.
  { rewrite Hsig.
    replace (x30 :: t :: x02 :: lr :: R ++ x02 :: ls :: S ++ [h])
      with ((x30 :: t :: x02 :: lr :: R ++ [x02]) ++ ls :: S ++ [h])
      by (cbn; rewrite <- app_assoc; reflexivity).
    rewrite getitem_at.
    - unfold ls. now rewrite byte_val_of_Z by lia.
    - unfold len. cbn [length]. rewrite length_app. cbn [length]. lia. }
  destruct S as [|c S']; [destruct HS|]. destruct HS as [Hc Hnext].
  exists (byte_val c). split; [|split; [exact Hc|]].
  - rewrite Hsig.
    replace (x30 :: t :: x02 :: lr :: R ++ x02 :: ls :: (c :: S') ++ [h])
      with ((x30 :: t :: x02 :: lr :: R ++ [x02; ls]) ++ c :: S' ++ [h])
      by (cbn; rewrite <- app_assoc; reflexivity).
    apply getitem_at.
    unfold len. cbn [length]. rewrite length_app. cbn [length]. lia.
  - intros Hgt Hz. destruct S' as [|e S''].
    + unfold len in Hgt. cbn in Hgt. lia.
    + exists (byte_val e). split; [|exact (Hnext Hz)].
      rewrite Hsig.
      replace (x30 :: t :: x02 :: lr :: R
                 ++ x02 :: ls :: (c :: e :: S'') ++ [h])
        with ((x30 :: t :: x02 :: lr :: R ++ [x02; ls; c])
                ++ e :: S'' ++ [h])
        by (cbn; rewrite <- app_assoc; reflexivity).
      apply getitem_at.
      unfold len. cbn [length]. rewrite length_app. cbn [length]. lia.
Qed.

(** X1: the validator accepts exactly the envelopes
    [30 total 02 len(R) R 02 len(S) S sighash] of at most 73 bytes whose
    [R] and [S] are shortest encodings of non-negative integers. *)
Theorem valid_signature_iff_envelope (sig : bytes) :
  is_valid_signature_encoding sig = Ok true <->
  exists R S h,
    sig = signature_envelope R S h /\
    minimal_positive R /\ minimal_positive S /\ len R + len S + 7 <= 73.
Proof.
  split.
  - intros Hv. destruct (valid_signature_fields sig Hv) as (lr & ls & Hf).
    destruct (fields_envelope sig lr ls Hf)
      as (R & S & h & Hsig & HlR & HlS & HR & HS).
    exists R, S, h. repeat split; try assumption.
    destruct Hf as (Hlen & Hmax & _). lia.
  - intros (R & S & h & -> & HR & HS & Hmax).
    eapply fields_valid_signature, envelope_fields; eassumption.
Qed.

Lemma slice_middle (pre mid post : bytes) (lo hi : Z) :
  lo = len pre -> hi = len pre + len mid ->
  slice (pre ++ mid ++ post) lo hi = mid.
Proof.
  intros -> ->. unfold slice, clamp.
  pose proof (len_nonneg pre). pose proof (len_nonneg mid).
  pose proof (len_nonneg post).
  replace (len pre <? 0) with false by (symmetry; apply Z.ltb_ge; lia).
  replace (len pre + len mid <? 0) with false
    by (symmetry; apply Z.ltb_ge; lia).
  rewrite !len_app, !Z.min_l by lia.
  replace (Z.to_nat (len pre)) with (length pre) by (unfold len; lia).
  replace (Z.to_nat (len pre + len mid - len pre)) with (length mid)
    by (unfold len; lia).
  now rewrite drop_app_length, take_app_length.
Qed.

Lemma slice_to_last (b : bytes) (lo : Z) :
  1 <= len b -> slice b lo (-1) = slice b lo (len b - 1).
Proof.
  intros H. unfold slice, clamp. change (-1 <? 0) with true. cbv iota.
  replace (len b - 1 <? 0) with false by (symmetry; apply Z.ltb_ge; lia).
  rewrite Z.max_r, (Z.min_l (len b - 1)) by lia. do 3 f_equal. lia.
Qed.

(** X2: on such an envelope the decoder returns the [S] element whole and
    the [R] element without its first byte (the slice of line 521 starts at
    offset 5, one byte after the start of [R]). *)
Theorem parse_signature_envelope (R S : bytes) (h : byte) :
  minimal_positive R -> minimal_positive S -> len R + len S + 7 <= 73 ->
  parse_signature (signature_envelope R S h) = Ok (drop 1 R, S).
Proof.
  intros HR HS Hmax.
  pose proof (envelope_fields R S h HR HS Hmax) as Hf.
  pose proof (fields_valid_signature _ _ _ Hf) as Hv.
  destruct Hf as (Hlen & _ & HlR & HlS & _ & _ & _ & H3 & _).
  destruct (parse_signature_agrees (signature_envelope R S h))
    as [[Hv' _] | [_ (len_r & H3' & _ & _ & ->)]]; [congruence|].
  rewrite H3 in H3'. injection H3' as <-. f_equal.
  rewrite slice_to_last by lia. rewrite Hlen.
  destruct R as [|a R']; [destruct HR|].
  set (t := byte_of_Z (len (a :: R') + len S + 4)).
  set (lr := byte_of_Z (len (a :: R'))). set (ls := byte_of_Z (len S)).
  assert (HlenR : len (a :: R') = len R' + 1)
    by (unfold len; cbn [length]; lia).
  f_equal.
  - change (drop 1 (a :: R')) with R'.
    change (signature_envelope (a :: R') S h)
      with ([x30; t; x02; lr; a] ++ R' ++ x02 :: ls :: S ++ [h]).
    apply slice_middle; [reflexivity|]. rewrite HlenR.
    unfold len. cbn [length]. lia.
  - replace (signature_envelope (a :: R') S h)
      with ((x30 :: t :: x02 :: lr :: (a :: R') ++ [x02; ls]) ++ S ++ [h])
      by (unfold signature_envelope; cbn; rewrite <- app_assoc;
          reflexivity).
    apply slice_middle.
    + unfold len. cbn [length]. rewrite length_app. cbn [length]. lia.
    + unfold len. cbn [length]. rewrite length_app. cbn [length]. lia.
Qed.

(** The smallest envelope, [R = 01], [S = 01], sighash [01]. *)
Lemma parse_signature_envelope_witness :
  parse_signature sig_min = Ok ([], [x01]).
Proof.
  apply (parse_signature_envelope [x01] [x01] x01);
    [split; [reflexivity | discriminate]
    | split; [reflexivity | discriminate]
    | unfold len; simpl; lia].
Defined.

(** ** The decision list of the classifier, case by case *)

Lemma null_data_template_shape (scr : bytes) :
  1 <= len scr ->
  exists d, null_data_template scr = Ok d /\
    ((exists p, d = {| nType := 3; type := "NULL_DATA"; reqSigs := Some 0;
                       addressHash := None; script := None; data := Some p;
                       pubKeys := None |}) \/
     d = {| nType := 8; type := "NULL_DATA_NON_STANDARD"; reqSigs := Some 0;
            addressHash := None; script := Some scr; data := None;
            pubKeys := None |}).
Proof.
  intros Hl. unfold null_data_template. cbv zeta.
  destruct (len scr =? 1) eqn:E; zbool;
    [eexists; split; [reflexivity|left; eexists; reflexivity]|].
  destruct (getitem_ok scr 1) as (b1 & -> & Hb1); [lia|]. cbn [bind].
  destruct (b1 <? OPCODE.OP_PUSHDATA1).
  { destruct (b1 =? len scr - 2); eexists; (split; [reflexivity|]);
      [left; eexists; reflexivity | now right]. }
  destruct (b1 =? OPCODE.OP_PUSHDATA1);
    [|eexists; split; [reflexivity|now right]].
  destruct (len scr >? 2) eqn:E2; zbool;
    [|eexists; split; [reflexivity|now right]].
  destruct (getitem_ok scr 2) as (b2 & -> & Hb2); [lia|]. cbn [bind].
  destruct (_ && _); eexists; (split; [reflexivity|]);
    [left; eexists; reflexivity | now right].
Qed.

(** The three families of results of lines 55-129. *)
Lemma parse_script_tail_shape (scr : bytes) :
  1 <= len scr ->
  exists d, parse_script_tail scr = Ok d /\
    ((exists p, d = {| nType := 3; type := "NULL_DATA"; reqSigs := Some 0;
                       addressHash := None; script := None; data := Some p;
                       pubKeys := None |}) \/
     d = {| nType := 8; type := "NULL_DATA_NON_STANDARD"; reqSigs := Some 0;
            addressHash := None; script := Some scr; data := None;
            pubKeys := None |} \/
     (exists m n, multisig_shape scr m n /\ d = multisig_info scr m n) \/
     (exists r, generic_walk (length scr) scr walk_init = Ok r /\
        d = {| nType := 7; type := "NON_STANDARD"; reqSigs := Some r;
               addressHash := None; script := Some scr; data := None;
               pubKeys := None |})).
Proof.
  intros Hl. unfold parse_script_tail.
  destruct (getitem_ok scr 0) as (b0 & -> & Hb0); [lia|]. cbn [bind].
  destruct (b0 =? OPCODE.OP_RETURN).
  { destruct (null_data_template_shape scr Hl) as (d & -> & [H|H]); eauto. }
  destruct (multisig_template scr) as [[d|]| |] eqn:Hms; cbn [bind].
  - exists d. split; [reflexivity|]. do 2 right. left.
    now apply multisig_template_sound.
  - destruct (generic_walk_ok scr (length scr) walk_init) as (r & Hr);
      [cbn; lia | cbn; unfold len; lia |].
    rewrite Hr. cbn [bind]. eexists. split; [reflexivity|].
    do 3 right. eauto.
  - destruct (multisig_template_ok scr Hl) as (r & Hr & _). congruence.
  - destruct (multisig_template_ok scr Hl) as (r & Hr & _). congruence.
Qed.

Section TemplateFacts.

Variable hash160 : bytes -> bytes.

(** Every way [parse_script] can answer on a non-empty script, with the
    test that selects it. *)
Lemma parse_script_cases (scr : bytes) (segwit : bool) (b0 e1 : Z) :
  getitem scr 0 = Ok b0 -> getitem scr (-1) = Ok e1 ->
  exists d, parse_script hash160 scr segwit = Ok d /\
    ((segwit = true /\ len scr = 22 /\ b0 = 0 /\
      d = address_info 5 (Some 1) (slice_from scr 2)) \/
     (segwit = true /\ len scr = 34 /\ b0 = 0 /\
      d = address_info 6 None (slice_from scr 2)) \/
     (len scr = 25 /\ p2pkh_shape scr /\
      d = address_info 0 (Some 1) (slice scr 3 (-2))) \/
     (len scr = 23 /\ b0 = 169 /\ e1 = 135 /\
      d = address_info 1 None (slice scr 2 (-1))) \/
     ((len scr = 35 \/ len scr = 67) /\ e1 = 172 /\
      d = address_info 2 (Some 1) (hash160 (slice scr 1 (-1)))) \/
     (parse_script_tail scr = Ok d /\
      (type d = "NULL_DATA" \/ type d = "NULL_DATA_NON_STANDARD" \/
       type d = "MULTISIG" \/ type d = "NON_STANDARD") /\
      ~ ((len scr = 35 \/ len scr = 67) /\ e1 = 172) /\
      ~ (len scr = 23 /\ b0 = 169 /\ e1 = 135) /\
      ~ (segwit = true /\ (len scr = 22 \/ len scr = 34) /\ b0 = 0))).
Proof.
  intros H0 H1.
  assert (Hl : 1 <= len scr)
    by (pose proof (getitem_in_range scr 0 b0 ltac:(lia) H0); lia).
  rewrite (parse_script_unfold hash160 scr segwit b0 e1 H0 H1). cbv zeta.
  destruct (segwit && (len scr =? 22) && (b0 =? 0))%bool eqn:E1.
  { zbool. eexists. split; [reflexivity|]. left.
    repeat split; try assumption. }
  destruct (segwit && (len scr =? 34) && (b0 =? 0))%bool eqn:E2.
  { zbool. eexists. split; [reflexivity|]. right. left.
    repeat split; try assumption. }
  destruct ((len scr =? 25) && bool_decide (slice_to scr 2 = [x76; xa9])
            && bool_decide (slice_from scr (-2) = [x88; xac]))%bool eqn:E3.
  { zbool. apply bool_decide_eq_true in H2, H3.
    eexists. split; [reflexivity|]. do 2 right. left.
    split; [assumption|]. split; [|reflexivity].
    apply p2pkh_shape_iff; [unfold len in *; lia | tauto]. }
  destruct ((len scr =? 23) && (b0 =? 169) && (e1 =? 135))%bool eqn:E4.
  { zbool. eexists. split; [reflexivity|]. do 3 right. left.
    repeat split; try assumption. }
  destruct (((len scr =? 67) || (len scr =? 35)) && (e1 =? 172))%bool eqn:E5.
  { apply andb_true_iff in E5 as [E5 E6]. apply orb_true_iff in E5.
    zbool. eexists. split; [reflexivity|]. do 4 right. left.
    split; [destruct E5; zbool; lia|]. split; [assumption|reflexivity]. }
  destruct (parse_script_tail_ok scr Hl) as (d & Hd & Hty).
  exists d. split; [exact Hd|]. do 5 right. split; [exact Hd|].
  split; [exact Hty|].
  repeat rewrite andb_false_iff in *. rewrite orb_false_iff in E5.
  repeat split.
  - intros [[Hlen|Hlen] He]; destruct E5 as [[Ha Hb]|Hc]; zbool; lia.
  - intros (Ha & Hb & Hc). destruct E4 as [[E4|E4]|E4]; zbool; lia.
  - intros (-> & [Hlen|Hlen] & Hb);
      [destruct E1 as [[E1|E1]|E1] | destruct E2 as [[E2|E2]|E2]];
      try discriminate; zbool; lia.
Qed.

End TemplateFacts.

Lemma slice_from_nonneg (b : bytes) (lo : Z) :
  0 <= lo -> slice_from b lo = drop (Z.to_nat lo) b.
Proof.
  intros H. unfold slice_from, clamp.
  replace (lo <? 0) with false by (symmetry; apply Z.ltb_ge; lia).
  destruct (Z.le_gt_cases lo (len b)).
  - now rewrite Z.min_l.
  - rewrite Z.min_r by lia. unfold len in *.
    rewrite !drop_ge by lia. reflexivity.
Qed.

Lemma slice_inner (b : bytes) (lo cut : Z) :
  0 <= lo -> 0 < cut -> lo + cut <= len b ->
  slice b lo (- cut) = take (Z.to_nat (len b - cut - lo)) (drop (Z.to_nat lo) b).
Proof.
  intros Hlo Hcut Hle. unfold slice, clamp.
  replace (lo <? 0) with false by (symmetry; apply Z.ltb_ge; lia).
  replace (- cut <? 0) with true by (symmetry; apply Z.ltb_lt; lia).
  rewrite Z.min_l, Z.max_r by lia. do 2 f_equal. lia.
Qed.

Section TemplateTheorems.

Variable hash160 : bytes -> bytes.

Ltac bad_tag :=
  match goal with
  | H : type _ = _ |- _ => cbn in H; discriminate H
  end.

Ltac fixed_case :=
  repeat split; try assumption; try bad_tag; try lia;
  try (intros Hbad; cbn in Hbad; discriminate Hbad);
  try (intros (_ & ? & _); lia).

Ltac wrong_tag H :=
  match type of H with
  | _ \/ _ => destruct H as [H|H]; [wrong_tag H | wrong_tag H]
  | _ => congruence
  end.

(** The answer of [parse_script], with the case that produced it, for any
    script, the empty one included. *)
Lemma parse_script_answer (scr : bytes) (segwit : bool) :
  exists d, parse_script hash160 scr segwit = Ok d /\
    (scr = [] /\ d = {| nType := 7; type := "NON_STANDARD";
                        reqSigs := Some 0; addressHash := None;
                        script := Some []; data := None; pubKeys := None |}
     \/ exists b0 e1,
          getitem scr 0 = Ok b0 /\ getitem scr (-1) = Ok e1 /\
          1 <= len scr /\
          ((segwit = true /\ len scr = 22 /\ b0 = 0 /\
            d = address_info 5 (Some 1) (slice_from scr 2)) \/
           (segwit = true /\ len scr = 34 /\ b0 = 0 /\
            d = address_info 6 None (slice_from scr 2)) \/
           (len scr = 25 /\ p2pkh_shape scr /\
            d = address_info 0 (Some 1) (slice scr 3 (-2))) \/
           (len scr = 23 /\ b0 = 169 /\ e1 = 135 /\
            d = address_info 1 None (slice scr 2 (-1))) \/
           ((len scr = 35 \/ len scr = 67) /\ e1 = 172 /\
            d = address_info 2 (Some 1) (hash160 (slice scr 1 (-1)))) \/
           (parse_script_tail scr = Ok d /\
            (type d = "NULL_DATA" \/ type d = "NULL_DATA_NON_STANDARD" \/
             type d = "MULTISIG" \/ type d = "NON_STANDARD") /\
            ~ ((len scr = 35 \/ len scr = 67) /\ e1 = 172) /\
            ~ (len scr = 23 /\ b0 = 169 /\ e1 = 135) /\
            ~ (segwit = true /\ (len scr = 22 \/ len scr = 34) /\ b0 = 0)))).
Proof.
  destruct scr as [|x scr'].
  { eexists. split; [reflexivity|]. left. split; reflexivity. }
  remember (x :: scr') as scr eqn:Hscr.
  assert (Hl : 1 <= len scr) by (subst scr; unfold len; cbn; lia).
  clear Hscr.
  destruct (getitem_ok scr 0) as (b0 & H0 & _); [lia|].
  destruct (getitem_neg scr (-1)) as (e1 & H1 & _); [lia|].
  destruct (parse_script_cases hash160 scr segwit b0 e1 H0 H1)
    as (d & Hd & Hcases).
  exists d. split; [exact Hd|]. right. exists b0, e1. auto.
Qed.

(** X3: with witness recognition switched on, [parse_script] answers
    P2WPKH exactly on the scripts of 22 bytes that start with a zero byte and
    P2WSH exactly on those of 34 bytes that start with a zero byte; the
    address hash is everything after the first two bytes, and the second
    byte (the push opcode) is not looked at. *)
Theorem witness_templates (scr : bytes) (segwit : bool) :
  exists d, parse_script hash160 scr segwit = Ok d /\
    (type d = "P2WPKH" <->
     segwit = true /\ len scr = 22 /\ getitem scr 0 = Ok 0) /\
    (type d = "P2WSH" <->
     segwit = true /\ len scr = 34 /\ getitem scr 0 = Ok 0) /\
    (type d = "P2WPKH" ->
     d = {| nType := 5; type := "P2WPKH"; reqSigs := Some 1;
            addressHash := Some (drop 2 scr); script := None; data := None;
            pubKeys := None |}) /\
    (type d = "P2WSH" ->
     d = {| nType := 6; type := "P2WSH"; reqSigs := None;
            addressHash := Some (drop 2 scr); script := None; data := None;
            pubKeys := None |}).
Proof.
  destruct (parse_script_answer scr segwit)
    as (d & Hd & [[-> ->] | (b0 & e1 & H0 & H1 & Hl & Hcases)]).
  { eexists. split; [reflexivity|].
    repeat split; try discriminate; intros (_ & _ & [=]). }
  exists d. split; [exact Hd|].
  destruct Hcases as [(Hs & Hlen & Hb & ->) | [(Hs & Hlen & Hb & ->) |
    [(Hlen & _ & ->) | [(Hlen & _ & _ & ->) | [(Hlen & _ & ->) |
    (_ & Hty & _ & _ & Hno)]]]]].
  - rewrite slice_from_nonneg by lia. subst b0. fixed_case.
  - rewrite slice_from_nonneg by lia. subst b0. fixed_case.
  - fixed_case.
  - fixed_case.
  - fixed_case.
  - split; [split|split; [split|split]];
      try (intros Hp; rewrite Hp in Hty; wrong_tag Hty).
    + intros (Hs & Hlen & Hg). rewrite H0 in Hg. injection Hg as ->.
      exfalso. apply Hno. auto.
    + intros (Hs & Hlen & Hg). rewrite H0 in Hg. injection Hg as ->.
      exfalso. apply Hno. auto.
Qed.

(** X4: the [segwit] argument changes the answer only on scripts of 22 or
    34 bytes that start with a zero byte. *)
Theorem segwit_flag_scope (scr : bytes) :
  parse_script hash160 scr false = parse_script hash160 scr true \/
  ((len scr = 22 \/ len scr = 34) /\ getitem scr 0 = Ok 0).
Proof.
  destruct scr as [|x scr']; [left; reflexivity|].
  remember (x :: scr') as scr eqn:Hscr.
  assert (Hl : 1 <= len scr) by (subst scr; unfold len; cbn; lia).
  clear Hscr.
  destruct (getitem_ok scr 0) as (b0 & H0 & _); [lia|].
  destruct (getitem_neg scr (-1)) as (e1 & H1 & _); [lia|].
  rewrite !(parse_script_unfold hash160 scr _ b0 e1 H0 H1). cbv zeta.
  cbn [andb].
  destruct (len scr =? 22) eqn:E1; zbool;
    [destruct (b0 =? 0) eqn:E2; zbool; [right; subst b0; auto|] |];
    (destruct (len scr =? 34) eqn:E3; zbool;
       [destruct (b0 =? 0) eqn:E4; zbool; [right; subst b0; auto|] |]);
    cbn [andb]; left; reflexivity.
Qed.

(** X5: [parse_script] answers P2SH exactly on the scripts of 23 bytes that
    start with OP_HASH160 (0xa9) and end with OP_EQUAL (0x87); the answer
    carries the 20 bytes at offsets 2..21 as address hash and no
    signature count. *)
Theorem p2sh_template (scr : bytes) (segwit : bool) :
  exists d, parse_script hash160 scr segwit = Ok d /\
    (type d = "P2SH" <->
     len scr = 23 /\ getitem scr 0 = Ok 169 /\ getitem scr (-1) = Ok 135) /\
    (type d = "P2SH" ->
     d = {| nType := 1; type := "P2SH"; reqSigs := None;
            addressHash := Some (take 20 (drop 2 scr)); script := None;
            data := None; pubKeys := None |}).
Proof.
  destruct (parse_script_answer scr segwit)
    as (d & Hd & [[-> ->] | (b0 & e1 & H0 & H1 & Hl & Hcases)]).
  { eexists. split; [reflexivity|].
    repeat split; try discriminate; intros (_ & [=] & _). }
  exists d. split; [exact Hd|].
  destruct Hcases as [(Hs & Hlen & Hb & ->) | [(Hs & Hlen & Hb & ->) |
    [(Hlen & _ & ->) | [(Hlen & Hb & He & ->) | [(Hlen & _ & ->) |
    (_ & Hty & _ & Hno & _)]]]]].
  - repeat split; try bad_tag; try (intros (? & _ & _); lia);
      intros Hbad; cbn in Hbad; discriminate Hbad.
  - repeat split; try bad_tag; try (intros (? & _ & _); lia);
      intros Hbad; cbn in Hbad; discriminate Hbad.
  - repeat split; try bad_tag; try (intros (? & _ & _); lia);
      intros Hbad; cbn in Hbad; discriminate Hbad.
  - subst b0 e1.
    pose proof (slice_inner scr 2 1 ltac:(lia) ltac:(lia) ltac:(lia)) as Hsl.
    change (- (1)) with (-1) in Hsl. rewrite Hsl, Hlen.
    repeat split; assumption.
  - repeat split; try bad_tag; try (intros (? & _ & _); lia);
      intros Hbad; cbn in Hbad; discriminate Hbad.
  - split; [split|]; try (intros Hp; rewrite Hp in Hty; wrong_tag Hty).
    intros (Hlen & Hb & He). rewrite H0 in Hb. rewrite H1 in He.
    injection Hb as ->. injection He as ->. exfalso. apply Hno. auto.
Qed.

(** X6: [parse_script] answers PUBKEY exactly on the scripts of 35 or 67
    bytes whose last byte is OP_CHECKSIG (0xac), whatever their first byte;
    the address hash is [hash160] of everything between the first and the
    last byte. *)
Theorem pubkey_template (scr : bytes) (segwit : bool) :
  exists d, parse_script hash160 scr segwit = Ok d /\
    (type d = "PUBKEY" <->
     (len scr = 35 \/ len scr = 67) /\ getitem scr (-1) = Ok 172) /\
    (type d = "PUBKEY" ->
     d = {| nType := 2; type := "PUBKEY"; reqSigs := Some 1;
            addressHash :=
              Some (hash160 (take (Z.to_nat (len scr - 2)) (drop 1 scr)));
            script := None; data := None; pubKeys := None |}).
Proof.
  destruct (parse_script_answer scr segwit)
    as (d & Hd & [[-> ->] | (b0 & e1 & H0 & H1 & Hl & Hcases)]).
  { eexists. split; [reflexivity|].
    repeat split; try discriminate; intros (_ & [=]). }
  exists d. split; [exact Hd|].
  destruct Hcases as [(Hs & Hlen & Hb & ->) | [(Hs & Hlen & Hb & ->) |
    [(Hlen & _ & ->) | [(Hlen & Hb & He & ->) | [(Hlen & He & ->) |
    (_ & Hty & Hno & _)]]]]].
  - repeat split; try bad_tag; try (intros ([?|?] & _); lia);
      intros Hbad; cbn in Hbad; discriminate Hbad.
  - repeat split; try bad_tag; try (intros ([?|?] & _); lia);
      intros Hbad; cbn in Hbad; discriminate Hbad.
  - repeat split; try bad_tag; try (intros ([?|?] & _); lia);
      intros Hbad; cbn in Hbad; discriminate Hbad.
  - repeat split; try bad_tag; try (intros ([?|?] & _); lia);
      intros Hbad; cbn in Hbad; discriminate Hbad.
  - subst e1.
    pose proof (slice_inner scr 1 1 ltac:(lia) ltac:(lia) ltac:(lia)) as Hsl.
    change (- (1)) with (-1) in Hsl. rewrite Hsl.
    replace (len scr - 1 - 1) with (len scr - 2) by lia.
    repeat split; assumption.
  - split; [split|]; try (intros Hp; rewrite Hp in Hty; wrong_tag Hty).
    intros (Hlen & He). rewrite H1 in He. injection He as ->.
    exfalso. apply Hno. auto.
Qed.

Ltac tags_solve :=
  cbn; repeat split; intros;
  try lia; try reflexivity; try discriminate;
  try (eexists; reflexivity);
  try match goal with
      | H : is_Some None |- _ => destruct H as [? H]; discriminate H
      end.

(** X7: whatever the input, the dictionary returned by [parse_script] is
    well formed: [nType] is one of 0..8 and [type] is the name that goes
    with it; [addressHash] is present exactly for P2PKH, P2SH, PUBKEY,
    P2WPKH and P2WSH; [reqSigs] is [None] exactly for P2SH and P2WSH;
    [script] is present exactly for MULTISIG, NON_STANDARD and
    NULL_DATA_NON_STANDARD and is then the input itself; [data] is present
    exactly for NULL_DATA and [pubKeys] exactly for MULTISIG. *)
Theorem parse_script_tags (scr : bytes) (segwit : bool) :
  exists d, parse_script hash160 scr segwit = Ok d /\
    0 <= nType d <= 8 /\
    type d = nType_name (nType d) /\
    (is_Some (addressHash d) <->
     nType d = 0 \/ nType d = 1 \/ nType d = 2 \/ nType d = 5 \/
     nType d = 6) /\
    (reqSigs d = None <-> nType d = 1 \/ nType d = 6) /\
    (is_Some (script d) <-> nType d = 4 \/ nType d = 7 \/ nType d = 8) /\
    (is_Some (script d) -> script d = Some scr) /\
    (is_Some (data d) <-> nType d = 3) /\
    (is_Some (pubKeys d) <-> nType d = 4).
Proof.
  destruct (parse_script_answer scr segwit)
    as (d & Hd & [[-> ->] | (b0 & e1 & H0 & H1 & Hl & Hcases)]).
  { eexists. split; [reflexivity|]. tags_solve. }
  exists d. split; [exact Hd|].
  destruct Hcases as [(_ & _ & _ & ->) | [(_ & _ & _ & ->) |
    [(_ & _ & ->) | [(_ & _ & _ & ->) | [(_ & _ & ->) |
    (Htail & _)]]]]]; try solve [tags_solve].
  destruct (parse_script_tail_shape scr Hl)
    as (d' & Hd' & [(p & ->) | [-> | [(m & n & _ & ->) | (r & _ & ->)]]]);
    rewrite Htail in Hd'; injection Hd' as ->; tags_solve.
Qed.

Lemma getitem_last1 (l : bytes) (x : byte) :
  getitem (l ++ [x]) (-1) = Ok (byte_val x).
Proof.
  pose proof (len_nonneg l).
  rewrite getitem_neg_eq by (rewrite len_app; unfold len; cbn [length]; lia).
  apply getitem_at. rewrite len_app. unfold len. cbn [length]. lia.
Qed.

(** X8: for a public key of 33 or 65 bytes, the script built by
    [public_key_to_pubkey_script] is classified PUBKEY by [parse_script],
    with [hash160] of that very key as address hash and one required
    signature; the hex form of the builder is the hex rendering of the same
    bytes. *)
Theorem pubkey_script_classified (key : bytes) (segwit : bool) :
  len key = 33 \/ len key = 65 ->
  exists s,
    public_key_to_pubkey_script key false = Ok (inr s) /\
    public_key_to_pubkey_script key true = Ok (inl (hex s)) /\
    s = byte_of_Z (len key) :: key ++ [xac] /\
    parse_script hash160 s segwit =
      Ok {| nType := 2; type := "PUBKEY"; reqSigs := Some 1;
            addressHash := Some (hash160 key); script := None;
            data := None; pubKeys := None |}.
Proof.
  intros Hk. exists (byte_of_Z (len key) :: key ++ [xac]).
  unfold public_key_to_pubkey_script, bytes1.
  replace ((0 <=? len key) && (len key <? 256))%bool with true
    by (symmetry; apply andb_true_iff;
        split; [apply Z.leb_le | apply Z.ltb_lt]; lia).
  cbn [bind app]. split; [reflexivity|]. split; [reflexivity|].
  split; [reflexivity|].
  set (s := byte_of_Z (len key) :: key ++ [xac]).
  assert (Hlen : len s = len key + 2).
  { unfold s, len. cbn [length]. rewrite length_app. cbn [length]. lia. }
  assert (Hlast : getitem s (-1) = Ok 172)
    by (unfold s; rewrite app_comm_cons; apply getitem_last1).
  destruct (parse_script_answer s segwit)
    as (d & Hd & [[Hnil _] | (b0 & e1 & H0 & H1 & Hl & Hcases)]);
    [discriminate Hnil|].
  rewrite Hd. f_equal. rewrite Hlast in H1. injection H1 as <-.
  destruct Hcases as [(_ & Hc & _) | [(_ & Hc & _) |
    [(Hc & _) | [(Hc & _) | [(_ & _ & ->) | (_ & _ & Hno & _)]]]]];
    try lia.
  pose proof (slice_inner s 1 1 ltac:(lia) ltac:(lia) ltac:(lia)) as Hsl.
  change (- (1)) with (-1) in Hsl. rewrite Hsl, Hlen.
  replace (Z.to_nat (len key + 2 - 1 - 1)) with (length key)
    by (unfold len; lia).
  unfold s. change (Z.to_nat 1) with 1%nat. cbn [drop].
  rewrite drop_0, take_app_length. reflexivity.
Qed.

End TemplateTheorems.

(** A compressed public key of 33 bytes. *)
Lemma pubkey_script_classified_witness :
  parse_script (fun b => b) (x21 :: (x02 :: replicate 32 x11) ++ [xac]) true =
    Ok {| nType := 2; type := "PUBKEY"; reqSigs := Some 1;
          addressHash := Some (x02 :: replicate 32 x11);
          script := None; data := None; pubKeys := None |}.
Proof.
  destruct (pubkey_script_classified (fun b => b)
              (x02 :: replicate 32 x11) true)
    as (s & _ & _ & -> & Hp); [left; reflexivity|].
  exact Hp.
Defined.

(** ** OP_RETURN outputs built with [op_push_data] *)

Section NullData.

Variable hash160 : bytes -> bytes.
Variable int_to_bytes_little : Z -> bytes.

Lemma getitem_1 (x y : byte) (l : bytes) :
  getitem (x :: y :: l) 1 = Ok (byte_val y).
Proof. exact (getitem_at [x] l y 1 eq_refl). Qed.

Lemma getitem_2 (x y z : byte) (l : bytes) :
  getitem (x :: y :: z :: l) 2 = Ok (byte_val z).
Proof. exact (getitem_at [x; y] l z 2 eq_refl). Qed.

Lemma last_byte_of (l : bytes) (e : Z) :
  1 <= len l -> getitem l (-1) = Ok e ->
  exists z, last l = Some z /\ byte_val z = e.
Proof.
  intros Hl He. destruct l as [|x l'] using rev_ind.
  - unfold len in Hl. cbn in Hl. lia.
  - rewrite getitem_last1 in He. injection He as <-.
    exists x. split; [apply last_snoc|reflexivity].
Qed.

(** X9: [OP_RETURN] followed by [op_push_data(p)] for a payload of at most
    80 bytes is classified NULL_DATA with that payload as [data], unless the
    payload has 33 or 65 bytes and ends with 0xac, the one shape the PUBKEY
    test of lines 51-54 catches first. *)
Theorem null_data_of_push (p out : bytes) (segwit : bool) :
  len p <= 80 ->
  ~ ((len p = 33 \/ len p = 65) /\ last p = Some xac) ->
  op_push_data int_to_bytes_little p = Ok out ->
  parse_script hash160 (x6a :: out) segwit =
    Ok {| nType := 3; type := "NULL_DATA"; reqSigs := Some 0;
          addressHash := None; script := None; data := Some p;
          pubKeys := None |}.
Proof.
  intros Hmax Hnot Hout. pose proof (len_nonneg p) as Hp0.
  set (scr := x6a :: out).
  assert (H0 : getitem scr 0 = Ok 106) by apply getitem_head.
  assert (Hshape : (len p <= 75 /\ out = byte_of_Z (len p) :: p) \/
                   (75 < len p /\ out = x4c :: byte_of_Z (len p) :: p)).
  { destruct (op_push_data_header int_to_bytes_little p out Hout)
      as [H|[[H1 H2]|[H|H]]]; [left; exact H | right; split; [lia|exact H2]
                               | lia | lia]. }
  assert (Htail : parse_script_tail scr =
            Ok {| nType := 3; type := "NULL_DATA"; reqSigs := Some 0;
                  addressHash := None; script := None; data := Some p;
                  pubKeys := None |}).
  { unfold parse_script_tail. rewrite H0. cbn [bind].
    change (106 =? OPCODE.OP_RETURN) with true. cbv iota.
    unfold null_data_template. cbv zeta.
    destruct Hshape as [[Hle ->] | [Hgt ->]]; subst scr.
    - assert (Hlen : len (x6a :: byte_of_Z (len p) :: p) = len p + 2)
        by (unfold len; cbn [length]; lia).
      rewrite Hlen.
      replace (len p + 2 =? 1) with false by (symmetry; apply Z.eqb_neq; lia).
      rewrite getitem_1.
      rewrite byte_val_of_Z by lia. cbn [bind].
      replace (len p <? OPCODE.OP_PUSHDATA1) with true
        by (symmetry; apply Z.ltb_lt; unfold OPCODE.OP_PUSHDATA1; lia).
      replace (len p =? len p + 2 - 2) with true
        by (symmetry; apply Z.eqb_eq; lia).
      rewrite slice_from_nonneg by lia. reflexivity.
    - assert (Hlen : len (x6a :: x4c :: byte_of_Z (len p) :: p) = len p + 3)
        by (unfold len; cbn [length]; lia).
      rewrite Hlen.
      replace (len p + 3 =? 1) with false by (symmetry; apply Z.eqb_neq; lia).
      rewrite getitem_1. cbn [bind].
      change (byte_val x4c <? OPCODE.OP_PUSHDATA1) with false.
      change (byte_val x4c =? OPCODE.OP_PUSHDATA1) with true. cbv iota.
      replace (len p + 3 >? 2) with true
        by (symmetry; rewrite Z.gtb_ltb; apply Z.ltb_lt; lia).
      rewrite getitem_2.
      rewrite byte_val_of_Z by lia. cbn [bind].
      replace ((len p =? len p + 3 - 3) && (len p <=? 80))%bool with true.
      2:{ symmetry. apply andb_true_iff.
          split; [apply Z.eqb_eq | apply Z.leb_le]; lia. }
      rewrite slice_from_nonneg by lia. reflexivity. }
  assert (Hlen : (len p <= 75 /\ len scr = len p + 2) \/
                 (75 < len p /\ len scr = len p + 3)).
  { destruct Hshape as [[Hle ->] | [Hgt ->]]; [left|right];
      (split; [lia|]); unfold scr, len; cbn [length]; lia. }
  destruct (parse_script_answer hash160 scr segwit)
    as (d & Hd & [[Hnil _] | (b0 & e1 & H0' & H1 & Hl & Hcases)]);
    [discriminate Hnil|].
  rewrite Hd. rewrite H0 in H0'. injection H0' as <-.
  destruct Hcases as [(_ & _ & Hc & _) | [(_ & _ & Hc & _) |
    [(_ & (x & h & Hc) & _) | [(_ & Hc & _) | [(Hc & He & _) |
    (Ht & _)]]]]]; try lia.
  - discriminate Hc.
  - exfalso. apply Hnot. split; [lia|].
    assert (Hpl : 1 <= len p) by lia.
    assert (Hlast : getitem p (-1) = Ok e1).
    { destruct p as [|y p'] using rev_ind;
        [unfold len in Hpl; cbn in Hpl; lia|].
      rewrite getitem_last1. rewrite <- H1.
      destruct Hshape as [[_ ->] | [_ ->]]; unfold scr; symmetry;
        rewrite !app_comm_cons; apply getitem_last1. }
    destruct (last_byte_of p e1 Hpl Hlast) as (z & Hz & Hv).
    rewrite Hz. f_equal. apply byte_val_inj. rewrite Hv, He. reflexivity.
  - congruence.
Qed.

End NullData.

(** An [OP_RETURN] output carrying the four bytes [de ad be ef]. *)
Lemma null_data_of_push_witness :
  parse_script (fun b => b) [x6a; x04; xde; xad; xbe; xef] true =
    Ok {| nType := 3; type := "NULL_DATA"; reqSigs := Some 0;
          addressHash := None; script := None;
          data := Some [xde; xad; xbe; xef]; pubKeys := None |}.
Proof.
  apply (null_data_of_push (fun b => b) (fun _ => [])
           [xde; xad; xbe; xef] [x04; xde; xad; xbe; xef] true).
  - unfold len. simpl. lia.
  - intros [[H|H] _]; unfold len in H; simpl in H; lia.
  - reflexivity.
Defined.

(** ** The tally of the generic walk *)

Lemma walk_branch_tally (scr : bytes) (st st' : walk_state) :
  0 <= w_n st <= 16 ->
  walk_branch scr st = Ok (Some st') ->
  0 <= w_n st' <= 16 /\
  w_req_sigs st <= w_req_sigs st' <= w_req_sigs st + 20.
Proof.
  intros Hn. unfold walk_branch.
  destruct (getitem_cases scr (w_s st)) as [(b & -> & Hb) | ->];
    [|discriminate]. cbn [bind].
  destruct ((b >=? 81) && (b <=? 96))%bool eqn:E0.
  { zbool. split_ifs; intros [= <-]; cbn; lia. }
  destruct (b <? 76).
  { cbv zeta. split_ifs; intros [= <-]; cbn; lia. }
  destruct (b =? OPCODE.OP_PUSHDATA1).
  { destruct (getitem scr (w_s st + 1)); cbn; try discriminate;
      intros [= <-]; cbn; lia. }
  destruct (b =? OPCODE.OP_PUSHDATA2).
  { destruct (unpack 2 _); cbn; try discriminate; intros [= <-]; cbn; lia. }
  destruct (b =? OPCODE.OP_PUSHDATA4).
  { destruct (unpack 4 _); cbn; try discriminate; intros [= <-]; cbn; lia. }
  intros [= <-]. split_ifs; cbn; lia.
Qed.

Lemma generic_walk_tally (scr : bytes) (fuel : nat) (st : walk_state)
    (r : Z) :
  0 <= w_s st -> 0 <= w_n st <= 16 ->
  generic_walk fuel scr st = Ok r ->
  w_req_sigs st <= r <= w_req_sigs st + 20 * Z.max 0 (len scr - w_s st).
Proof.
  revert st. induction fuel as [|fuel IH]; intros st Hs Hn;
    cbn [generic_walk];
    (destruct (len scr - w_s st >? 0) eqn:E; zbool;
       [|intros [= <-]; lia]); [discriminate|].
  destruct (walk_step_ok scr st) as (res & Hres & Hmono); [lia|].
  rewrite Hres. cbn [bind]. unfold walk_step in Hres.
  destruct (walk_branch scr st) as [[st1|]| |] eqn:Hbr; cbn [bind] in Hres;
    try discriminate; injection Hres as <-.
  - destruct (walk_branch_tally scr st st1 Hn Hbr) as (Hn1 & Hr1).
    destruct (walk_finish_fields st1) as (Hfs & _ & Hfn & Hfr).
    intros Hrun. apply IH in Hrun; [|lia|lia].
    rewrite Hfr in Hrun. lia.
  - intros [= <-]. lia.
Qed.

Section Tally.

Variable hash160 : bytes -> bytes.

(** X10: the signature count that [parse_script] reports for a script it
    calls NON_STANDARD lies between 0 and 20 times the length of the
    script. *)
Theorem non_standard_tally_bound (scr : bytes) (segwit : bool) :
  exists d, parse_script hash160 scr segwit = Ok d /\
    (type d = "NON_STANDARD" ->
     exists r, reqSigs d = Some r /\ 0 <= r <= 20 * len scr).
Proof.
  destruct (parse_script_ok hash160 scr segwit) as (d & Hd).
  exists d. split; [exact Hd|]. intros Hty.
  destruct scr as [|x scr'].
  { injection Hd as <-. exists 0. split; [reflexivity|]. unfold len. cbn. lia. }
  remember (x :: scr') as scr eqn:Hscr.
  assert (Hl : 1 <= len scr) by (subst scr; unfold len; cbn; lia).
  destruct (parse_script_non_standard hash160 scr segwit d Hl Hd Hty)
    as (r & Hr & ->).
  exists r. split; [reflexivity|].
  apply generic_walk_tally in Hr; cbn in Hr; cbn; lia.
Qed.

End Tally.

(** ** The doubled small integer of the generic walk *)

Lemma walk_advance (scr : bytes) (st st' : walk_state) :
  0 <= w_s st -> len scr - w_s st > 0 ->
  walk_step scr st = Ok (Continue st') ->
  generic_walk (length scr) scr st = generic_walk (length scr) scr st'.
Proof.
  intros Hs Hmore Hstep.
  destruct (walk_step_ok scr st) as (r & Hr & Hmono); [lia|].
  rewrite Hstep in Hr. injection Hr as <-.
  rewrite (generic_walk_fuel scr (length scr) (S (length scr)) st)
    by (unfold len in *; lia).
  apply (generic_walk_step scr (length scr) st st' Hmore Hstep).
Qed.

Lemma walk_step_raw (scr : bytes) (st : walk_state) (b : Z) :
  getitem scr (w_s st) = Ok b -> b < 0x4c ->
  w_last st = 0 -> w_m st + 1 <= 16 ->
  walk_step scr st =
    Ok (Continue {| w_s := w_s st + b + 1; w_m := w_m st + 1;
                    w_n := w_n st; w_last := 0;
                    w_req_sigs := w_req_sigs st |}).
Proof.
  intros Hb Hlt Hlast Hm. unfold walk_step, walk_finish, walk_branch.
  rewrite Hb. cbn [bind].
  replace ((b >=? 81) && (b <=? 96))%bool with false
    by (symmetry; apply andb_false_iff; left; rewrite Z.geb_leb;
        apply Z.leb_gt; lia).
  replace (b <? 76) with true by (symmetry; apply Z.ltb_lt; lia).
  cbv zeta. cbn [w_m w_s w_n w_last w_req_sigs set_s set_nm].
  replace (w_m st + 1 >? 16) with false
    by (symmetry; rewrite Z.gtb_ltb; apply Z.ltb_ge; lia).
  cbn. rewrite Hlast. cbn. unfold set_s, set_nm. cbn. rewrite Hlast.
  reflexivity.
Qed.

(** The walk over a run of raw pushes counts them and leaves the rest of
    the state alone. *)
Lemma walk_over_keys (keys : list bytes) (post : bytes) :
  Forall (fun k => len k <= 75) keys ->
  forall (pre : bytes) (st : walk_state),
    w_s st = len pre -> w_last st = 0 ->
    w_m st + Z.of_nat (length keys) <= 16 ->
    let scr := pre ++ concat (raw_push <$> keys) ++ post in
    generic_walk (length scr) scr st =
    generic_walk (length scr) scr
      {| w_s := len pre + len (concat (raw_push <$> keys));
         w_m := w_m st + Z.of_nat (length keys);
         w_n := w_n st; w_last := 0; w_req_sigs := w_req_sigs st |}.
Proof.
  induction 1 as [|k keys Hk _ IH]; intros pre st Hs Hlast Hm scr.
  - f_equal. destruct st. cbn in *. subst. f_equal; unfold len; cbn; lia.
  - subst scr. cbn [fmap list_fmap concat length] in *.
    pose proof (len_nonneg k) as Hk0. pose proof (len_nonneg pre) as Hp0.
    assert (Hget : getitem (pre ++ (raw_push k ++ concat (raw_push <$> keys))
                              ++ post) (w_s st) = Ok (len k)).
    { rewrite Hs. unfold raw_push. cbn [app].
      rewrite getitem_middle, byte_val_of_Z by lia. reflexivity. }
    assert (Hs0 : 0 <= w_s st) by lia.
    pose proof (getitem_in_range _ _ _ Hs0 Hget) as Hin.
    assert (Hm1 : w_m st + 1 <= 16) by lia.
    assert (Hk1 : len k < 76) by lia.
    assert (Hmore : len (pre ++ (raw_push k ++ concat (raw_push <$> keys))
                           ++ post) - w_s st > 0) by lia.
    rewrite (walk_advance _ st _ Hs0 Hmore
               (walk_step_raw _ st (len k) Hget Hk1 Hlast Hm1)).
    specialize (IH (pre ++ raw_push k)
                  {| w_s := w_s st + len k + 1; w_m := w_m st + 1;
                     w_n := w_n st; w_last := 0;
                     w_req_sigs := w_req_sigs st |}).
    cbv zeta in IH. rewrite <- !app_assoc in IH. rewrite <- !app_assoc.
    rewrite IH.
    + f_equal. cbn [w_m w_n w_req_sigs]. f_equal.
      * rewrite !len_app. lia.
      * lia.
    + cbn. rewrite len_app, Hs. unfold raw_push, len. cbn [length]. lia.
    + reflexivity.
    + cbn. lia.
Qed.

Lemma walk_step_first_small (scr : bytes) (st : walk_state) (b : Z) :
  getitem scr (w_s st) = Ok b -> 81 <= b <= 96 ->
  w_n st = 0 -> w_last st = 0 ->
  walk_step scr st =
    Ok (Continue {| w_s := w_s st + 1; w_m := w_m st; w_n := b - 80;
                    w_last := 0; w_req_sigs := w_req_sigs st |}).
Proof.
  intros Hb Hr Hn Hlast. unfold walk_step, walk_finish, walk_branch.
  rewrite Hb. cbn [bind].
  replace ((b >=? 81) && (b <=? 96))%bool with true
    by (symmetry; apply andb_true_iff; rewrite Z.geb_leb;
        split; apply Z.leb_le; lia).
  rewrite Hn. cbn. rewrite Hlast. cbn. unfold set_s, set_nm. cbn.
  rewrite Hlast. reflexivity.
Qed.

(** A small integer equal to the number of pushes counted since the last
    small integer confirms the pair: [last] is armed. *)
Lemma walk_step_confirm (scr : bytes) (st : walk_state) (b : Z) :
  getitem scr (w_s st) = Ok b -> 81 <= b <= 96 ->
  1 <= w_n st <= w_m st -> w_m st = b - 80 -> w_last st = 0 ->
  walk_step scr st =
    Ok (Continue {| w_s := w_s st + 1; w_m := w_m st; w_n := w_n st;
                    w_last := 1; w_req_sigs := w_req_sigs st |}).
Proof.
  intros Hb Hr Hn Hm Hlast. unfold walk_step, walk_finish, walk_branch.
  rewrite Hb. cbn [bind].
  replace ((b >=? 81) && (b <=? 96))%bool with true
    by (symmetry; apply andb_true_iff; rewrite Z.geb_leb;
        split; apply Z.leb_le; lia).
  unfold truthy.
  replace (w_n st =? 0) with false by (symmetry; apply Z.eqb_neq; lia).
  replace (w_m st =? 0) with false by (symmetry; apply Z.eqb_neq; lia).
  replace (w_n st >? w_m st) with false
    by (symmetry; rewrite Z.gtb_ltb; apply Z.ltb_ge; lia).
  replace (w_m st =? b - 80) with true by (symmetry; apply Z.eqb_eq; lia).
  rewrite Hlast. cbn. unfold set_s, set_last. cbn. reflexivity.
Qed.

(** OP_CHECKMULTISIG(VERIFY) met while [last] is armed adds [n]. *)
Lemma walk_step_checkmultisig (scr : bytes) (st : walk_state) (b : Z) :
  getitem scr (w_s st) = Ok b -> b = 174 \/ b = 175 -> w_last st = 1 ->
  walk_step scr st =
    Ok (Continue {| w_s := w_s st + 1; w_m := 0; w_n := 0; w_last := 0;
                    w_req_sigs := w_req_sigs st + w_n st |}).
Proof.
  intros Hb Hr Hlast. unfold walk_step, walk_finish, walk_branch.
  rewrite Hb. cbn [bind].
  destruct Hr as [-> | ->]; cbn; repeat (rewrite Hlast; cbn); reflexivity.
Qed.

Lemma multisig_template_other_end (scr : bytes) (e1 : Z) :
  1 <= len scr -> getitem scr (-1) = Ok e1 -> e1 <> 174 ->
  multisig_template scr = Ok None.
Proof.
  intros Hl H1 Hne. unfold multisig_template.
  destruct (getitem_ok scr 0) as (b0 & -> & _); [lia|]. cbn [bind].
  destruct (_ && _); [|reflexivity]. rewrite H1. cbn [bind].
  replace (e1 =? 174) with false by (symmetry; apply Z.eqb_neq; lia).
  reflexivity.
Qed.

Section VerifyTally.

Variable hash160 : bytes -> bytes.

(** X11: a script [OP_m <key_1> ... <key_n> OP_n OP_CHECKMULTISIGVERIFY]
    with raw-push keys and [1 <= m <= n <= 16] is not a bare multisig for
    [parse_script]; it is NON_STANDARD, and the generic walk reports
    exactly [m] required signatures for it. *)
Theorem multisig_verify_tally (m : Z) (keys : list bytes) (segwit : bool) :
  1 <= m <= Z.of_nat (length keys) -> Z.of_nat (length keys) <= 16 ->
  Forall (fun k => len k <= 75) keys ->
  parse_script hash160 (multisig_verify m keys) segwit =
    Ok {| nType := 7; type := "NON_STANDARD"; reqSigs := Some m;
          addressHash := None; script := Some (multisig_verify m keys);
          data := None; pubKeys := None |}.
Proof.
  intros Hm Hn Hkeys.
  set (N := Z.of_nat (length keys)) in *.
  set (body := concat (raw_push <$> keys)).
  set (scr := multisig_verify m keys).
  assert (Hscr : scr = [byte_of_Z (80 + m)] ++ body
                         ++ [byte_of_Z (80 + N); xaf]) by reflexivity.
  pose proof (len_nonneg body) as Hb0.
  assert (Hlen : len scr = len body + 3).
  { rewrite Hscr, !len_app. unfold len. cbn [length]. lia. }
  assert (H0 : getitem scr 0 = Ok (80 + m)).
  { rewrite Hscr. cbn [app]. rewrite getitem_head, byte_val_of_Z by lia.
    reflexivity. }
  assert (HN : getitem scr (1 + len body) = Ok (80 + N)).
  { transitivity (Ok (byte_val (byte_of_Z (80 + N))));
      [|rewrite byte_val_of_Z by lia; reflexivity].
    rewrite Hscr.
    apply (getitem_at (byte_of_Z (80 + m) :: body) [xaf]).
    unfold len. cbn [length]. lia. }
  assert (Hend : getitem scr (2 + len body) = Ok 175).
  { rewrite Hscr.
    replace ([byte_of_Z (80 + m)] ++ body ++ [byte_of_Z (80 + N); xaf])
      with (([byte_of_Z (80 + m)] ++ body ++ [byte_of_Z (80 + N)]) ++ [xaf])
      by (rewrite <- !app_assoc; reflexivity).
    apply (getitem_at _ [] xaf).
    rewrite !len_app. unfold len. cbn [length]. lia. }
  assert (Hlast : getitem scr (-1) = Ok 175).
  { rewrite getitem_neg_eq by lia. rewrite Hlen.
    replace (-1 + (len body + 3)) with (2 + len body) by lia. exact Hend. }
  assert (Hwalk : generic_walk (length scr) scr walk_init = Ok m).
  { rewrite (walk_advance scr walk_init _ ltac:(cbn; lia) ltac:(cbn; lia)
               (walk_step_first_small scr walk_init (80 + m) H0
                  ltac:(lia) eq_refl eq_refl)).
    pose proof (walk_over_keys keys [byte_of_Z (80 + N); xaf] Hkeys
                  [byte_of_Z (80 + m)]
                  {| w_s := w_s walk_init + 1; w_m := w_m walk_init;
                     w_n := 80 + m - 80; w_last := 0;
                     w_req_sigs := w_req_sigs walk_init |}
                  eq_refl eq_refl ltac:(cbn; fold N; lia)) as Hk.
    cbv zeta in Hk. fold body in Hk. fold N in Hk.
    change (byte_of_Z (80 + m) :: body ++ [byte_of_Z (80 + N); xaf])
      with scr in Hk.
    rewrite <- ?Hscr in Hk. rewrite Hk.
    cbn [w_m w_n w_req_sigs walk_init].
    change (len [byte_of_Z (80 + m)]) with 1.
    set (st2 := {| w_s := 1 + len body; w_m := 0 + N; w_n := 80 + m - 80;
                   w_last := 0; w_req_sigs := 0 |}).
    rewrite (walk_advance scr st2 _ ltac:(cbn; lia) ltac:(cbn; lia)
               (walk_step_confirm scr st2 (80 + N) HN ltac:(lia)
                  ltac:(cbn; lia) ltac:(cbn; lia) eq_refl)).
    cbn [w_s w_m w_n w_req_sigs st2].
    set (st3 := {| w_s := 1 + len body + 1; w_m := 0 + N;
                   w_n := 80 + m - 80; w_last := 1; w_req_sigs := 0 |}).
    assert (Hend' : getitem scr (w_s st3) = Ok 175).
    { cbn. replace (1 + len body + 1) with (2 + len body) by lia.
      exact Hend. }
    rewrite (walk_advance scr st3 _ ltac:(cbn; lia) ltac:(cbn; lia)
               (walk_step_checkmultisig scr st3 175 Hend'
                  ltac:(right; reflexivity) eq_refl)).
    rewrite generic_walk_done by (cbn; lia).
    cbn. f_equal. lia. }
  assert (Htail : parse_script_tail scr =
            Ok {| nType := 7; type := "NON_STANDARD"; reqSigs := Some m;
                  addressHash := None; script := Some scr; data := None;
                  pubKeys := None |}).
  { unfold parse_script_tail. rewrite H0. cbn [bind].
    replace (80 + m =? OPCODE.OP_RETURN) with false
      by (symmetry; apply Z.eqb_neq; unfold OPCODE.OP_RETURN; lia).
    rewrite (multisig_template_other_end scr 175 ltac:(lia) Hlast ltac:(lia)).
    cbn [bind]. rewrite Hwalk. reflexivity. }
  destruct (parse_script_answer hash160 scr segwit)
    as (d & Hd & [[Hnil _] | (b0 & e1 & H0' & H1 & Hl & Hcases)]);
    [discriminate Hnil|].
  rewrite Hd. rewrite H0 in H0'. injection H0' as <-.
  rewrite Hlast in H1. injection H1 as <-.
  destruct Hcases as [(_ & _ & Hc & _) | [(_ & _ & Hc & _) |
    [(_ & (x & h & Hc) & _) | [(_ & Hc & _) | [(_ & Hc & _) |
    (Ht & _)]]]]]; try lia.
  - exfalso. apply (f_equal (fun l => byte_val <$> head l)) in Hc.
    rewrite Hscr in Hc. cbn in Hc. rewrite byte_val_of_Z in Hc by lia.
    injection Hc as Hc. lia.
  - congruence.
Qed.

End VerifyTally.

(** A 2-of-3 script ending in OP_CHECKMULTISIGVERIFY. *)
Lemma multisig_verify_tally_witness :
  parse_script (fun b => b) (multisig_verify 2 keys_2_of_3) true =
    Ok {| nType := 7; type := "NON_STANDARD"; reqSigs := Some 2;
          addressHash := None;
          script := Some (multisig_verify 2 keys_2_of_3);
          data := None; pubKeys := None |}.
Proof.
  apply (multisig_verify_tally (fun b => b) 2 keys_2_of_3 true);
    [simpl; lia | simpl; lia |].
  unfold keys_2_of_3.
  repeat (apply Forall_cons; split; [unfold len; simpl; lia|]).
  apply Forall_nil. exact I.
Defined.

(** ** Reading the keys back out of a multisig script *)

Lemma read_opcode_raw_push (k rest : bytes) :
  len k <= 75 ->
  read_opcode (raw_push k ++ rest)
    = Ok (Some [byte_of_Z (len k)], Some k, rest).
Proof.
  intros Hk. pose proof (len_nonneg k) as H0.
  unfold read_opcode, raw_push.
  change (read 1 ((byte_of_Z (len k) :: k) ++ rest))
    with ([byte_of_Z (len k)], k ++ rest).
  cbn [len length Z.of_nat Z.eqb Pos.of_succ_nat].
  rewrite getitem_head, byte_val_of_Z by lia. cbn [bind].
  replace (len k <=? 75) with true by (symmetry; apply Z.leb_le; lia).
  rewrite read_app. reflexivity.
Qed.

Lemma read_opcode_end : read_opcode [] = Ok (None, None, []).
Proof. reflexivity. Qed.

(** More fuel does not change what the key loop returns. *)
Lemma read_keys_fuel (fuel : nat) :
  forall (extra : nat) (stream : bytes) (o : option bytes)
         (acc r : list bytes),
    read_keys fuel stream o acc = Ok r ->
    read_keys (fuel + extra) stream o acc = Ok r.
Proof.
  induction fuel as [|fuel IH]; intros extra stream o acc r;
    cbn [read_keys Nat.add]; destruct (bytes_truthy o) eqn:E.
  - discriminate.
  - intros H. destruct extra; cbn [read_keys]; rewrite E; exact H.
  - destruct (read_opcode stream) as [[[o' d] stream']| |]; cbn [bind];
      try discriminate. apply IH.
  - auto.
Qed.

Lemma read_keys_over (keys : list bytes) (tail : bytes) :
  Forall (fun k => 1 <= len k <= 75) keys ->
  forall (extra : nat) (o : option bytes) (acc : list bytes),
    bytes_truthy o = true ->
    exists o', bytes_truthy o' = true /\
      read_keys (length keys + extra) (concat (raw_push <$> keys) ++ tail)
        o acc
      = read_keys extra tail o' (acc ++ keys).
Proof.
  induction 1 as [|k keys Hk _ IH]; intros extra o acc Ho.
  - exists o. split; [exact Ho|]. cbn. now rewrite app_nil_r.
  - cbn [fmap list_fmap concat length Nat.add read_keys]. rewrite Ho.
    rewrite <- app_assoc, read_opcode_raw_push by lia. cbn [bind].
    destruct k as [|x k']; [unfold len in Hk; cbn in Hk; lia|].
    destruct (IH extra (Some [byte_of_Z (len (x :: k'))])
                (acc ++ [x :: k']) eq_refl) as (o' & Ho' & Hrun).
    exists o'. split; [exact Ho'|].
    rewrite Hrun, <- app_assoc. reflexivity.
Qed.

(** X12: on a script [OP_m <key_1> ... <key_n> OP_n OP_CHECKMULTISIG] whose
    keys are raw pushes of 1 to 75 bytes, [get_multisig_public_keys] returns
    exactly the keys, in order. *)
Theorem multisig_keys_read_back (m : Z) (keys : list bytes) :
  1 <= m <= 16 -> Z.of_nat (length keys) <= 16 ->
  Forall (fun k => 1 <= len k <= 75) keys ->
  get_multisig_public_keys (bare_multisig m keys) = Ok keys.
Proof.
  intros Hm Hn Hkeys. unfold get_multisig_public_keys, bare_multisig.
  rewrite read_opcode_no_payload by (rewrite byte_val_of_Z; lia).
  cbn [bind].
  set (N := Z.of_nat (length keys)) in *.
  set (tail := [byte_of_Z (80 + N); xae]).
  destruct (read_keys_over keys tail Hkeys 3 (Some [byte_of_Z (80 + m)]) []
              eq_refl) as (o' & Ho' & Hrun).
  assert (Htail : read_keys 3 tail o' ([] ++ keys) = Ok keys).
  { unfold tail. cbn [read_keys]. rewrite Ho'.
    rewrite read_opcode_no_payload by (rewrite byte_val_of_Z; unfold N; lia).
    cbn [bind bytes_truthy].
    rewrite read_opcode_no_payload by (cbn; lia).
    cbn [bind bytes_truthy]. rewrite read_opcode_end. reflexivity. }
  rewrite Htail in Hrun.
  assert (Hfuel : exists extra,
            length (byte_of_Z (80 + m) :: concat (raw_push <$> keys) ++ tail)
            = (length keys + 3 + extra)%nat).
  { exists (length (concat (raw_push <$> keys)) - length keys)%nat.
    unfold tail. cbn [length]. rewrite length_app. cbn [length].
    assert (length keys <= length (concat (raw_push <$> keys)))%nat.
    { clear. induction keys as [|k keys IH]; [cbn; lia|].
      cbn [fmap list_fmap concat length]. rewrite length_app.
      unfold raw_push at 1. cbn [length]. fold (fmap raw_push keys). lia. }
    lia. }
  destruct Hfuel as (extra & ->).
  apply read_keys_fuel. exact Hrun.
Qed.

(** The three keys of the 2-of-3 script. *)
Lemma multisig_keys_read_back_witness :
  get_multisig_public_keys multisig_2_of_3 = Ok keys_2_of_3.
Proof.
  apply (multisig_keys_read_back 2 keys_2_of_3); [lia | simpl; lia |].
  unfold keys_2_of_3.
  repeat (apply Forall_cons; split; [unfold len; simpl; lia|]).
  apply Forall_nil. exact I.
Defined.

(** ** Pushes: encoder, reader and disassembler together *)

Lemma string_append_assoc (a b c : string) :
  (a +:+ b) +:+ c = a +:+ (b +:+ c).
Proof.
  induction a as [|x a IH]; [reflexivity|].
  change (String x ((a +:+ b) +:+ c) = String x (a +:+ (b +:+ c))).
  now rewrite IH.
Qed.

Section PushRoundTrip.

Variable int_to_bytes_little : Z -> bytes.
Variable RAW_OPCODE : Z -> option string.

(** X13: for a payload of at most 75 bytes, [read_opcode] applied to a
    stream that starts with [op_push_data(p)] returns the one-byte header,
    the payload [p] itself, and leaves exactly the bytes that follow. *)
Theorem push_read_back (p rest : bytes) :
  len p <= 75 ->
  exists out,
    op_push_data int_to_bytes_little p = Ok out /\
    read_opcode (out ++ rest)
      = Ok (Some [byte_of_Z (len p)], Some p, rest).
Proof.
  intros Hp. exists (raw_push p). split.
  - apply (read_opcode_short_push int_to_bytes_little p Hp).
  - apply read_opcode_raw_push. exact Hp.
Qed.

Lemma decode_loop_step (scr : bytes) (asm : bool) (fuel : nat) (s s' : Z)
    (tokens tokens' : list string) :
  len scr - s > 0 ->
  decode_turn RAW_OPCODE scr asm s tokens = Next s' tokens' ->
  decode_loop RAW_OPCODE (S fuel) scr asm s tokens
    = decode_loop RAW_OPCODE fuel scr asm s' tokens'.
Proof.
  intros Hmore Hturn. cbn [decode_loop].
  replace (len scr - s >? 0) with true
    by (symmetry; rewrite Z.gtb_ltb; apply Z.ltb_lt; lia).
  now rewrite Hturn.
Qed.

Lemma decode_loop_end (scr : bytes) (asm : bool) (fuel : nat) (s : Z)
    (tokens : list string) :
  len scr - s <= 0 ->
  decode_loop RAW_OPCODE fuel scr asm s tokens = Ok (s, tokens, false).
Proof.
  intros H. destruct fuel; cbn [decode_loop];
    (destruct (len scr - s >? 0) eqn:E; zbool; [lia|reflexivity]).
Qed.

(** X14: in asm mode the disassembler renders [op_push_data(p)], for a
    payload of 1 to 255 bytes, as the opcode token with the length, followed
    by the hex of the payload: [OP_PUSHBYTES[n] <hex>] up to 75 bytes,
    [OP_PUSHDATA1[n] <hex>] above. *)
Theorem decode_of_push (p out : bytes) :
  1 <= len p <= 255 ->
  op_push_data int_to_bytes_little p = Ok out ->
  decode_script RAW_OPCODE out true =
    Ok ((if len p <=? 75 then "OP_PUSHBYTES[" else "OP_PUSHDATA1[")
        +:+ dec (len p) +:+ "] " +:+ hex p).
Proof.
  intros Hp Hout.
  destruct (op_push_data_header int_to_bytes_little p out Hout)
    as [[Hle ->] | [[Hr ->] | [[Hr _] | [Hr _]]]]; try lia.
  - replace (len p <=? 75) with true by (symmetry; apply Z.leb_le; lia).
    assert (Hsl : slice (byte_of_Z (len p) :: p) (0 + 1) (0 + 1 + len p) = p).
    { pose proof (slice_middle [byte_of_Z (len p)] p [] 1 (1 + len p)
                    eq_refl eq_refl) as H.
      rewrite app_nil_r in H. exact H. }
    unfold decode_script. change (length (byte_of_Z (len p) :: p))
      with (S (length p)).
    assert (Hturn : decode_turn RAW_OPCODE (byte_of_Z (len p) :: p) true 0 []
                    = Next (0 + (len p + 1))
                        ["OP_PUSHBYTES[" +:+ dec (len p) +:+ "]"; hex p]).
    { unfold decode_turn. rewrite getitem_head, byte_val_of_Z by lia.
      replace ((len p <? 76) && truthy (len p))%bool with true.
      2:{ symmetry. apply andb_true_iff. split; [apply Z.ltb_lt; lia|].
          unfold truthy. apply negb_true_iff, Z.eqb_neq. lia. }
      rewrite Hsl. reflexivity. }
    assert (Hmore : len (byte_of_Z (len p) :: p) - 0 > 0)
      by (unfold len; cbn [length]; lia).
    rewrite (decode_loop_step _ _ _ _ _ _ _ Hmore Hturn).
    rewrite decode_loop_end by (unfold len in *; cbn [length] in *; lia).
    cbn [bind String.concat]. rewrite !string_append_assoc. reflexivity.
  - replace (len p <=? 75) with false by (symmetry; apply Z.leb_gt; lia).
    assert (Hsl : slice (x4c :: byte_of_Z (len p) :: p) (0 + 2)
                    (0 + 2 + len p) = p).
    { pose proof (slice_middle [x4c; byte_of_Z (len p)] p [] 2 (2 + len p)
                    eq_refl eq_refl) as H.
      rewrite app_nil_r in H. exact H. }
    unfold decode_script. change (length (x4c :: byte_of_Z (len p) :: p))
      with (S (S (length p))).
    assert (Hturn : decode_turn RAW_OPCODE
                      (x4c :: byte_of_Z (len p) :: p) true 0 []
                    = Next (0 + (1 + len p + 1))
                        ["OP_PUSHDATA1[" +:+ dec (len p) +:+ "]"; hex p]).
    { unfold decode_turn. rewrite getitem_head.
      change ((byte_val x4c <? 76) && truthy (byte_val x4c))%bool with false.
      change (byte_val x4c =? OPCODE.OP_PUSHDATA1) with true. cbv iota.
      change (0 + 1) with 1. rewrite getitem_1, byte_val_of_Z by lia.
      rewrite Hsl. reflexivity. }
    assert (Hmore : len (x4c :: byte_of_Z (len p) :: p) - 0 > 0)
      by (unfold len; cbn [length]; lia).
    rewrite (decode_loop_step _ _ _ _ _ _ _ Hmore Hturn).
    rewrite decode_loop_end by (unfold len in *; cbn [length] in *; lia).
    cbn [bind String.concat]. rewrite !string_append_assoc. reflexivity.
Qed.

End PushRoundTrip.

(** The payload [de ad] through the encoder and the disassembler. *)
Lemma decode_of_push_witness :
  decode_script (fun _ => None) [x02; xde; xad] true
    = Ok "OP_PUSHBYTES[2] dead".
Proof.
  apply (decode_of_push (fun _ => []) (fun _ => None) [xde; xad]
           [x02; xde; xad]); [unfold len; simpl; lia | reflexivity].
Defined.

(** The payload [de ad] through the encoder and the reader. *)
Lemma push_read_back_witness :
  read_opcode ([x02; xde; xad] ++ [xac])
    = Ok (Some [x02], Some [xde; xad], [xac]).
Proof.
  destruct (push_read_back (fun _ => []) [xde; xad] [xac])
    as (out & Hout & Hread); [unfold len; simpl; lia|].
  injection Hout as <-. exact Hread.
Defined.

(** ** Scripts of one-byte opcodes through the disassembler *)

Section PlainScripts.

Variable RAW_OPCODE : Z -> option string.

Lemma plain_opcode_tests (x : byte) :
  plain_opcode x ->
  ((byte_val x <? 0x4c) && truthy (byte_val x))%bool = false /\
  (byte_val x =? OPCODE.OP_PUSHDATA1) = false /\
  (byte_val x =? OPCODE.OP_PUSHDATA2) = false /\
  (byte_val x =? OPCODE.OP_PUSHDATA4) = false.
Proof.
  unfold plain_opcode, OPCODE.OP_PUSHDATA1, OPCODE.OP_PUSHDATA2,
    OPCODE.OP_PUSHDATA4, truthy.
  intros [H | H]; repeat split;
    try (apply Z.eqb_neq; lia).
  - rewrite H. reflexivity.
  - apply andb_false_iff. left. apply Z.ltb_ge. lia.
Qed.

Lemma decode_turn_plain (scr : bytes) (asm : bool) (s : Z)
    (tokens : list string) (x : byte) (name : string) :
  getitem scr s = Ok (byte_val x) ->
  plain_opcode x ->
  RAW_OPCODE (byte_val x) = Some name ->
  decode_turn RAW_OPCODE scr asm s tokens = Next (s + 1) (tokens ++ [name]).
Proof.
  intros Hget Hplain Hname.
  destruct (plain_opcode_tests x Hplain) as (H0 & H1 & H2 & H4).
  unfold decode_turn. now rewrite Hget, H0, H1, H2, H4, Hname.
Qed.

Lemma decode_loop_plain (rest : bytes) (names : list string) :
  Forall2 (fun x name =>
             plain_opcode x /\ RAW_OPCODE (byte_val x) = Some name)
          rest names ->
  forall (pre : bytes) (tokens : list string) (fuel : nat) (asm : bool),
  (length rest <= fuel)%nat ->
  decode_loop RAW_OPCODE fuel (pre ++ rest) asm (len pre) tokens
    = Ok (len (pre ++ rest), tokens ++ names, false).
Proof.
  induction 1 as [|x name rest names [Hplain Hname] _ IH];
    intros pre tokens fuel asm Hfuel.
  - rewrite !app_nil_r. apply decode_loop_end. lia.
  - destruct fuel as [|fuel]; [cbn [length] in Hfuel; lia|].
    assert (Hmore : len (pre ++ x :: rest) - len pre > 0)
      by (rewrite len_app; unfold len; cbn [length]; lia).
    rewrite (decode_loop_step RAW_OPCODE _ asm fuel _ _ tokens _ Hmore
               (decode_turn_plain _ asm _ tokens x name
                  (getitem_middle pre rest x) Hplain Hname)).
    replace (len pre + 1) with (len (pre ++ [x]))
      by (rewrite len_app; reflexivity).
    replace (pre ++ x :: rest) with ((pre ++ [x]) ++ rest)
      by (now rewrite <- app_assoc).
    rewrite IH by (cbn [length] in Hfuel; lia).
    rewrite <- (app_assoc tokens). reflexivity.
Qed.

(** X15: a script in which every byte is a one-byte opcode (zero, or above
    [OP_PUSHDATA4]) with a name in the opcode table is rendered, in both
    modes, as the names of its bytes in order, joined by single spaces; the
    failure marker never appears. *)
Theorem decode_plain_script (scr : bytes) (names : list string)
    (asm : bool) :
  Forall2 (fun x name =>
             plain_opcode x /\ RAW_OPCODE (byte_val x) = Some name)
          scr names ->
  decode_script RAW_OPCODE scr asm = Ok (String.concat " " names).
Proof.
  intros H. unfold decode_script.
  change scr with ([] ++ scr) at 2.
  change 0 with (len []).
  rewrite (decode_loop_plain scr names H [] [] (length scr) asm) by lia.
  reflexivity.
Qed.

End PlainScripts.

(** The script [OP_DUP OP_CHECKSIG] with a two-entry opcode table. *)
Lemma decode_plain_script_witness :
  decode_script
    (fun z => if z =? 0x76 then Some "OP_DUP"
              else if z =? 0xac then Some "OP_CHECKSIG" else None)
    [x76; xac] false
  = Ok "OP_DUP OP_CHECKSIG".
Proof.
  apply (decode_plain_script _ [x76; xac] ["OP_DUP"; "OP_CHECKSIG"] false).
  repeat constructor; right; cbn; lia.
Defined.

(** ** Scripts of one-byte opcodes through the subscript remover *)

Lemma remove_skip_drop (sub : bytes) (scr : bytes) (n : nat) :
  remove_skip sub n scr = remove_skip sub 0 (drop n scr).
Proof.
  revert n. induction scr as [|x scr IH]; intros [|n]; try reflexivity.
  cbn [remove_skip drop]. apply IH.
Qed.

Lemma remove_skip_match (sub l : bytes) :
  sub <> [] -> take (length sub) l = sub ->
  remove_skip sub 0 l = remove_skip sub 0 (drop (length sub) l).
Proof.
  intros Hsub Htake. destruct l as [|y rest].
  - rewrite take_nil in Htake. congruence.
  - cbn [remove_skip]. rewrite bool_decide_eq_true_2 by exact Htake.
    rewrite remove_skip_drop. destruct sub as [|a sub]; [congruence|].
    cbn [length drop Nat.sub]. now rewrite Nat.sub_0_r.
Qed.

Lemma remove_skip_nomatch (sub rest : bytes) (y : byte) :
  take (length sub) (y :: rest) <> sub ->
  remove_skip sub 0 (y :: rest) = y :: remove_skip sub 0 rest.
Proof.
  intros H. cbn [remove_skip]. now rewrite bool_decide_eq_false_2.
Qed.

Lemma remove_skip_short (sub l : bytes) :
  (length l < length sub)%nat -> remove_skip sub 0 l = l.
Proof.
  induction l as [|y l IH]; intros Hl; [reflexivity|].
  rewrite remove_skip_nomatch.
  - rewrite IH by (cbn [length] in Hl; lia). reflexivity.
  - intros H. apply (f_equal length) in H. rewrite length_take in H. lia.
Qed.

Lemma slice_nonneg (b : bytes) (lo hi : Z) :
  0 <= lo -> 0 <= hi ->
  slice b lo hi = take (Z.to_nat hi - Z.to_nat lo) (drop (Z.to_nat lo) b).
Proof.
  intros Hlo Hhi. unfold slice, clamp.
  replace (lo <? 0) with false by (symmetry; apply Z.ltb_ge; lia).
  replace (hi <? 0) with false by (symmetry; apply Z.ltb_ge; lia).
  pose proof (len_nonneg b) as Hb. unfold len in *.
  destruct (Z.le_gt_cases lo (Z.of_nat (length b))) as [H1|H1].
  - rewrite (Z.min_l lo) by lia.
    destruct (Z.le_gt_cases hi (Z.of_nat (length b))) as [H2|H2].
    + rewrite Z.min_l by lia. f_equal. lia.
    + rewrite Z.min_r by lia.
      rewrite !take_ge by (rewrite length_drop; lia). reflexivity.
  - rewrite !drop_ge by lia. now rewrite !take_nil.
Qed.

Lemma pop_until_ones (n : nat) (t : Z) :
  pop_until (t + Z.of_nat n) t (replicate n 1) = Ok [].
Proof.
  revert t. induction n as [|n IH]; intros t.
  - cbn [replicate pop_until]. now rewrite Z.add_0_r, Z.eqb_refl.
  - cbn [replicate pop_until].
    replace (t =? t + Z.of_nat (S n)) with false
      by (symmetry; apply Z.eqb_neq; lia).
    cbn [negb]. replace (t + Z.of_nat (S n)) with (t + 1 + Z.of_nat n) by lia.
    apply IH.
Qed.

Lemma unit_size_plain (scr : bytes) (s : Z) (x : byte) :
  getitem scr s = Ok (byte_val x) -> plain_opcode x ->
  unit_size scr s = Ok 1.
Proof.
  intros Hget Hplain.
  destruct (plain_opcode_tests x Hplain) as (H0 & H1 & H2 & H4).
  unfold unit_size. rewrite Hget. cbn [bind].
  change 76 with 0x4c. now rewrite H0, H1, H2, H4.
Qed.

Lemma delete_loop_step (scr sub : bytes) (fuel : nat)
    (st st' : delete_state) :
  len scr - d_s st > 0 ->
  delete_turn scr sub st = Ok st' ->
  delete_loop (S fuel) scr sub st = delete_loop fuel scr sub st'.
Proof.
  intros Hmore Hturn. cbn [delete_loop].
  replace (len scr - d_s st >? 0) with true
    by (symmetry; rewrite Z.gtb_ltb; apply Z.ltb_lt; lia).
  now rewrite Hturn.
Qed.

Lemma delete_loop_end (scr sub : bytes) (fuel : nat) (st : delete_state) :
  len scr - d_s st <= 0 -> delete_loop fuel scr sub st = Ok st.
Proof.
  intros H. destruct fuel; cbn [delete_loop];
    (destruct (len scr - d_s st >? 0) eqn:E; zbool; [lia|reflexivity]).
Qed.

Lemma delete_turn_plain (pre post sub : bytes) (st : delete_state) :
  Forall plain_opcode pre -> 1 <= len sub ->
  delete_inv (pre ++ post) sub st -> d_s st < len pre ->
  exists st', delete_turn (pre ++ post) sub st = Ok st' /\
    delete_inv (pre ++ post) sub st' /\ d_s st' = d_s st + 1.
Proof.
  intros Hplain Hls (Hk & Hwin & Hstack & Hout) Hs.
  destruct st as [s k stack result].
  cbn [d_s d_k d_stack d_result] in *. subst stack.
  assert (Hlen : len (pre ++ post) = len pre + len post) by apply len_app.
  pose proof (len_nonneg post) as Hpost.
  remember (pre ++ post) as scr eqn:Hscr.
  destruct (getitem_nonneg scr s) as (x & Hx & Hg); [lia|].
  assert (Hpx : plain_opcode x).
  { apply (Forall_lookup_1 _ pre (Z.to_nat s) x Hplain).
    rewrite Hscr, lookup_app_l in Hx by (unfold len in Hs; lia). exact Hx. }
  unfold delete_turn. cbn [d_s d_k d_stack d_result].
  rewrite (unit_size_plain scr s x Hg Hpx). cbn [bind]. cbv zeta.
  destruct (s + 1 - k >=? len sub) eqn:E; zbool.
  - assert (Hfull : s + 1 - k = len sub) by lia.
    assert (Hst : slice_to (slice scr k (s + 1)) (len sub)
                  = take (length sub) (drop (Z.to_nat k) scr)).
    { rewrite slice_to_nonneg, slice_nonneg by lia.
      unfold len in *. rewrite Nat2Z.id, take_take. f_equal. lia. }
    rewrite Hst.
    destruct (bool_decide (take (length sub) (drop (Z.to_nat k) scr) = sub))
      eqn:Eb.
    + apply bool_decide_eq_true in Eb.
      replace (s + 1 - k >? len sub) with false
        by (symmetry; rewrite Z.gtb_ltb; apply Z.ltb_ge; lia).
      rewrite <- replicate_S_end.
      replace (s + 1 - k) with (0 + Z.of_nat (S (Z.to_nat (s - k)))) by lia.
      rewrite pop_until_ones. cbn [bind].
      eexists. split; [reflexivity|]. split; [|reflexivity].
      unfold delete_inv. cbn [d_s d_k d_stack d_result].
      repeat split; try lia.
      * now replace (s + 1 - (s + 1)) with 0 by lia.
      * rewrite <- Hout. f_equal.
        rewrite (remove_skip_match sub (drop (Z.to_nat k) scr))
          by (try exact Eb; intros ->; unfold len in Hls; cbn in Hls; lia).
        rewrite drop_drop. do 2 f_equal. unfold len in *. lia.
    + apply bool_decide_eq_false in Eb.
      rewrite <- replicate_cons_app.
      eexists. split; [reflexivity|]. split; [|reflexivity].
      unfold delete_inv. cbn [d_s d_k d_stack d_result].
      repeat split; try lia.
      * f_equal. lia.
      * destruct (getitem_nonneg scr k) as (y & Hy & _); [lia|].
        rewrite (drop_S scr y _ Hy) in Hout, Eb.
        rewrite remove_skip_nomatch in Hout by exact Eb.
        rewrite <- Hout, concat_app, <- app_assoc. f_equal.
        rewrite slice_nonneg by lia.
        replace (Z.to_nat (k + 1) - Z.to_nat k)%nat with 1%nat by lia.
        rewrite (drop_S scr y _ Hy). cbn [take concat app].
        replace (Z.to_nat (k + 1)) with (S (Z.to_nat k)) by lia.
        reflexivity.
  - eexists. split; [reflexivity|]. split; [|reflexivity].
    unfold delete_inv. cbn [d_s d_k d_stack d_result].
    repeat split; try lia; [|exact Hout].
    replace (Z.to_nat (s + 1 - k)) with (S (Z.to_nat (s - k))) by lia.
    now rewrite replicate_S_end.
Qed.

Lemma delete_loop_plain (pre post sub : bytes) :
  Forall plain_opcode pre -> 1 <= len sub ->
  forall (m : nat) (st : delete_state) (fuel : nat),
  delete_inv (pre ++ post) sub st -> d_s st + Z.of_nat m = len pre ->
  exists st', delete_inv (pre ++ post) sub st' /\ d_s st' = len pre /\
    delete_loop (m + fuel) (pre ++ post) sub st
      = delete_loop fuel (pre ++ post) sub st'.
Proof.
  intros Hplain Hls. induction m as [|m IH]; intros st fuel Hinv Hm.
  - exists st. split; [exact Hinv|]. split; [lia | reflexivity].
  - destruct (delete_turn_plain pre post sub st Hplain Hls Hinv)
      as (st1 & Hturn & Hinv1 & Hs1); [lia|].
    destruct (IH st1 fuel Hinv1) as (st' & Hinv' & Hs' & Hloop); [lia|].
    exists st'. split; [exact Hinv'|]. split; [exact Hs'|].
    rewrite <- Hloop. apply delete_loop_step; [|exact Hturn].
    rewrite len_app. pose proof (len_nonneg post). lia.
Qed.

Lemma delete_inv_init (scr sub : bytes) :
  1 <= len sub ->
  delete_inv scr sub {| d_s := 0; d_k := 0; d_stack := []; d_result := [] |}.
Proof.
  intros Hls. unfold delete_inv. cbn [d_s d_k d_stack d_result].
  repeat split; try lia; reflexivity.
Qed.

(** The whole call on a script of one-byte opcodes. *)
Lemma delete_plain_result (scr sub : bytes) :
  Forall plain_opcode scr -> sub <> [] ->
  delete_from_script scr sub = Ok (remove_skip sub 0 scr).
Proof.
  intros Hplain Hsub.
  assert (Hls : 1 <= len sub)
    by (destruct sub; [congruence | unfold len; cbn [length]; lia]).
  destruct (delete_loop_plain scr [] sub Hplain Hls (length scr) _ 0%nat
              (delete_inv_init _ sub Hls))
    as (st & (Hk & Hwin & _ & Hout) & Hs & Hloop);
    [unfold len; cbn [d_s]; lia|].
  rewrite app_nil_r, Nat.add_0_r in *.
  rewrite (delete_loop_end scr sub 0 st) in Hloop by lia.
  unfold delete_from_script. destruct sub as [|a sub']; [congruence|].
  remember (a :: sub') as sub eqn:Esub. rewrite Hloop. cbn [bind]. cbv zeta.
  destruct st as [s k stack result]. cbn [d_s d_k d_stack d_result] in *.
  subst s.
  assert (Hrest : forall hi, len scr <= hi ->
            slice scr k hi = drop (Z.to_nat k) scr).
  { intros hi Hhi. rewrite slice_nonneg by lia.
    apply take_ge. rewrite length_drop. unfold len in *. lia. }
  assert (Hshort : (length (drop (Z.to_nat k) scr) < length sub)%nat)
    by (rewrite length_drop; unfold len in *; lia).
  rewrite !Hrest by lia.
  rewrite slice_to_nonneg by lia.
  rewrite take_ge by (unfold len; lia).
  rewrite bool_decide_eq_false_2
    by (intros H; apply (f_equal length) in H; lia).
  rewrite concat_app. cbn [concat]. rewrite app_nil_r.
  rewrite remove_skip_short in Hout by exact Hshort. now rewrite Hout.
Qed.

Lemma remove_skip_single (op : byte) (scr : bytes) :
  remove_skip [op] 0 scr = filter (fun x => x <> op) scr.
Proof.
  induction scr as [|x scr IH]; [reflexivity|].
  cbn [remove_skip length take Nat.sub].
  destruct (decide (x = op)) as [->|Hne].
  - rewrite bool_decide_eq_true_2 by reflexivity.
    rewrite filter_cons_False by (intros H; now apply H). exact IH.
  - rewrite bool_decide_eq_false_2 by congruence.
    rewrite filter_cons_True by exact Hne. now rewrite IH.
Qed.

Lemma getitem_past_end (b : bytes) (i : Z) :
  len b <= i -> getitem b i = Raise IndexError.
Proof.
  intros H. pose proof (len_nonneg b). unfold getitem.
  replace (i <? 0) with false by (symmetry; apply Z.ltb_ge; lia).
  cbv zeta. replace (i <? len b) with false
    by (symmetry; apply Z.ltb_ge; lia).
  now rewrite andb_false_r.
Qed.

(** X16: on a script of one-byte opcodes, deleting a one-byte subscript
    removes every occurrence of that byte and keeps the other bytes in
    order. *)
Theorem delete_single_opcode (scr : bytes) (op : byte) :
  Forall plain_opcode scr ->
  delete_from_script scr [op] = Ok (filter (fun x => x <> op) scr).
Proof.
  intros Hplain. rewrite delete_plain_result by (assumption || discriminate).
  now rewrite remove_skip_single.
Qed.

(** [OP_CODESEPARATOR] taken out of [OP_DUP OP_CODESEPARATOR OP_CHECKSIG]. *)
Lemma delete_single_opcode_witness :
  delete_from_script [x76; xab; xac] [xab] = Ok [x76; xac].
Proof.
  apply (delete_single_opcode [x76; xab; xac] xab).
  repeat constructor; right; cbn; lia.
Defined.

(** X17: on a script of one-byte opcodes the subscript remover never
    raises, and its answer is the script with the occurrences of the
    subscript removed from left to right, each occurrence whole, the search
    resuming after it; an empty subscript leaves the script as it is. *)
Theorem delete_from_plain_script (scr sub : bytes) :
  Forall plain_opcode scr ->
  delete_from_script scr sub = Ok (remove_occurrences sub scr).
Proof.
  intros Hplain. destruct sub as [|a sub']; [reflexivity|].
  now apply delete_plain_result.
Qed.

(** [OP_1 OP_2] taken out of [OP_1 OP_1 OP_2 OP_2 OP_1]. *)
Lemma delete_from_plain_script_witness :
  delete_from_script [x51; x51; x52; x52; x51] [x51; x52]
    = Ok [x51; x52; x51].
Proof.
  apply (delete_from_plain_script [x51; x51; x52; x52; x51] [x51; x52]).
  repeat constructor; right; cbn; lia.
Defined.

(** X18: a script of one-byte opcodes followed by a lone [OP_PUSHDATA1]
    byte makes the subscript remover raise [IndexError], whatever non-empty
    subscript is to be removed: the length byte is read past the end, and
    nothing catches the exception. *)
Theorem delete_raises_on_cut_pushdata1 (pre sub : bytes) :
  Forall plain_opcode pre -> sub <> [] ->
  delete_from_script (pre ++ [x4c]) sub = Raise IndexError.
Proof.
  intros Hplain Hsub.
  assert (Hls : 1 <= len sub)
    by (destruct sub; [congruence | unfold len; cbn [length]; lia]).
  destruct (delete_loop_plain pre [x4c] sub Hplain Hls (length pre) _ 1%nat
              (delete_inv_init _ sub Hls))
    as (st & _ & Hs & Hloop); [unfold len; cbn [d_s]; lia|].
  unfold delete_from_script. destruct sub as [|a sub']; [congruence|].
  rewrite length_app. cbn [length]. rewrite Hloop.
  cbn [delete_loop]. rewrite Hs.
  replace (len (pre ++ [x4c]) - len pre >? 0) with true
    by (symmetry; rewrite Z.gtb_ltb; apply Z.ltb_lt; rewrite len_app;
        unfold len; cbn [length]; lia).
  unfold delete_turn, unit_size. rewrite Hs, getitem_middle.
  cbn [bind].
  change ((byte_val x4c <? 76) && truthy (byte_val x4c))%bool with false.
  change (byte_val x4c =? OPCODE.OP_PUSHDATA1) with true. cbv iota.
  rewrite getitem_past_end
    by (rewrite len_app; unfold len; cbn [length]; lia).
  reflexivity.
Qed.

(** [OP_DUP] followed by a lone [OP_PUSHDATA1]. *)
Lemma delete_raises_on_cut_pushdata1_witness :
  delete_from_script ([x76] ++ [x4c]) [xac] = Raise IndexError.
Proof.
  apply (delete_raises_on_cut_pushdata1 [x76] [xac]);
    [repeat constructor; right; cbn; lia | discriminate].
Defined.

(** ** From a script to its address *)

Section AddressFacts.

Variable hash160 : bytes -> bytes.
Variable hash_to_address : bytes -> bool -> bool -> option Z -> string.

(** X19: [script_to_address] never raises, and which call of
    [hash_to_address] it makes is fixed by the shape of the script alone:
    a witness-version-0 key hash for 22 bytes starting with zero, a
    witness-version-0 script hash for 34 bytes starting with zero, a plain
    key hash for the P2PKH frame and for a 35- or 67-byte script ending in
    [OP_CHECKSIG] (there the hash is [hash160] of the key), a plain script
    hash for the P2SH frame; on every other script, the empty one included,
    the answer is [None]. *)
Theorem script_to_address_templates (scr : bytes) (testnet : bool) :
  let first z := getitem scr 0 = Ok z in
  let last z := getitem scr (-1) = Ok z in
  let address := fun h script_hash witness_version =>
    Some (hash_to_address h testnet script_hash witness_version) in
  exists r, script_to_address hash160 hash_to_address scr testnet = Ok r /\
    ((len scr = 22 /\ first 0 /\
      r = address (slice_from scr 2) false (Some 0)) \/
     (len scr = 34 /\ first 0 /\
      r = address (slice_from scr 2) true (Some 0)) \/
     (len scr = 25 /\ p2pkh_shape scr /\
      r = address (slice scr 3 (-2)) false None) \/
     (len scr = 23 /\ first 169 /\ last 135 /\
      r = address (slice scr 2 (-1)) true None) \/
     ((len scr = 35 \/ len scr = 67) /\ last 172 /\
      r = address (hash160 (slice scr 1 (-1))) false None) \/
     (r = None /\
      ~ ((len scr = 22 \/ len scr = 34) /\ first 0) /\
      ~ (len scr = 25 /\ p2pkh_shape scr) /\
      ~ (len scr = 23 /\ first 169 /\ last 135) /\
      ~ ((len scr = 35 \/ len scr = 67) /\ last 172))).
Proof.
  cbv zeta. unfold script_to_address.
  destruct scr as [|x scr'].
  { eexists. split; [reflexivity|]. do 5 right.
    split; [reflexivity|].
    repeat split; unfold len; cbn [length]; lia. }
  remember (x :: scr') as scr eqn:Hscr.
  assert (Hl : 1 <= len scr) by (subst scr; unfold len; cbn; lia).
  clear Hscr.
  destruct (getitem_ok scr 0) as (b0 & H0 & _); [lia|].
  destruct (getitem_neg scr (-1)) as (e1 & H1 & _); [lia|].
  rewrite (parse_script_unfold hash160 scr true b0 e1 H0 H1). cbv zeta.
  rewrite H0, H1. cbn [andb].
  destruct ((len scr =? 22) && (b0 =? 0))%bool eqn:E1.
  { zbool. subst b0. eexists. split; [reflexivity|]. left. auto. }
  destruct ((len scr =? 34) && (b0 =? 0))%bool eqn:E2.
  { zbool. subst b0. eexists. split; [reflexivity|]. right. left. auto. }
  destruct ((len scr =? 25) && bool_decide (slice_to scr 2 = [x76; xa9])
            && bool_decide (slice_from scr (-2) = [x88; xac]))%bool eqn:E3.
  { zbool. apply bool_decide_eq_true in H2, H3.
    eexists. split; [reflexivity|]. do 2 right. left.
    split; [assumption|]. split; [|reflexivity].
    apply p2pkh_shape_iff; [unfold len in *; lia | tauto]. }
  destruct ((len scr =? 23) && (b0 =? 169) && (e1 =? 135))%bool eqn:E4.
  { zbool. subst b0 e1. eexists. split; [reflexivity|]. do 3 right. left.
    auto. }
  destruct (((len scr =? 67) || (len scr =? 35)) && (e1 =? 172))%bool eqn:E5.
  { apply andb_true_iff in E5 as [E5 E6]. apply orb_true_iff in E5.
    zbool. subst e1. eexists. split; [reflexivity|]. do 4 right. left.
    split; [destruct E5; zbool; lia|]. auto. }
  assert (Hnone : exists d, parse_script_tail scr = Ok d
                            /\ addressHash d = None).
  { destruct (parse_script_tail_shape scr Hl)
      as (d & Hd & [(p & ->) | [-> | [(m & n & _ & ->) | (r & _ & ->)]]]);
      (eexists; split; [exact Hd | reflexivity]). }
  destruct Hnone as (d & -> & Hnone). cbn [bind]. rewrite Hnone.
  eexists. split; [reflexivity|]. do 5 right. split; [reflexivity|].
  repeat rewrite andb_false_iff in *. rewrite orb_false_iff in E5.
  repeat split.
  - intros [[Hlen|Hlen] [= ->]];
      [destruct E1 as [E1|E1] | destruct E2 as [E2|E2]]; zbool; lia.
  - intros [Hlen Hshape].
    apply p2pkh_shape_iff in Hshape as [Ha Hb]; [|unfold len in *; lia].
    destruct E3 as [[E3|E3]|E3]; zbool;
      try (apply bool_decide_eq_false in E3); try lia; contradiction.
  - intros (Hlen & [= ->] & [= ->]).
    destruct E4 as [[E4|E4]|E4]; zbool; lia.
  - intros [[Hlen|Hlen] [= ->]]; destruct E5 as [[E5 E6]|E5]; zbool; lia.
Qed.

End AddressFacts.

(** ** A direct push cut short, through the disassembler *)

Section ShortPush.

Variable RAW_OPCODE : Z -> option string.

(** X20: a direct-push opcode [n] (1 to 75) followed by at most [n] bytes,
    and nothing else, is rendered without the failure marker: in asm mode
    as [OP_PUSHBYTES[n]] and the hex of the bytes that are there, however
    few, in the other mode as [[n]]; a payload cut short is not noticed. *)
Theorem decode_short_push (n : Z) (p : bytes) (asm : bool) :
  1 <= n <= 75 -> len p <= n ->
  decode_script RAW_OPCODE (byte_of_Z n :: p) asm =
    Ok (if asm then "OP_PUSHBYTES[" +:+ dec n +:+ "] " +:+ hex p
        else "[" +:+ dec n +:+ "]").
Proof.
  intros Hn Hp.
  assert (Hsl : slice (byte_of_Z n :: p) (0 + 1) (0 + 1 + n) = p).
  { rewrite slice_nonneg by lia.
    replace (Z.to_nat (0 + 1)) with 1%nat by lia. cbn [drop].
    apply take_ge. unfold len in Hp. lia. }
  assert (Hmore : len (byte_of_Z n :: p) - 0 > 0)
    by (unfold len; cbn [length]; lia).
  assert (Htest : ((n <? 76) && truthy n)%bool = true).
  { apply andb_true_iff. split; [apply Z.ltb_lt; lia|].
    unfold truthy. apply negb_true_iff, Z.eqb_neq. lia. }
  unfold decode_script.
  change (length (byte_of_Z n :: p)) with (S (length p)).
  destruct asm.
  - assert (Hturn : decode_turn RAW_OPCODE (byte_of_Z n :: p) true 0 []
                    = Next (0 + (n + 1))
                        ["OP_PUSHBYTES[" +:+ dec n +:+ "]"; hex p]).
    { unfold decode_turn. rewrite getitem_head, byte_val_of_Z by lia.
      change 76 with 0x4c in Htest. rewrite Htest, Hsl. reflexivity. }
    rewrite (decode_loop_step _ _ _ _ _ _ _ _ Hmore Hturn).
    rewrite decode_loop_end by (unfold len in *; cbn [length] in *; lia).
    cbn [bind String.concat]. rewrite !string_append_assoc. reflexivity.
  - assert (Hturn : decode_turn RAW_OPCODE (byte_of_Z n :: p) false 0 []
                    = Next (0 + (n + 1)) ["[" +:+ dec n +:+ "]"]).
    { unfold decode_turn. rewrite getitem_head, byte_val_of_Z by lia.
      change 76 with 0x4c in Htest. rewrite Htest. reflexivity. }
    rewrite (decode_loop_step _ _ _ _ _ _ _ _ Hmore Hturn).
    rewrite decode_loop_end by (unfold len in *; cbn [length] in *; lia).
    reflexivity.
Qed.

End ShortPush.

(** A push of five bytes of which one is there. *)
Lemma decode_short_push_witness :
  decode_script (fun _ => None) [x05; xaa] true = Ok "OP_PUSHBYTES[5] aa".
Proof.
  apply (decode_short_push (fun _ => None) 5 [xaa] true);
    unfold len; simpl; lia.
Defined.
